(** * Dual-Mixer: the C-MAPSS data pipeline and the hand-written LSTM cell

    A shallow embedding of [dataset/cmapss.py] and of the [LSTM] class of
    [models/RULPrediction/SimpleModels.py].

    Conventions of the embedding.
    - A pandas frame is the list of its rows, in row order.  Integer columns
      ([unit_nr], [time_cycles], the RUL file) are mathematical integers; the
      data files stay far below the int64 limits.
    - Sensor readings and the [rul] column are exact rationals: the quotient
      of the normalisation step is the rational that the float64 division
      rounds.
    - Where the code truncates or compares a binary64 number
      ([int(len(grouped) * val_size)], the label distance test of the random
      negative sampler) the kernel's binary64 floats are used.
    - A Python exception is a [Raise] result.
    - A draw of [np.random.choice] is an extra argument holding the outcome
      of the draw; the predicates [choice_without_replacement] and friends
      say which outcomes the generator can produce. *)

From Stdlib Require Import String ZArith QArith List Bool Lia Permutation Sorted Floats.
Import ListNotations.

Close Scope Q_scope.
Set Implicit Arguments.

(** ** Exceptions and results *)

Inductive exn : Set :=
| ValueError
| IndexError
| ZeroDivisionError
| OverflowError
| RuntimeError
| AssertionError.

Inductive result (A : Type) : Type :=
| Ok (a : A)
| Raise (e : exn).

Arguments Ok {A} a.
Arguments Raise {A} e.

Definition bind {A B : Type} (m : result A) (k : A -> result B) : result B :=
  match m with
  | Ok a => k a
  | Raise e => Raise e
  end.

Declare Scope result_scope.
Delimit Scope result_scope with result.
Notation "x <- m ;; k" := (bind m (fun x => k))
  (at level 61, m at next level, right associativity) : result_scope.
Notation "' p <- m ;; k" := (bind m (fun p => k))
  (at level 61, p pattern, m at next level, right associativity) : result_scope.

(** ** Python lists allocated as [[0] * n] and filled by index *)

Inductive slot (A : Type) : Type :=
| Placeholder
| Filled (a : A).

Arguments Placeholder {A}.
Arguments Filled {A} a.

(** [l[i] = v]: an index past the end raises [IndexError]. *)
Fixpoint setitem {A : Type} (l : list A) (i : nat) (v : A) : result (list A) :=
  match l, i with
  | [], _ => Raise IndexError
  | _ :: r, O => Ok (v :: r)
  | x :: r, S i' =>
      match setitem r i' v with
      | Ok r' => Ok (x :: r')
      | Raise e => Raise e
      end
  end.

(** [l[i]] for [0 <= i]. *)
Definition getitem {A : Type} (l : list A) (i : nat) : result A :=
  match nth_error l i with
  | Some a => Ok a
  | None => Raise IndexError
  end.

(** [l[a:b]] for [0 <= a <= b]: the slice stops at the end of the list. *)
Definition slice {A : Type} (l : list A) (a b : nat) : list A :=
  firstn (b - a) (skipn a l).

(** ** binary64 helpers *)

(** The conversion of a Python int to float: round to nearest, ties to even. *)
Definition float_of_Z (z : Z) : float :=
  SF2Prim (binary_normalize prec emax z 0 false).

(** [int(x)]: truncation toward zero; [nan] raises [ValueError] and an
    infinity raises [OverflowError]. *)
Definition py_int (x : float) : result Z :=
  match Prim2SF x with
  | S754_zero _ => Ok 0%Z
  | S754_finite s m e =>
      let v := match e with
               | Zneg p => (Z.pos m / 2 ^ Z.pos p)%Z
               | _ => (Z.pos m * 2 ^ e)%Z
               end in
      Ok (if s then (- v)%Z else v)
  | S754_nan => Raise ValueError
  | S754_infinity _ => Raise OverflowError
  end.


(** ** Frames *)

(** One row of [train_FD00X.txt] / [test_FD00X.txt]: the two index columns
    and the setting and sensor columns, read by column name. *)
Record RawRecord : Type := mkRaw {
  unit_nr : Z;
  time_cycles : Z;
  reading : string -> Q
}.

(** A row after [generate_rul]: the columns [max_cycles] and [rul] added. *)
Record LabeledRecord : Type := mkLabeled {
  raw : RawRecord;
  max_cycles : Z;
  rul : Q
}.

(** The keys of [groupby] and the result of [np.unique]: distinct values in
    ascending order. *)
Fixpoint insert_key (k : Z) (ks : list Z) : list Z :=
  match ks with
  | [] => [k]
  | k' :: r =>
      if (k <? k')%Z then k :: ks
      else if (k =? k')%Z then ks
      else k' :: insert_key k r
  end.

Definition unique (l : list Z) : list Z := fold_right insert_key [] l.

(** [list(df.groupby(by=key))]: one pair per distinct key, keys ascending,
    each group holding its rows in frame order. *)
Definition groupby {R : Type} (key : R -> Z) (df : list R) : list (Z * list R) :=
  map (fun k => (k, filter (fun r => (key r =? k)%Z) df)) (unique (map key df)).

Definition Zmax_list (l : list Z) : Z :=
  match l with
  | [] => 0%Z
  | x :: r => fold_left Z.max r x
  end.

Fixpoint lookup (k : Z) (s : list (Z * Z)) : option Z :=
  match s with
  | [] => None
  | (k', v) :: r => if (k =? k')%Z then Some v else lookup k r
  end.

(** ** The labelling engine: [generate_rul] *)

(** [grouped["time_cycles"].max()]: a series indexed by engine id. *)
Definition RUL_max_of (df : list RawRecord) : list (Z * Z) :=
  map (fun g => (fst g, Zmax_list (map time_cycles (snd g)))) (groupby unit_nr df).

(** [y_test.index = RUL_max.index] followed by the index-aligned sum: the
    assignment raises [ValueError] when the lengths differ. *)
Definition add_y_test (RUL_max : list (Z * Z)) (y_test : option (list Z))
  : result (list (Z * Z)) :=
  match y_test with
  | None => Ok RUL_max
  | Some ys =>
      if (length ys =? length RUL_max)%nat
      then Ok (map (fun p => (fst (fst p), (snd (fst p) + snd p)%Z)) (combine RUL_max ys))
      else Raise ValueError
  end.

(** [pd.merge(df, RUL_max.to_frame(name="max_cycles"), on="unit_nr")] and
    [result["rul"] = result["max_cycles"] - result["time_cycles"]]: an inner
    join in the order of the left frame. *)
Definition merge_rul (df : list RawRecord) (RUL_max : list (Z * Z)) : list LabeledRecord :=
  flat_map (fun r =>
              match lookup (unit_nr r) RUL_max with
              | Some m => [mkLabeled r m (inject_Z (m - time_cycles r))]
              | None => []
              end) df.

Definition Qgtb (x y : Q) : bool := negb (Qle_bool x y).

(** The two [result.loc[...] = ...] assignments of the [threshold > 0]
    branch, in source order: [rul] first, then [max_cycles]. *)
Definition clip_row (threshold : Z) (r : LabeledRecord) : LabeledRecord :=
  let r1 := if Qgtb (rul r) (inject_Z threshold)
            then mkLabeled (raw r) (max_cycles r) (inject_Z threshold)
            else r in
  if (max_cycles r1 >? threshold)%Z
  then mkLabeled (raw r1) (threshold + 1)%Z (rul r1)
  else r1.

Definition normalize_row (r : LabeledRecord) : LabeledRecord :=
  mkLabeled (raw r) (max_cycles r) ((rul r + 1) / inject_Z (max_cycles r))%Q.

(** [y_test] is the first column of the RUL frame, [None] when the frame is
    not given; [threshold] is a whole number of cycles, as [get_data] passes
    it. *)
Definition generate_rul (df : list RawRecord) (y_test : option (list Z))
           (normalize : bool) (threshold : Z) : result (list LabeledRecord) :=
  (RUL_max <- add_y_test (RUL_max_of df) y_test ;;
   let result := merge_rul df RUL_max in
   let result := if (threshold >? 0)%Z then map (clip_row threshold) result else result in
   let result := if normalize then map normalize_row result else result in
   Ok result)%result.

(** ** Loops *)

(** [for a in l: s = f a s], stopping at the first exception. *)
Fixpoint foldM {A St : Type} (f : A -> St -> result St) (l : list A) (s : St) : result St :=
  match l with
  | [] => Ok s
  | a :: r => bind (f a s) (foldM f r)
  end.

(** [[f a for a in l]], stopping at the first exception. *)
Fixpoint mapM {A B : Type} (f : A -> result B) (l : list A) : result (list B) :=
  match l with
  | [] => Ok []
  | a :: r => (b <- f a ;; bs <- mapM f r ;; Ok (b :: bs))%result
  end.

(** ** numpy and pandas concatenation *)

(** The number of axes of [np.asarray] of an element of the list given to
    [np.concatenate]: the int [0] is 0-dimensional, the empty list is
    1-dimensional, a non-empty list has one axis more than its elements. *)
Definition ndim {A : Type} (elem_ndim : nat) (a : slot (list A)) : nat :=
  match a with
  | Placeholder => 0
  | Filled [] => 1
  | Filled (_ :: _) => S elem_ndim
  end.

Definition slot_items {A : Type} (a : slot (list A)) : list A :=
  match a with
  | Placeholder => []
  | Filled l => l
  end.

(** [np.concatenate(arrays)] along axis 0: [ValueError] on an empty
    sequence, on a 0-dimensional array, and on arrays that differ in their
    number of axes.  [elem_ndim] is the number of axes of one element. *)
Definition np_concatenate {A : Type} (elem_ndim : nat) (arrays : list (slot (list A)))
  : result (list A) :=
  match arrays with
  | [] => Raise ValueError
  | a :: rest =>
      if (ndim elem_ndim a =? 0)%nat then Raise ValueError
      else if forallb (fun a' => (ndim elem_ndim a' =? ndim elem_ndim a)%nat) rest
           then Ok (concat (map slot_items arrays))
           else Raise ValueError
  end.

(** [pd.concat(frames)]: [ValueError] when there is nothing to concatenate. *)
Definition pd_concat {R : Type} (frames : list (list R)) : result (list R) :=
  match frames with
  | [] => Raise ValueError
  | _ :: _ => Ok (concat frames)
  end.

(** ** The windowing engine: [generate_window_sample] *)

(** A window sample: [window_size] rows of the selected columns. *)
Definition window : Type := list (list Q).

(** The value of a column of a labelled frame at one row. *)
Definition column (name : string) (r : LabeledRecord) : Q :=
  if (name =? "unit_nr")%string then inject_Z (unit_nr (raw r))
  else if (name =? "time_cycles")%string then inject_Z (time_cycles (raw r))
  else if (name =? "max_cycles")%string then inject_Z (max_cycles r)
  else if (name =? "rul")%string then rul r
  else reading (raw r) name.

(** [engine[sensors].values], for names that are columns of the frame. *)
Definition values (sensors : list string) (engine : list LabeledRecord) : list (list Q) :=
  map (fun r => map (fun name => column name r) sensors) engine.

(** The warning of a dropped engine: its id, its length, the window size. *)
Record warning : Type := mkWarning {
  warned_engine : Z;
  warned_length : nat;
  warned_window_size : nat
}.

(** The loop [for j in range(len(s))] over one engine: [s[j]] is the slice
    [data[j:j + window_size]], [e[j]] the engine's first [unit_nr], [rul[j]]
    the [rul] at position [j + window_size]. *)
Fixpoint fill_windows (data : list (list Q)) (engine : list LabeledRecord)
         (window_size : nat) (js : list nat)
  : result (list window * list Z * list Q) :=
  match js with
  | [] => Ok ([], [], [])
  | j :: js' =>
      (first <- getitem engine 0 ;;
       label <- getitem engine (j + window_size) ;;
       ' (s, e, rul_) <- fill_windows data engine window_size js' ;;
       Ok (slice data j (j + window_size) :: s,
           unit_nr (raw first) :: e,
           rul label :: rul_))%result
  end.

(** The body of the engine loop past the length guard: the three lists
    [s], [e] and [rul] of one engine. *)
Definition engine_windows (window_size slide_step : nat) (sensors : list string)
           (engine : list LabeledRecord) : result (list window * list Z * list Q) :=
  let data := values sensors engine in
  if (slide_step =? 0)%nat then Raise ZeroDivisionError
  else fill_windows data engine window_size
         (seq 0 ((length data - window_size) / slide_step)).

Record window_state : Type := mkWindowState {
  ws_result : list (slot (list window));
  ws_engine_ids : list (slot (list Z));
  ws_labels : list (slot (list Q));
  ws_i : nat
}.

(** The loop over the engines; the warnings are listed in the order they
    are issued. *)
Fixpoint window_loop (window_size slide_step : nat) (sensors : list string)
         (groups : list (Z * list LabeledRecord)) (st : window_state)
  : list warning * result window_state :=
  match groups with
  | [] => ([], Ok st)
  | (id, engine) :: rest =>
      let data := values sensors engine in
      if (length data <? window_size)%nat then
        let (ws, r) := window_loop window_size slide_step sensors rest st in
        (mkWarning id (length data) window_size :: ws, r)
      else
        match
          (' (s, e, rul_) <- engine_windows window_size slide_step sensors engine ;;
           result <- setitem (ws_result st) (ws_i st) (Filled s) ;;
           engine_ids <- setitem (ws_engine_ids st) (ws_i st) (Filled e) ;;
           labels <- setitem (ws_labels st) (ws_i st) (Filled rul_) ;;
           Ok (mkWindowState result engine_ids labels (S (ws_i st))))%result
        with
        | Ok st' => window_loop window_size slide_step sensors rest st'
        | Raise e => ([], Raise e)
        end
  end.

Definition generate_window_sample (df : list LabeledRecord) (window_size slide_step : nat)
           (sensors : list string)
  : list warning * result (list window * list Z * list Q) :=
  let engine_grouped := groupby (fun r => unit_nr (raw r)) df in
  let n := length engine_grouped in
  let st0 := mkWindowState (repeat Placeholder n) (repeat Placeholder n)
                           (repeat Placeholder n) 0 in
  let (ws, r) := window_loop window_size slide_step sensors engine_grouped st0 in
  (ws,
   (st <- r ;;
    data <- np_concatenate 2 (firstn (ws_i st) (ws_result st)) ;;
    ids <- np_concatenate 0 (firstn (ws_i st) (ws_engine_ids st)) ;;
    labels <- np_concatenate 0 (firstn (ws_i st) (ws_labels st)) ;;
    Ok (data, ids, labels))%result).

(** ** Draws of [np.random.choice] *)

(** The outcomes of [np.random.choice(population, size, replace=False)] on a
    population of distinct values. *)
Definition choice_without_replacement {A : Type} (population : list A) (size : nat)
           (draw : list A) : Prop :=
  length draw = size /\ NoDup draw /\ incl draw population.

(** ** The train/validation splitter: [split_val_set] *)

(** [range(1, n + 1)] *)
Definition range_from_1 (n : nat) : list Z := map Z.of_nat (seq 1 n).

Definition Z_mem (x : Z) (l : list Z) : bool := existsb (Z.eqb x) l.

(** The loop [for i in range(1, len(grouped) + 1)]: the two lists of
    per-engine frames. *)
Fixpoint split_loop (train_set : list LabeledRecord) (val_index : list Z) (rng : list Z)
  : list (list LabeledRecord) * list (list LabeledRecord) :=
  match rng with
  | [] => ([], [])
  | i :: rng' =>
      let data := filter (fun r => (unit_nr (raw r) =? i)%Z) train_set in
      let (train_set_result, val_set_result) := split_loop train_set val_index rng' in
      if Z_mem i val_index
      then (train_set_result, data :: val_set_result)
      else (data :: train_set_result, val_set_result)
  end.

(** [val_index] is the outcome of the draw
    [np.random.choice(range(1, len(grouped) + 1), int(len(grouped) * val_size),
    replace=False)]; the draw raises [ValueError] on a negative size and on a
    size larger than the population. *)
Definition split_val_set (train_set : list LabeledRecord) (val_size : float)
           (val_index : list Z) : result (list LabeledRecord * list LabeledRecord) :=
  let grouped := groupby (fun r => unit_nr (raw r)) train_set in
  (size <- py_int (float_of_Z (Z.of_nat (length grouped)) * val_size)%float ;;
   _ <- (if ((size <? 0)%Z || (Z.of_nat (length grouped) <? size)%Z)%bool
         then Raise ValueError else Ok tt) ;;
   let (train_set_result, val_set_result) :=
     split_loop train_set val_index (range_from_1 (length grouped)) in
   train <- pd_concat train_set_result ;;
   val <- pd_concat val_set_result ;;
   Ok (train, val))%result.

(** The number of distinct engine ids of a frame. *)
Definition engine_count (df : list LabeledRecord) : nat :=
  length (unique (map (fun r => unit_nr (raw r)) df)).

(** ** The dataset container: [Cmapss] *)

(** [np.argwhere(mask)] on a 1-dimensional mask: the positions that hold
    [True], ascending. *)
Fixpoint argwhere_from (start : nat) (mask : list bool) : list nat :=
  match mask with
  | [] => []
  | b :: r =>
      if b then start :: argwhere_from (S start) r else argwhere_from (S start) r
  end.

Definition argwhere (mask : list bool) : list nat := argwhere_from 0 mask.

Module Cmapss.

(** The three parallel arrays of a dataset; [X] is the type of one sample
    (a window).  Engine ids are whole numbers, labels are binary64. *)
Record t (X : Type) : Type := mk {
  data : list X;
  ids : list Z;
  labels : list float
}.

(** [__init__]: the assertion on the three leading lengths. *)
Definition init {X : Type} (data_ : list X) (ids_ : list Z) (labels_ : list float)
  : result (t X) :=
  if ((length data_ =? length ids_)%nat && (length ids_ =? length labels_)%nat)%bool
  then Ok (mk data_ ids_ labels_)
  else Raise AssertionError.

(** [__len__] *)
Definition len {X : Type} (self : t X) : nat := length (data self).


End Cmapss.

(** ** The engine/interval-stratified sampler: [CmapssNegativeSampler] *)

Module CmapssNegativeSampler.

Record t (X : Type) : Type := mk {
  ids : list Z;
  data : list X;
  labels : list float;
  interval_nums : nat;
  engine_num : nat
}.

Definition init {X : Type} (dataset : Cmapss.t X) (engine_num_ interval_num : nat) : t X :=
  mk (Cmapss.ids dataset) (Cmapss.data dataset) (Cmapss.labels dataset)
     interval_num engine_num_.

(** The three output lists and the write position [j]. *)
Record state (X : Type) : Type := mkState {
  neg_samples : list (slot X);
  neg_labels : list (slot float);
  neg_ids : list (slot Z);
  j : nat
}.

(** [sample_indexes[0][0] + i * gap] and the end of the [i]-th segment. *)
Definition segment (sample_indexes : list nat) (gap interval_nums_ i : nat)
  : result (nat * nat) :=
  (first <- getitem sample_indexes 0 ;;
   let random_range_start := first + i * gap in
   random_range_end <-
     (if negb (i =? interval_nums_ - 1)%nat
      then Ok (random_range_start + gap)
      else (last <- getitem sample_indexes (length sample_indexes - 1) ;;
            Ok (last + 1))) ;;
   Ok (random_range_start, random_range_end))%result.

(** The test of the [continue]. *)
Definition skipped (index : nat) (engine engine_id : Z) (bounds : nat * nat) : bool :=
  ((fst bounds <=? index)%nat && (index <? snd bounds)%nat && (engine =? engine_id)%Z)%bool.

(** One round of the loop over the segments of the [e]-th drawn engine;
    [picks e i] is the outcome of
    [np.random.choice(range(random_range_start, random_range_end), 1)],
    which raises [ValueError] on an empty range. *)
Definition segment_step {X : Type} (self : t X) (index : nat) (engine_id : Z)
           (picks : nat -> nat -> nat) (e : nat) (engine : Z)
           (sample_indexes : list nat) (gap : nat) (i : nat) (st : state X)
  : result (state X) :=
  (bounds <- segment sample_indexes gap (interval_nums self) i ;;
   if skipped index engine engine_id bounds then Ok st
   else if (snd bounds <=? fst bounds)%nat then Raise ValueError
   else
     let sample_index := picks e i in
     d <- getitem (data self) sample_index ;;
     samples <- setitem (neg_samples st) (j st) (Filled d) ;;
     l <- getitem (labels self) sample_index ;;
     labels_ <- setitem (neg_labels st) (j st) (Filled l) ;;
     id <- getitem (ids self) sample_index ;;
     ids_ <- setitem (neg_ids st) (j st) (Filled id) ;;
     Ok (mkState samples labels_ ids_ (S (j st))))%result.

(** One round of the loop over the drawn engines. *)
Definition engine_step {X : Type} (self : t X) (index : nat) (engine_id : Z)
           (picks : nat -> nat -> nat) (e_engine : nat * Z) (st : state X)
  : result (state X) :=
  let (e, engine) := e_engine in
  let sample_indexes := argwhere (map (fun id => (id =? engine)%Z) (ids self)) in
  if (interval_nums self =? 0)%nat then Raise ZeroDivisionError
  else
    let gap := length sample_indexes / interval_nums self in
    foldM (segment_step self index engine_id picks e engine sample_indexes gap)
          (seq 0 (interval_nums self)) st.

(** The engines the loop runs over: the draw, its first entry overwritten
    by the anchor's engine when the draw misses it. *)
Definition drawn_engines (engine_id : Z) (drawn : list Z) : result (list Z) :=
  if Z_mem engine_id drawn then Ok drawn else setitem drawn 0 engine_id.

(** [sample] up to the two array constructions of its [return]: the lists
    [neg_samples] and [neg_labels].  [drawn] is the outcome of
    [np.random.choice(np.unique(ids), engine_num, replace=False)], which
    raises [ValueError] when [engine_num] exceeds the number of engines. *)
Definition sample_slots {X : Type} (self : t X) (index : nat) (drawn : list Z)
           (picks : nat -> nat -> nat) : result (list (slot X) * list (slot float)) :=
  (engine_id <- getitem (ids self) index ;;
   _ <- (if (length (unique (ids self)) <? engine_num self)%nat
         then Raise ValueError else Ok tt) ;;
   engine_ids <- drawn_engines engine_id drawn ;;
   let size := interval_nums self * engine_num self in
   let st0 := mkState (repeat Placeholder size) (repeat Placeholder size)
                      (repeat Placeholder size) 1 in
   st <- foldM (engine_step self index engine_id picks)
               (combine (seq 0 (length engine_ids)) engine_ids) st0 ;;
   d <- getitem (data self) index ;;
   samples <- setitem (neg_samples st) 0 (Filled d) ;;
   l <- getitem (labels self) index ;;
   labels_ <- setitem (neg_labels st) 0 (Filled l) ;;
   _ <- setitem (neg_ids st) 0 (Filled engine_id) ;;
   Ok (samples, labels_))%result.

(** [np.stack] of a list that holds dataset samples (arrays of one shape
    with at least one axis) and int placeholders: the shapes agree only
    when no placeholder is left. *)
Fixpoint np_stack {X : Type} (arrays : list (slot X)) : result (list X) :=
  match arrays with
  | [] => Ok []
  | Filled a :: r => (r' <- np_stack r ;; Ok (a :: r'))%result
  | Placeholder :: _ => Raise ValueError
  end.

(** [np.array] of the label list: a placeholder is the number [0]. *)
Definition np_array (l : list (slot float)) : list float :=
  map (fun s => match s with Filled x => x | Placeholder => 0%float end) l.

Definition sample {X : Type} (self : t X) (index : nat) (drawn : list Z)
           (picks : nat -> nat -> nat) : result (list X * list float) :=
  (' (samples, labels_) <- sample_slots self index drawn picks ;;
   stacked <- (match samples with [] => Raise ValueError | _ => np_stack samples end) ;;
   Ok (stacked, np_array labels_))%result.

End CmapssNegativeSampler.

(** ** The label-distance sampler: [CmapssRandomNegtiveSampler] *)

Module CmapssRandomNegtiveSampler.

Record t (X : Type) : Type := mk {
  neg_num : nat;
  labels : list float;
  data : list X;
  thresh : float
}.

Definition init {X : Type} (dataset : Cmapss.t X) (neg_num_ : nat) (sample_thresh : float)
  : t X :=
  mk neg_num_ (Cmapss.labels dataset) (Cmapss.data dataset) sample_thresh.

(** [np.abs(labels - labels[index]) > thresh] at one label. *)
Definition far (thresh_ anchor l : float) : bool := (thresh_ <? abs (l - anchor))%float.

(** The indices whose label is far from the anchor's. *)
Definition candidates {X : Type} (self : t X) (index : nat) : result (list nat) :=
  (anchor <- getitem (labels self) index ;;
   Ok (argwhere (map (far (thresh self) anchor) (labels self))))%result.

(** What [np.random.choice] draws from, given [np.squeeze] of the candidate
    column: a single candidate squeezes to a 0-dimensional array, which
    [choice] reads as the integer [c] and replaces by [np.arange(c)]
    ([ValueError] unless [c > 0]); an empty array raises [ValueError]. *)
Definition population (cands : list nat) : result (list nat) :=
  match cands with
  | [] => Raise ValueError
  | [c] => if (c =? 0)%nat then Raise ValueError else Ok (seq 0 c)
  | _ => Ok cands
  end.

(** [draw] is the outcome of
    [np.random.choice(indexes, size=neg_num + 1, replace=False)]. *)
Definition sample {X : Type} (self : t X) (index : nat) (draw : list nat)
  : result (list X * list float) :=
  (cands <- candidates self index ;;
   pop <- population cands ;;
   _ <- (if (length pop <? neg_num self + 1)%nat then Raise ValueError else Ok tt) ;;
   indexes <- setitem draw 0 index ;;
   samples <- mapM (getitem (data self)) indexes ;;
   labels_ <- mapM (getitem (labels self)) indexes ;;
   Ok (samples, labels_))%result.

End CmapssRandomNegtiveSampler.

(** ** The hand-written recurrent cell: [LSTM] *)

Module LSTM.

(** The tensor operations [forward] uses, on tensors of shape
    (batch, features). *)
Class Tensor (T : Type) : Type := {
  zeros : nat -> nat -> T;        (* torch.zeros((b, n)) *)
  concat : T -> T -> T;           (* torch.concat([u, v], dim=-1) *)
  sigmoid : T -> T;               (* F.sigmoid *)
  tanh : T -> T;                  (* F.tanh *)
  mul : T -> T -> T;              (* u * v *)
  add : T -> T -> T               (* u + v *)
}.

(** [nn.Linear(in_features, out_features)]: the layer's learned weight and
    bias are in [apply], its action on a batch. *)
Record Linear (T : Type) : Type := mkLinear {
  in_features : nat;
  out_features : nat;
  apply : T -> T
}.

(** [nn.Dropout(p)]: [drop i] is the layer's action at its [i]-th call of a
    forward pass (a random mask while training, the identity otherwise). *)
Record Dropout (T : Type) : Type := mkDropout {
  p : Q;
  drop : nat -> T -> T
}.

Record t (T : Type) : Type := mk {
  wf : Linear T;
  wi : Linear T;
  wc : Linear T;
  wo : Linear T;
  dropout : option (Dropout T);
  hidden_size : nat
}.

(** [__init__]: the four layers are created one by one, each with its own
    parameters [af], [ai], [ac], [ao]; [nn.Dropout] is built only for a
    positive rate and refuses a rate above 1 with [ValueError]. *)
Definition init {T : Type} (input_size hidden_size_ : nat) (dropout_ : Q)
           (af ai ac ao : T -> T) (mask : nat -> T -> T) : result (t T) :=
  let wf_ := mkLinear (input_size + hidden_size_) hidden_size_ af in
  let wi_ := mkLinear (input_size + hidden_size_) hidden_size_ ai in
  let wc_ := mkLinear (input_size + hidden_size_) hidden_size_ ac in
  let wo_ := mkLinear (input_size + hidden_size_) hidden_size_ ao in
  (dropout_layer <-
     (if Qgtb dropout_ 0
      then (if Qgtb dropout_ 1 then Raise ValueError
            else Ok (Some (mkDropout dropout_ mask)))
      else Ok None) ;;
   Ok (mk wf_ wi_ wc_ wo_ dropout_layer hidden_size_))%result.

(** An input of shape (b, l, f), given by its [l] slices [x[:, i, :]]. *)
Record input (T : Type) : Type := mkInput {
  b : nat;
  slices : list T
}.

(** [torch.stack(outputs, dim=1)], the result given by its slices along
    axis 1: [RuntimeError] on an empty list. *)
Definition torch_stack {T : Type} (outputs : list T) : result (list T) :=
  match outputs with
  | [] => Raise RuntimeError
  | _ :: _ => Ok outputs
  end.

(** The body of [for i in range(l)] on the loop variables [(h, c, outputs)]. *)
Definition step {T : Type} `{Tensor T} (self : t T) (i_x : nat * T) (st : T * T * list T)
  : T * T * list T :=
  let '(h, c, outputs) := st in
  let (i, x_i) := i_x in
  let ft := sigmoid (apply (wf self) (concat x_i h)) in
  let it := sigmoid (apply (wi self) (concat x_i h)) in
  let c_ := tanh (apply (wc self) (concat x_i h)) in
  let c := add (mul ft c) (mul it c_) in
  let ot := sigmoid (apply (wo self) (concat x_i h)) in
  let h := mul ot (tanh c) in
  let h := match dropout self with
           | Some d => drop d i h
           | None => h
           end in
  (h, c, outputs ++ [h]).

Definition forward {T : Type} `{Tensor T} (self : t T) (x : input T)
  : result (list T * (T * T)) :=
  let h := zeros (b x) (hidden_size self) in
  let c := zeros (b x) (hidden_size self) in
  let '(h, c, outputs) :=
    fold_left (fun st i_x => step self i_x st)
              (combine (seq 0 (length (slices x))) (slices x)) (h, c, []) in
  (stacked <- torch_stack outputs ;;
   Ok (stacked, (h, c)))%result.

(** The recurrence of the specification, in its words: [(h_t, c_t)] for a
    batch of [b_] rows from [h_0 = c_0 = 0], with [x_t] the [t]-th slice
    counted from 1, the four linear maps [w_f], [w_i], [w_c], [w_o], and
    dropout (of action [mask]) applied to [h_t] only when the configured
    rate is positive. *)
Fixpoint lstm_recurrence {T : Type} `{Tensor T} (hidden : nat) (rate : Q)
         (w_f w_i w_c w_o : T -> T) (mask : nat -> T -> T)
         (b_ : nat) (xs : list T) (t_ : nat) : T * T :=
  match t_ with
  | O => (zeros b_ hidden, zeros b_ hidden)
  | S t' =>
      let (h_prev, c_prev) :=
        lstm_recurrence hidden rate w_f w_i w_c w_o mask b_ xs t' in
      let z_t := concat (nth t' xs (zeros b_ 0)) h_prev in
      let f_t := sigmoid (w_f z_t) in
      let i_t := sigmoid (w_i z_t) in
      let candidate := tanh (w_c z_t) in
      let c_t := add (mul f_t c_prev) (mul i_t candidate) in
      let o_t := sigmoid (w_o z_t) in
      let h_t := mul o_t (tanh c_t) in
      (if Qgtb rate 0 then mask t' h_t else h_t, c_t)
  end.

(** A one-number tensor, to run the cell on. *)
#[global] Instance number_tensor : Tensor Z := {
  zeros := fun _ _ => 0%Z;
  concat := Z.add;
  sigmoid := fun u => u;
  tanh := fun u => u;
  mul := Z.mul;
  add := Z.add
}.

End LSTM.

(** ** Notions the statements use *)

(** The engine's maximum observed cycle index. *)
Definition observed_max (df : list RawRecord) (engine : Z) : Z :=
  Zmax_list (map time_cycles (filter (fun r => (unit_nr r =? engine)%Z) df)).

Fixpoint index_of (k : Z) (ks : list Z) : nat :=
  match ks with
  | [] => 0
  | k' :: r => if (k =? k')%Z then 0 else S (index_of k r)
  end.

(** The remaining life at truncation supplied for an engine: the entry of
    the RUL file at the engine's rank among the engine ids (test mode),
    nothing in training mode. *)
Definition remaining_life (df : list RawRecord) (y_test : option (list Z)) (engine : Z) : Z :=
  match y_test with
  | None => 0%Z
  | Some ys => nth (index_of engine (unique (map unit_nr df))) ys 0%Z
  end.

(** The RUL file has one row per engine of the frame. *)
Definition y_test_fits (df : list RawRecord) (y_test : option (list Z)) : Prop :=
  match y_test with
  | None => True
  | Some ys => length ys = length (unique (map unit_nr df))
  end.




Definition default_row : LabeledRecord := mkLabeled (mkRaw 0 0 (fun _ => 0%Q)) 0 0%Q.

(** What the engine loop stores for an engine that passes the length
    guard: the windows, the engine id once per window, the labels. *)
Definition engine_block (window_size slide_step : nat) (sensors : list string)
           (engine : list LabeledRecord) : list window * list Z * list Q :=
  let js := seq 0 ((length engine - window_size) / slide_step) in
  (map (fun j => slice (values sensors engine) j (j + window_size)) js,
   map (fun _ => unit_nr (raw (hd default_row engine))) js,
   map (fun j => rul (nth (j + window_size) engine default_row)) js).

(** The engines that pass the length guard, and the warnings for the rest. *)
Definition kept (window_size : nat) (groups : list (Z * list LabeledRecord))
  : list (Z * list LabeledRecord) :=
  filter (fun g => negb (length (snd g) <? window_size)%nat) groups.

Definition dropped_warnings (window_size : nat) (groups : list (Z * list LabeledRecord))
  : list warning :=
  map (fun g => mkWarning (fst g) (length (snd g)) window_size)
      (filter (fun g => (length (snd g) <? window_size)%nat) groups).

(** The engine trajectories of a labelled frame. *)
Definition trajectories (df : list LabeledRecord) : list (Z * list LabeledRecord) :=
  groupby (fun r => unit_nr (raw r)) df.


(** The sum over the engine trajectories of [max(0, floor((L - W) / s))]. *)
Definition window_total (window_size slide_step : nat)
           (groups : list (Z * list LabeledRecord)) : Z :=
  fold_right Z.add 0%Z
    (map (fun g => Z.max 0 ((Z.of_nat (length (snd g)) - Z.of_nat window_size)
                            / Z.of_nat slide_step))
         groups).


(** ** Small frames the examples run on *)

(** A raw row whose every setting and sensor column reads [v]. *)
Definition raw_row (engine cycle : Z) (v : Q) : RawRecord :=
  mkRaw engine cycle (fun _ => v).

(** Engine 1 observed for 2 cycles, engine 2 for 3 cycles. *)
Definition example_raw : list RawRecord :=
  [raw_row 1 1 0%Q; raw_row 2 1 0%Q; raw_row 1 2 0%Q; raw_row 2 2 0%Q; raw_row 2 3 0%Q].

Definition example_y_test : option (list Z) := Some [112; 98]%Z.

(** A labelled row of a run-to-failure trajectory of [life] cycles; every
    setting and sensor column reads the cycle index. *)
Definition labeled_row (engine cycle life : Z) : LabeledRecord :=
  mkLabeled (raw_row engine cycle (inject_Z cycle)) life (inject_Z (life - cycle)).

(** One engine of six rows. *)
Definition example_engine : list LabeledRecord :=
  [labeled_row 1 1 6; labeled_row 1 2 6; labeled_row 1 3 6;
   labeled_row 1 4 6; labeled_row 1 5 6; labeled_row 1 6 6].

(** Engine 1 of two rows, engine 2 of four rows. *)
Definition example_two_engines : list LabeledRecord :=
  [labeled_row 1 1 2; labeled_row 1 2 2;
   labeled_row 2 1 4; labeled_row 2 2 4; labeled_row 2 3 4; labeled_row 2 4 4].

Definition example_sensors : list string := ["s_2"%string; "s_3"%string].





(** A dataset of four samples, tagged 100..103, of one engine; the labels
    of the first three agree. *)
Definition example_dataset : Cmapss.t nat :=
  Cmapss.mk [100; 101; 102; 103] [1; 1; 1; 1]%Z [0; 0; 0; 10]%float.


(** The picks of one run of [CmapssNegativeSampler.sample] are draws the
    generator can produce: for every drawn engine and every segment that is
    not skipped, the pick lies in the segment's range. *)
Definition valid_picks {X : Type} (self : CmapssNegativeSampler.t X) (index : nat)
           (engine_id : Z) (engine_ids : list Z) (picks : nat -> nat -> nat) : Prop :=
  forall e engine i bounds,
    nth_error engine_ids e = Some engine ->
    i < CmapssNegativeSampler.interval_nums self ->
    CmapssNegativeSampler.segment
      (argwhere (map (fun id => (id =? engine)%Z) (CmapssNegativeSampler.ids self)))
      (length (argwhere (map (fun id => (id =? engine)%Z) (CmapssNegativeSampler.ids self)))
       / CmapssNegativeSampler.interval_nums self)
      (CmapssNegativeSampler.interval_nums self) i = Ok bounds ->
    CmapssNegativeSampler.skipped index engine engine_id bounds = false ->
    fst bounds <= picks e i < snd bounds.

(** Two engines of four samples each, tagged 10..13 and 20..23. *)
Definition example_sampler : CmapssNegativeSampler.t nat :=
  CmapssNegativeSampler.init
    (Cmapss.mk [10; 11; 12; 13; 20; 21; 22; 23] [1; 1; 1; 1; 2; 2; 2; 2]%Z
               [1; 2; 3; 4; 5; 6; 7; 8]%float)
    2 2.

(** The picks of one run on [example_sampler]: indices 5 and 6 for the two
    segments of the first drawn engine, index 3 otherwise. *)
Definition example_picks (e i : nat) : nat :=
  match e, i with
  | 0, 0 => 5
  | 0, _ => 6
  | _, _ => 3
  end.


(** The engine of the anchor, the dataset positions of an engine, and the
    bounds of its segments as [segment] computes them. *)
Definition anchor_engine {X : Type} (self : CmapssNegativeSampler.t X) (index : nat) : Z :=
  nth index (CmapssNegativeSampler.ids self) 0%Z.

Definition engine_positions {X : Type} (self : CmapssNegativeSampler.t X) (engine : Z)
  : list nat :=
  argwhere (map (fun id => (id =? engine)%Z) (CmapssNegativeSampler.ids self)).

Definition segment_gap {X : Type} (self : CmapssNegativeSampler.t X) (engine : Z) : nat :=
  length (engine_positions self engine) / CmapssNegativeSampler.interval_nums self.

Definition segment_bounds {X : Type} (self : CmapssNegativeSampler.t X) (engine : Z)
           (i : nat) : nat * nat :=
  let start := nth 0 (engine_positions self engine) 0 + i * segment_gap self engine in
  (start,
   if (i =? CmapssNegativeSampler.interval_nums self - 1)%nat
   then nth (length (engine_positions self engine) - 1) (engine_positions self engine) 0 + 1
   else start + segment_gap self engine).

(** The [i]-th segment of [engine] is the one the loop skips. *)
Definition segment_skipped {X : Type} (self : CmapssNegativeSampler.t X) (index : nat)
           (engine : Z) (i : nat) : bool :=
  CmapssNegativeSampler.skipped index engine (anchor_engine self index)
                                (segment_bounds self engine i).

(** Slot [q] of the two output lists holds a sample of the dataset and the
    label of that sample. *)
Definition holds_dataset_sample {X : Type} (self : CmapssNegativeSampler.t X)
           (samples : list (slot X)) (labels_ : list (slot float)) (q : nat) : Prop :=
  exists p x l,
    nth_error (CmapssNegativeSampler.data self) p = Some x /\
    nth_error (CmapssNegativeSampler.labels self) p = Some l /\
    nth_error samples q = Some (Filled x) /\
    nth_error labels_ q = Some (Filled l).

(** The loop invariant: the three lists keep their allocated length and
    every slot from 1 up to the write position is filled. *)
Definition slots_invariant {X : Type} (self : CmapssNegativeSampler.t X)
           (st : CmapssNegativeSampler.state X) : Prop :=
  let size := CmapssNegativeSampler.interval_nums self * CmapssNegativeSampler.engine_num self in
  length (CmapssNegativeSampler.neg_samples st) = size /\
  length (CmapssNegativeSampler.neg_labels st) = size /\
  length (CmapssNegativeSampler.neg_ids st) = size /\
  1 <= CmapssNegativeSampler.j st /\
  forall q, 1 <= q < CmapssNegativeSampler.j st ->
            holds_dataset_sample self (CmapssNegativeSampler.neg_samples st)
                                 (CmapssNegativeSampler.neg_labels st) q.

(** The row [generate_rul] builds before clipping and normalising. *)
Definition label_row (df : list RawRecord) (y_test : option (list Z)) (r : RawRecord)
  : LabeledRecord :=
  let m := (observed_max df (unit_nr r) + remaining_life df y_test (unit_nr r))%Z in
  mkLabeled r m (inject_Z (m - time_cycles r)).

Definition finish_row (normalize : bool) (threshold : Z) (r : LabeledRecord) : LabeledRecord :=
  let r := if (threshold >? 0)%Z then clip_row threshold r else r in
  if normalize then normalize_row r else r.

(** The rows of engine [i] of a frame. *)
Definition engine_rows (df : list LabeledRecord) (i : Z) : list LabeledRecord :=
  filter (fun r => (unit_nr (raw r) =? i)%Z) df.

(** The label of the anchor of the label-distance sampler. *)
Definition anchor_label {X : Type} (self : CmapssRandomNegtiveSampler.t X) (index : nat)
  : float :=
  nth index (CmapssRandomNegtiveSampler.labels self) 0%float.


(** The total life of the engine of a raw row, as [generate_rul] joins it:
    the largest observed cycle plus the remaining life supplied for it. *)
Definition total_life (df : list RawRecord) (y_test : option (list Z)) (r : RawRecord) : Z :=
  (observed_max df (unit_nr r) + remaining_life df y_test (unit_nr r))%Z.


(** The rows of a frame whose engine id lies in [1, n]. *)
Definition numbered_rows (n : nat) (df : list LabeledRecord) : list LabeledRecord :=
  filter (fun r => (1 <=? unit_nr (raw r))%Z && (unit_nr (raw r) <=? Z.of_nat n)%Z) df.

(** Engines 1, 5 and 7: three engines, of which only one has an id in
    [1, 3]. *)
Definition example_gapped_set : list LabeledRecord :=
  [labeled_row 1 1 1; labeled_row 5 1 2; labeled_row 5 2 2; labeled_row 7 1 1].


(** The dataset positions [CmapssNegativeSampler.sample] reads its
    negatives from, in the order the loop stores them: engine after engine
    of [engine_ids], the pick of every segment that is not skipped. *)
Definition planned_picks {X : Type} (self : CmapssNegativeSampler.t X) (index : nat)
           (engine_ids : list Z) (picks : nat -> nat -> nat) : list nat :=
  flat_map (fun e_engine : nat * Z =>
              map (picks (fst e_engine))
                  (filter (fun i => negb (segment_skipped self index (snd e_engine) i))
                          (seq 0 (CmapssNegativeSampler.interval_nums self))))
           (combine (seq 0 (length engine_ids)) engine_ids).

(** The loop invariant on the content of the output lists: the write
    position is one past the positions [ps] read so far, and the lists hold
    the placeholder of slot 0, the samples and labels at [ps], and
    placeholders up to the allocated length. *)
Definition slots_content {X : Type} (self : CmapssNegativeSampler.t X) (d : X)
           (st : CmapssNegativeSampler.state X) (ps : list nat) : Prop :=
  let size := CmapssNegativeSampler.interval_nums self * CmapssNegativeSampler.engine_num self in
  length (CmapssNegativeSampler.neg_samples st) = size /\
  length (CmapssNegativeSampler.neg_labels st) = size /\
  length (CmapssNegativeSampler.neg_ids st) = size /\
  CmapssNegativeSampler.j st = S (length ps) /\
  Forall (fun p => p < length (CmapssNegativeSampler.data self) /\
                   p < length (CmapssNegativeSampler.labels self) /\
                   p < length (CmapssNegativeSampler.ids self)) ps /\
  (1 <= size ->
   CmapssNegativeSampler.j st <= size /\
   CmapssNegativeSampler.neg_samples st
   = Placeholder :: map (fun p => Filled (nth p (CmapssNegativeSampler.data self) d)) ps
                 ++ repeat Placeholder (size - CmapssNegativeSampler.j st) /\
   CmapssNegativeSampler.neg_labels st
   = Placeholder :: map (fun p => Filled (nth p (CmapssNegativeSampler.labels self) 0%float)) ps
                 ++ repeat Placeholder (size - CmapssNegativeSampler.j st)).

(** * Properties *)

Unset Implicit Arguments.

(** ** Results and index assignments *)

Lemma bind_ok_inv {A B : Type} (m : result A) (k : A -> result B) (v : B) :
  bind m k = Ok v -> exists a, m = Ok a /\ k a = Ok v.
Proof.
  destruct m as [a|e]; simpl; intros Hk; [exists a; auto | discriminate].
Qed.

Lemma setitem_ok {A : Type} (l : list A) (i : nat) (v : A) :
  i < length l ->
  setitem l i v = Ok (firstn i l ++ v :: skipn (S i) l).
Proof.
  revert i; induction l as [|x r IH]; intros [|i] Hi; simpl in *; try lia; auto.
  rewrite IH by lia. reflexivity.
Qed.

Lemma setitem_raise {A : Type} (l : list A) (i : nat) (v : A) :
  length l <= i -> setitem l i v = Raise IndexError.
Proof.
  revert i; induction l as [|x r IH]; intros [|i] Hi; simpl in *; try lia; auto.
  rewrite IH by lia. reflexivity.
Qed.

Lemma getitem_ok {A : Type} (l : list A) (i : nat) (d : A) :
  i < length l -> getitem l i = Ok (nth i l d).
Proof.
  intros Hi. unfold getitem.
  rewrite (nth_error_nth' l d Hi). reflexivity.
Qed.

Lemma slice_length {A : Type} (l : list A) (a b : nat) :
  b <= length l -> length (slice l a b) = b - a.
Proof.
  intros Hb. unfold slice.
  rewrite length_firstn, length_skipn. lia.
Qed.

Lemma slice_nth_error {A : Type} (l : list A) (a b k : nat) :
  k < b - a -> nth_error (slice l a b) k = nth_error l (a + k).
Proof.
  intros Hk. unfold slice.
  rewrite nth_error_firstn.
  destruct (Nat.ltb_spec k (b - a)); [|lia].
  apply nth_error_skipn.
Qed.

(** ** [np.unique] and [groupby] *)

Lemma insert_key_In (k x : Z) (ks : list Z) :
  In x (insert_key k ks) <-> x = k \/ In x ks.
Proof.
  induction ks as [|k' r IH]; simpl.
  - intuition.
  - destruct (Z.ltb_spec k k'); [simpl; intuition|].
    destruct (Z.eqb_spec k k'); [subst; simpl; intuition|].
    simpl. rewrite IH. intuition.
Qed.

Lemma unique_In (x : Z) (l : list Z) : In x (unique l) <-> In x l.
Proof.
  induction l as [|a l IH]; simpl; [tauto|].
  rewrite insert_key_In, IH. intuition.
Qed.

Lemma insert_key_sorted (k : Z) (ks : list Z) :
  StronglySorted Z.lt ks -> StronglySorted Z.lt (insert_key k ks).
Proof.
  induction ks as [|k' r IH]; simpl; intros Hs.
  - repeat constructor.
  - inversion Hs as [|? ? Hr Hall]; subst.
    destruct (Z.ltb_spec k k').
    + constructor; [exact Hs|].
      constructor; [assumption|].
      rewrite Forall_forall in *. intros y Hy. specialize (Hall y Hy). lia.
    + destruct (Z.eqb_spec k k'); [exact Hs|].
      constructor; [auto|].
      rewrite Forall_forall in *. intros y Hy.
      apply insert_key_In in Hy. destruct Hy as [->|Hy]; [lia|auto].
Qed.

Lemma unique_sorted (l : list Z) : StronglySorted Z.lt (unique l).
Proof.
  induction l as [|a l IH]; simpl; [constructor | apply insert_key_sorted, IH].
Qed.



Lemma groupby_keys {R : Type} (key : R -> Z) (df : list R) :
  map fst (groupby key df) = unique (map key df).
Proof.
  unfold groupby. rewrite map_map. simpl. apply map_id.
Qed.

Lemma groupby_length {R : Type} (key : R -> Z) (df : list R) :
  length (groupby key df) = length (unique (map key df)).
Proof. unfold groupby. apply length_map. Qed.

Lemma groupby_In {R : Type} (key : R -> Z) (df : list R) (k : Z) (g : list R) :
  In (k, g) (groupby key df) <->
  In k (map key df) /\ g = filter (fun r => (key r =? k)%Z) df.
Proof.
  unfold groupby. rewrite in_map_iff. split.
  - intros (k' & Heq & Hin). inversion Heq; subst.
    split; [apply unique_In; assumption | reflexivity].
  - intros (Hin & ->). exists k. split; [reflexivity | apply unique_In; assumption].
Qed.

(** ** The labelling engine *)

Lemma RUL_max_of_eq (df : list RawRecord) :
  RUL_max_of df = map (fun k => (k, observed_max df k)) (unique (map unit_nr df)).
Proof.
  unfold RUL_max_of, groupby. rewrite map_map. reflexivity.
Qed.

Lemma lookup_series (f : Z -> Z) (ks : list Z) (e : Z) :
  In e ks -> lookup e (map (fun k => (k, f k)) ks) = Some (f e).
Proof.
  induction ks as [|k r IH]; simpl; [tauto|].
  intros Hin. destruct (Z.eqb_spec e k) as [->|Hne]; [reflexivity|].
  apply IH. destruct Hin; congruence.
Qed.

Lemma lookup_series_sum (f : Z -> Z) (ks ys : list Z) (e : Z) :
  length ys = length ks -> In e ks ->
  lookup e (map (fun p => (fst (fst p), (snd (fst p) + snd p)%Z))
                (combine (map (fun k => (k, f k)) ks) ys))
  = Some (f e + nth (index_of e ks) ys 0)%Z.
Proof.
  revert ys; induction ks as [|k r IH]; intros [|y ys] Hlen Hin; simpl in *;
    try tauto; try discriminate.
  destruct (Z.eqb_spec e k) as [->|Hne]; [reflexivity|].
  apply IH; [lia | destruct Hin; congruence].
Qed.


Lemma merge_rul_map (df : list RawRecord) (s : list (Z * Z)) (g : Z -> Z) :
  (forall r, In r df -> lookup (unit_nr r) s = Some (g (unit_nr r))) ->
  merge_rul df s
  = map (fun r => mkLabeled r (g (unit_nr r))
                            (inject_Z (g (unit_nr r) - time_cycles r))) df.
Proof.
  unfold merge_rul. induction df as [|r df IH]; simpl; intros Hl; [reflexivity|].
  rewrite (Hl r) by auto. simpl. f_equal. apply IH. auto.
Qed.

Lemma generate_rul_rows (df : list RawRecord) (y_test : option (list Z))
      (normalize : bool) (threshold : Z) :
  y_test_fits df y_test ->
  generate_rul df y_test normalize threshold
  = Ok (map (fun r => finish_row normalize threshold (label_row df y_test r)) df).
Proof.
  intros Hfit. unfold generate_rul.
  assert (Hs : exists s, add_y_test (RUL_max_of df) y_test = Ok s /\
                 forall r, In r df ->
                   lookup (unit_nr r) s
                   = Some (observed_max df (unit_nr r)
                           + remaining_life df y_test (unit_nr r))%Z).
  { rewrite RUL_max_of_eq. destruct y_test as [ys|]; simpl in *.
    - rewrite length_map, Hfit, Nat.eqb_refl.
      eexists; split; [reflexivity|]. intros r Hr.
      apply lookup_series_sum; [assumption|].
      apply unique_In, in_map, Hr.
    - eexists; split; [reflexivity|]. intros r Hr.
      rewrite (lookup_series (observed_max df)) by (apply unique_In, in_map, Hr).
      f_equal. lia. }
  destruct Hs as (s & -> & Hlook). simpl.
  rewrite (merge_rul_map df s
             (fun e => (observed_max df e + remaining_life df y_test e)%Z) Hlook).
  unfold finish_row, label_row.
  destruct (threshold >? 0)%Z, normalize; rewrite ?map_map; reflexivity.
Qed.




Lemma fold_max_ge (l : list Z) (a : Z) : (a <= fold_left Z.max l a)%Z.
Proof.
  revert a; induction l as [|x l IH]; intros a; simpl; [lia|].
  specialize (IH (Z.max a x)). lia.
Qed.

Lemma fold_max_In (l : list Z) (a x : Z) : In x l -> (x <= fold_left Z.max l a)%Z.
Proof.
  revert a; induction l as [|y l IH]; intros a; simpl; [tauto|].
  intros [->|Hin]; [|apply IH, Hin].
  pose proof (fold_max_ge l (Z.max a x)). lia.
Qed.

Lemma Zmax_list_ge (l : list Z) (x : Z) : In x l -> (x <= Zmax_list l)%Z.
Proof.
  destruct l as [|y l]; simpl; [tauto|].
  intros [->|Hin]; [apply fold_max_ge | apply fold_max_In, Hin].
Qed.

Lemma observed_max_ge (df : list RawRecord) (r : RawRecord) :
  In r df -> (time_cycles r <= observed_max df (unit_nr r))%Z.
Proof.
  intros Hr. unfold observed_max. apply Zmax_list_ge.
  apply in_map, filter_In. split; [assumption | apply Z.eqb_refl].
Qed.


Lemma Qgtb_inject_Z (a c : Z) : Qgtb (inject_Z a) (inject_Z c) = (a >? c)%Z.
Proof.
  unfold Qgtb, Qle_bool. simpl. rewrite !Z.mul_1_r.
  destruct (Z.leb_spec a c), (Z.gtb_spec a c); simpl; auto; lia.
Qed.




(** ** The windowing engine *)

Lemma values_length (sensors : list string) (engine : list LabeledRecord) :
  length (values sensors engine) = length engine.
Proof. apply length_map. Qed.

Lemma window_count_bound (L W s j : nat) :
  s <> 0 -> j < (L - W) / s -> j + W < L.
Proof.
  intros Hs Hj.
  pose proof (Nat.Div0.mul_div_le (L - W) s) as Hq.
  assert (S j <= (L - W) / s) as Hle by lia.
  assert (S j <= s * ((L - W) / s)) by nia.
  lia.
Qed.

Lemma fill_windows_ok (data : list (list Q)) (engine : list LabeledRecord)
      (W : nat) (js : list nat) :
  (forall j, In j js -> j + W < length engine) ->
  fill_windows data engine W js
  = Ok (map (fun j => slice data j (j + W)) js,
        map (fun _ => unit_nr (raw (hd default_row engine))) js,
        map (fun j => rul (nth (j + W) engine default_row)) js).
Proof.
  induction js as [|j js IH]; intros Hjs; simpl; [reflexivity|].
  assert (Hj : j + W < length engine) by (apply Hjs; left; reflexivity).
  rewrite (getitem_ok engine 0 default_row) by lia.
  rewrite (getitem_ok engine (j + W) default_row) by lia.
  simpl. rewrite IH by (intros; apply Hjs; right; assumption).
  simpl. destruct engine; [simpl in Hj; lia | reflexivity].
Qed.

Lemma engine_windows_ok (W s : nat) (sensors : list string) (engine : list LabeledRecord) :
  s <> 0 ->
  engine_windows W s sensors engine = Ok (engine_block W s sensors engine).
Proof.
  intros Hs. unfold engine_windows, engine_block.
  destruct (Nat.eqb_spec s 0); [contradiction|].
  rewrite values_length. apply fill_windows_ok.
  intros j Hj. apply in_seq in Hj. apply (window_count_bound _ _ s); [assumption | lia].
Qed.

Lemma engine_windows_zero_step (W : nat) (sensors : list string)
      (engine : list LabeledRecord) :
  engine_windows W 0 sensors engine = Raise ZeroDivisionError.
Proof. reflexivity. Qed.

Lemma setitem_fill {A : Type} (l : list A) (i : nat) (v : A) :
  i < length l ->
  exists l', setitem l i v = Ok l' /\ length l' = length l /\
             firstn (S i) l' = firstn i l ++ [v].
Proof.
  intros Hi. rewrite setitem_ok by assumption.
  eexists; split; [reflexivity|]. split.
  - rewrite length_app, length_firstn. cbn [length]. rewrite length_skipn. lia.
  - rewrite firstn_app, length_firstn.
    replace (S i - Nat.min i (length l)) with 1 by lia.
    rewrite firstn_firstn. replace (Nat.min (S i) i) with i by lia. reflexivity.
Qed.

Lemma window_loop_ok (W s : nat) (sensors : list string) :
  s <> 0 ->
  forall (gs : list (Z * list LabeledRecord)) (st : window_state),
    ws_i st + length gs <= length (ws_result st) ->
    length (ws_engine_ids st) = length (ws_result st) ->
    length (ws_labels st) = length (ws_result st) ->
    exists st',
      window_loop W s sensors gs st = (dropped_warnings W gs, Ok st') /\
      firstn (ws_i st') (ws_result st')
      = firstn (ws_i st) (ws_result st)
        ++ map (fun g => Filled (fst (fst (engine_block W s sensors (snd g))))) (kept W gs) /\
      firstn (ws_i st') (ws_engine_ids st')
      = firstn (ws_i st) (ws_engine_ids st)
        ++ map (fun g => Filled (snd (fst (engine_block W s sensors (snd g))))) (kept W gs) /\
      firstn (ws_i st') (ws_labels st')
      = firstn (ws_i st) (ws_labels st)
        ++ map (fun g => Filled (snd (engine_block W s sensors (snd g)))) (kept W gs).
Proof.
  intros Hs. induction gs as [|[id engine] gs IH]; intros st Hi He Hl.
  - exists st. cbn. rewrite !app_nil_r. auto.
  - cbn [length] in Hi.
    cbn [window_loop]. unfold dropped_warnings, kept. cbn [filter map fst snd].
    rewrite values_length.
    destruct (Nat.ltb_spec (length engine) W) as [Hshort|Hlong]; cbn [negb map fst snd].
    + destruct (IH st) as (st' & Hrun & H1 & H2 & H3); [lia | assumption..|].
      rewrite Hrun. exists st'. auto.
    + rewrite (engine_windows_ok W s sensors engine Hs).
      destruct (engine_block W s sensors engine) as [[bs be] bl] eqn:Hblock.
      cbn [bind fst snd].
      destruct (setitem_fill (ws_result st) (ws_i st) (Filled bs))
        as (r1 & -> & Hr1 & Hf1); [lia|].
      destruct (setitem_fill (ws_engine_ids st) (ws_i st) (Filled be))
        as (r2 & -> & Hr2 & Hf2); [lia|].
      destruct (setitem_fill (ws_labels st) (ws_i st) (Filled bl))
        as (r3 & -> & Hr3 & Hf3); [lia|].
      cbn [bind].
      destruct (IH (mkWindowState r1 r2 r3 (S (ws_i st))))
        as (st' & Hrun & H1 & H2 & H3);
        cbn [ws_i ws_result ws_engine_ids ws_labels] in *; try lia.
      rewrite Hrun. exists st'. split; [reflexivity|].
      rewrite H1, H2, H3, Hf1, Hf2, Hf3, <- !app_assoc. auto.
Qed.

(** The call, for a non-zero step: the warnings of the dropped engines and
    the three concatenations over the kept engines, in engine order. *)
Lemma generate_window_sample_eq (df : list LabeledRecord) (W s : nat)
      (sensors : list string) :
  s <> 0 ->
  generate_window_sample df W s sensors
  = (dropped_warnings W (trajectories df),
     (data <- np_concatenate 2
                (map (fun g => Filled (fst (fst (engine_block W s sensors (snd g)))))
                     (kept W (trajectories df))) ;;
      ids <- np_concatenate 0
               (map (fun g => Filled (snd (fst (engine_block W s sensors (snd g)))))
                    (kept W (trajectories df))) ;;
      labels <- np_concatenate 0
                  (map (fun g => Filled (snd (engine_block W s sensors (snd g))))
                       (kept W (trajectories df))) ;;
      Ok (data, ids, labels))%result).
Proof.
  intros Hs. unfold generate_window_sample. fold (trajectories df).
  destruct (window_loop_ok W s sensors Hs (trajectories df)
              (mkWindowState (repeat Placeholder (length (trajectories df)))
                             (repeat Placeholder (length (trajectories df)))
                             (repeat Placeholder (length (trajectories df))) 0))
    as (st' & Hrun & H1 & H2 & H3); simpl; rewrite ?repeat_length; try lia.
  rewrite Hrun. simpl in *. rewrite H1, H2, H3. reflexivity.
Qed.

Lemma np_concatenate_ok_inv {A : Type} (d : nat) (arrays : list (slot (list A)))
      (x : list A) :
  np_concatenate d arrays = Ok x -> x = concat (map slot_items arrays).
Proof.
  unfold np_concatenate. destruct arrays as [|a rest]; [discriminate|].
  destruct (ndim d a =? 0); [discriminate|].
  destruct (forallb _ rest); [|discriminate].
  intros Heq. inversion Heq. reflexivity.
Qed.

Lemma engine_block_lengths (W s : nat) (sensors : list string)
      (engine : list LabeledRecord) :
  length (fst (fst (engine_block W s sensors engine))) = (length engine - W) / s /\
  length (snd (fst (engine_block W s sensors engine))) = (length engine - W) / s /\
  length (snd (engine_block W s sensors engine)) = (length engine - W) / s.
Proof.
  unfold engine_block. cbn [fst snd]. rewrite !length_map, length_seq. auto.
Qed.

Lemma blocks_lengths (W s : nat) (sensors : list string)
      (gs : list (Z * list LabeledRecord)) :
  length (concat (map (fun g => fst (fst (engine_block W s sensors (snd g)))) gs))
  = length (concat (map (fun g => snd (fst (engine_block W s sensors (snd g)))) gs)) /\
  length (concat (map (fun g => fst (fst (engine_block W s sensors (snd g)))) gs))
  = length (concat (map (fun g => snd (engine_block W s sensors (snd g))) gs)).
Proof.
  induction gs as [|g gs [IH1 IH2]]; cbn [map concat]; [auto|].
  rewrite !length_app.
  destruct (engine_block_lengths W s sensors (snd g)) as (-> & -> & ->).
  lia.
Qed.

Lemma blocks_total (W s : nat) (sensors : list string)
      (gs : list (Z * list LabeledRecord)) :
  s <> 0 ->
  Z.of_nat (length (concat (map (fun g => fst (fst (engine_block W s sensors (snd g))))
                                (kept W gs))))
  = window_total W s gs.
Proof.
  intros Hs. unfold window_total, kept.
  induction gs as [|g gs IH]; cbn [filter map concat fold_right]; [reflexivity|].
  destruct (Nat.ltb_spec (length (snd g)) W) as [Hshort|Hlong]; cbn [negb map concat].
  - rewrite IH.
    assert ((Z.of_nat (length (snd g)) - Z.of_nat W) / Z.of_nat s < 0)%Z
      by (apply Z.div_lt_upper_bound; lia).
    lia.
  - rewrite length_app, Nat2Z.inj_add, IH.
    destruct (engine_block_lengths W s sensors (snd g)) as (-> & _).
    rewrite Nat2Z.inj_div, Nat2Z.inj_sub by assumption.
    assert (0 <= (Z.of_nat (length (snd g)) - Z.of_nat W) / Z.of_nat s)%Z
      by (apply Z.div_pos; lia).
    lia.
Qed.

Lemma map_slot_items_Filled {A B : Type} (f : B -> list A) (l : list B) :
  map slot_items (map (fun g => Filled (f g)) l) = map f l.
Proof. rewrite map_map. reflexivity. Qed.

(** What a returning call returns: the concatenation, in engine order, of
    the blocks of the kept engines. *)
Lemma generate_window_sample_ok_inv (df : list LabeledRecord) (W s : nat)
      (sensors : list string) (ws : list warning)
      (data : list window) (ids : list Z) (labels : list Q) :
  s <> 0 ->
  generate_window_sample df W s sensors = (ws, Ok (data, ids, labels)) ->
  ws = dropped_warnings W (trajectories df) /\
  data = concat (map (fun g => fst (fst (engine_block W s sensors (snd g))))
                     (kept W (trajectories df))) /\
  ids = concat (map (fun g => snd (fst (engine_block W s sensors (snd g))))
                    (kept W (trajectories df))) /\
  labels = concat (map (fun g => snd (engine_block W s sensors (snd g)))
                       (kept W (trajectories df))).
Proof.
  intros Hs Hrun. rewrite (generate_window_sample_eq df W s sensors Hs) in Hrun.
  inversion Hrun as [[Hws Hres]]. split; [reflexivity|].
  apply bind_ok_inv in Hres. destruct Hres as (d & Hd & Hres).
  apply bind_ok_inv in Hres. destruct Hres as (i & Hi & Hres).
  apply bind_ok_inv in Hres. destruct Hres as (l & Hl & Hres).
  inversion Hres; subst.
  apply np_concatenate_ok_inv in Hd, Hi, Hl.
  rewrite map_slot_items_Filled in Hd.
  rewrite map_slot_items_Filled in Hi.
  rewrite map_slot_items_Filled in Hl. auto.
Qed.

(** Whenever the call returns, the three arrays have one leading length:
    the sum over the engine trajectories of [max(0, floor((L - W) / s))]. *)
Lemma generate_window_sample_total (df : list LabeledRecord) (W s : nat)
      (sensors : list string) (ws : list warning)
      (data : list window) (ids : list Z) (labels : list Q) :
  s <> 0 ->
  generate_window_sample df W s sensors = (ws, Ok (data, ids, labels)) ->
  length ids = length data /\ length labels = length data /\
  Z.of_nat (length data) = window_total W s (trajectories df).
Proof.
  intros Hs Hrun.
  destruct (generate_window_sample_ok_inv df W s sensors ws data ids labels Hs Hrun)
    as (_ & -> & -> & ->).
  destruct (blocks_lengths W s sensors (kept W (trajectories df))) as [H1 H2].
  rewrite <- H1, <- H2. repeat split. apply blocks_total, Hs.
Qed.

Lemma trajectory_rows (df : list LabeledRecord) (id : Z) (engine : list LabeledRecord) :
  In (id, engine) (trajectories df) ->
  engine <> [] /\ Forall (fun r => unit_nr (raw r) = id) engine.
Proof.
  intros Hin. apply groupby_In in Hin. destruct Hin as (Hid & ->). split.
  - apply in_map_iff in Hid. destruct Hid as (r & Hr & Hin).
    intros Hnil.
    assert (Hf : In r (filter (fun r0 => (unit_nr (raw r0) =? id)%Z) df))
      by (apply filter_In; split; [assumption | apply Z.eqb_eq, Hr]).
    rewrite Hnil in Hf. exact Hf.
  - apply Forall_forall. intros r Hr. apply filter_In in Hr.
    apply Z.eqb_eq, Hr.
Qed.

Lemma map_const_repeat {A B : Type} (c : B) (l : list A) :
  map (fun _ => c) l = repeat c (length l).
Proof. induction l; simpl; congruence. Qed.

Lemma nth_error_map_seq {A : Type} (f : nat -> A) (n j : nat) :
  j < n -> nth_error (map f (seq 0 n)) j = Some (f j).
Proof.
  intros Hj. rewrite nth_error_map, nth_error_seq.
  destruct (Nat.ltb_spec j n); [reflexivity | lia].
Qed.


Lemma np_concatenate_flat {A B : Type} (f : B -> list A) (l : list B) :
  l <> [] ->
  np_concatenate 0 (map (fun g => Filled (f g)) l) = Ok (concat (map f l)).
Proof.
  intros Hne. unfold np_concatenate.
  destruct l as [|g l]; [contradiction|]. cbn [map].
  assert (Hdim : forall g', ndim 0 (Filled (f g')) = 1)
    by (intros g'; cbn [ndim]; destruct (f g'); reflexivity).
  rewrite Hdim. cbn [Nat.eqb].
  replace (forallb (fun a' => ndim 0 a' =? 1) (map (fun g0 => Filled (f g0)) l)) with true.
  - change (Filled (f g) :: map (fun g0 => Filled (f g0)) l)
      with (map (fun g0 => Filled (f g0)) (g :: l)).
    rewrite map_slot_items_Filled. reflexivity.
  - symmetry. apply forallb_forall. intros a' Ha'. apply in_map_iff in Ha'.
    destruct Ha' as (g' & <- & _). rewrite Hdim. reflexivity.
Qed.




(** The start of the j-th window of an engine is offset j, whatever the
    slide step: the step only divides the number of windows. *)
Lemma engine_block_window_offsets (W s : nat) (sensors : list string)
      (engine : list LabeledRecord) (j : nat) :
  s <> 0 ->
  j < (length engine - W) / s ->
  nth_error (fst (fst (engine_block W s sensors engine))) j
  = Some (values sensors (slice engine j (j + W))).
Proof.
  intros Hs Hj. unfold engine_block. cbn [fst].
  rewrite nth_error_map_seq by assumption. f_equal.
  unfold values, slice. rewrite skipn_map, firstn_map. reflexivity.
Qed.

(** C1, at one engine of six rows with window size 2 and slide step 2.  The
    call returns two windows; the window of index 1 holds the rows at
    offsets [1, 3), not the rows at offsets [2, 4) = [j*s, j*s + W). *)
Theorem generate_window_sample_slide_step_two :
  exists data ids labels,
    generate_window_sample example_engine 2 2 example_sensors
    = ([], Ok (data, ids, labels)) /\
    length data = 2 /\
    nth_error data 1 = Some (values example_sensors (slice example_engine 1 3)) /\
    nth_error data 1 <> Some (values example_sensors (slice example_engine 2 4)).
Proof.
  do 3 eexists. split; [vm_compute; reflexivity|].
  split; [reflexivity|]. split; [reflexivity|].
  vm_compute. intros Heq. discriminate Heq.
Qed.

(** C2, at engine 1 of two rows and engine 2 of four rows with window size
    2 and slide step 1.  Engine 1 passes the length guard with no window,
    its empty list enters the concatenation beside the two windows of
    engine 2, and the call raises instead of returning the 0 + 2 windows
    that the frame of engine 2 alone yields. *)
Theorem generate_window_sample_zero_window_engine :
  window_total 2 1 (trajectories example_two_engines) = 2%Z /\
  engine_windows 2 1 example_sensors (engine_rows example_two_engines 1)
  = Ok ([], [], []) /\
  generate_window_sample example_two_engines 2 1 example_sensors
  = ([], Raise ValueError) /\
  exists data ids labels,
    generate_window_sample (engine_rows example_two_engines 2) 2 1 example_sensors
    = ([], Ok (data, ids, labels)) /\
    length data = 2.
Proof.
  split; [reflexivity|]. split; [reflexivity|].
  split; [vm_compute; reflexivity|].
  do 3 eexists. split; [vm_compute; reflexivity | reflexivity].
Qed.

(** When every engine is shorter than the window, every engine is dropped
    with its warning and the concatenation of nothing raises. *)
Lemma generate_window_sample_all_dropped :
  generate_window_sample example_two_engines 5 1 example_sensors
  = ([mkWarning 1 2 5; mkWarning 2 4 5], Raise ValueError).
Proof. vm_compute. reflexivity. Qed.


(** ** The train/validation splitter *)

Lemma range_from_1_In (n : nat) (i : Z) :
  In i (range_from_1 n) <-> (1 <= i <= Z.of_nat n)%Z.
Proof.
  unfold range_from_1. rewrite in_map_iff. split.
  - intros (k & <- & Hk). apply in_seq in Hk. lia.
  - intros Hi. exists (Z.to_nat i). split; [lia | apply in_seq; lia].
Qed.

Lemma NoDup_map_of_nat (l : list nat) : NoDup l -> NoDup (map Z.of_nat l).
Proof.
  induction 1 as [|x l Hx Hl IH]; simpl; constructor; auto.
  rewrite in_map_iff. intros (y & Hy & Hin).
  apply Nat2Z.inj in Hy. subst. contradiction.
Qed.

Lemma range_from_1_NoDup (n : nat) : NoDup (range_from_1 n).
Proof. apply NoDup_map_of_nat, seq_NoDup. Qed.


Lemma Z_mem_In (x : Z) (l : list Z) : Z_mem x l = true <-> In x l.
Proof.
  unfold Z_mem. rewrite existsb_exists. split.
  - intros (y & Hy & Heq). apply Z.eqb_eq in Heq. subst. assumption.
  - intros Hin. exists x. split; [assumption | apply Z.eqb_refl].
Qed.



Lemma split_loop_eq (df : list LabeledRecord) (val_index rng : list Z) :
  split_loop df val_index rng
  = (map (engine_rows df) (filter (fun i => negb (Z_mem i val_index)) rng),
     map (engine_rows df) (filter (fun i => Z_mem i val_index) rng)).
Proof.
  induction rng as [|i rng IH]; cbn [split_loop filter map]; [reflexivity|].
  rewrite IH. destruct (Z_mem i val_index); reflexivity.
Qed.




Lemma partition_concat {A B : Type} (f : B -> list A) (p : B -> bool) (l : list B) :
  Permutation (concat (map f (filter (fun i => negb (p i)) l))
               ++ concat (map f (filter p l)))
              (concat (map f l)).
Proof.
  induction l as [|a l IH]; cbn [filter map concat]; [constructor|].
  destruct (p a); cbn [negb map concat].
  - eapply Permutation_trans; [apply Permutation_app_swap_app|].
    apply Permutation_app_head, IH.
  - rewrite <- app_assoc. apply Permutation_app_head, IH.
Qed.

Lemma engine_rows_cons_other (r : LabeledRecord) (df : list LabeledRecord) (i : Z) :
  i <> unit_nr (raw r) -> engine_rows (r :: df) i = engine_rows df i.
Proof.
  intros Hne. unfold engine_rows. cbn [filter].
  destruct (Z.eqb_spec (unit_nr (raw r)) i); [congruence | reflexivity].
Qed.

Lemma engine_rows_cons_same (r : LabeledRecord) (df : list LabeledRecord) :
  engine_rows (r :: df) (unit_nr (raw r)) = r :: engine_rows df (unit_nr (raw r)).
Proof. unfold engine_rows. cbn [filter]. rewrite Z.eqb_refl. reflexivity. Qed.

(** Gathering the rows engine by engine rearranges the frame. *)
Lemma concat_engine_rows (rng : list Z) (df : list LabeledRecord) :
  NoDup rng ->
  (forall r, In r df -> In (unit_nr (raw r)) rng) ->
  Permutation (concat (map (engine_rows df) rng)) df.
Proof.
  intros Hnd. induction df as [|r df IH]; intros Hin.
  - replace (concat (map (engine_rows []) rng)) with (@nil LabeledRecord);
      [constructor|].
    clear. induction rng as [|i rng IHr]; cbn; auto.
  - destruct (in_split _ _ (Hin r (or_introl eq_refl))) as (l1 & l2 & Heq).
    rewrite Heq in Hnd. pose proof (NoDup_remove_2 _ _ _ Hnd) as Hnot.
    assert (IH' : Permutation (concat (map (engine_rows df) rng)) df)
      by (apply IH; intros x Hx; apply Hin; right; exact Hx).
    rewrite Heq in IH' |- *.
    rewrite map_app, concat_app in IH' |- *. cbn [map concat] in IH' |- *.
    rewrite engine_rows_cons_same.
    rewrite (map_ext_in (engine_rows (r :: df)) (engine_rows df) l1).
    2:{ intros i Hi. apply engine_rows_cons_other. intros ->.
        apply Hnot, in_or_app. left; exact Hi. }
    rewrite (map_ext_in (engine_rows (r :: df)) (engine_rows df) l2).
    2:{ intros i Hi. apply engine_rows_cons_other. intros ->.
        apply Hnot, in_or_app. right; exact Hi. }
    cbn [app]. rewrite <- Permutation_middle. constructor. exact IH'.
Qed.

Lemma In_concat_engine_rows (df : list LabeledRecord) (l : list Z) (r : LabeledRecord) :
  In r (concat (map (engine_rows df) l)) <-> In r df /\ In (unit_nr (raw r)) l.
Proof.
  rewrite in_concat. split.
  - intros (rows & Hrows & Hr). apply in_map_iff in Hrows.
    destruct Hrows as (i & <- & Hi). apply filter_In in Hr.
    destruct Hr as [Hr Heq]. apply Z.eqb_eq in Heq. subst. auto.
  - intros [Hr Hi]. exists (engine_rows df (unit_nr (raw r))). split.
    + apply in_map, Hi.
    + apply filter_In. split; [exact Hr | apply Z.eqb_refl].
Qed.












(** ** The label-distance sampler *)

Lemma argwhere_from_In (mask : list bool) (start p : nat) :
  In p (argwhere_from start mask) <->
  start <= p /\ nth_error mask (p - start) = Some true.
Proof.
  revert start. induction mask as [|b mask IH]; intros start; cbn [argwhere_from].
  - split; [intros [] | intros [_ H]]. destruct (p - start); discriminate.
  - assert (Hstep : In p (argwhere_from (S start) mask) <->
                    start < p /\ nth_error (b :: mask) (p - start) = Some true).
    { rewrite IH. split.
      - intros [Hle Hn]. split; [lia|].
        replace (p - start) with (S (p - S start)) by lia. exact Hn.
      - intros [Hlt Hn]. split; [lia|].
        replace (p - start) with (S (p - S start)) in Hn by lia. exact Hn. }
    destruct b; cbn [In]; rewrite Hstep.
    + split.
      * intros [<- | [Hlt Hn]]; [rewrite Nat.sub_diag; auto | split; [lia | exact Hn]].
      * intros [Hle Hn]. destruct (Nat.eq_dec start p) as [Heq|Hne]; [left; exact Heq|].
        right. split; [lia | exact Hn].
    + split.
      * intros [Hlt Hn]. split; [lia | exact Hn].
      * intros [Hle Hn]. split; [|exact Hn].
        destruct (Nat.eq_dec start p) as [<-|Hne]; [|lia].
        rewrite Nat.sub_diag in Hn. discriminate.
Qed.

Lemma argwhere_In (mask : list bool) (p : nat) :
  In p (argwhere mask) <-> nth_error mask p = Some true.
Proof.
  unfold argwhere. rewrite argwhere_from_In, Nat.sub_0_r.
  split; [tauto | split; [lia | assumption]].
Qed.

Lemma argwhere_lt (mask : list bool) (p : nat) :
  In p (argwhere mask) -> p < length mask.
Proof.
  intros Hp. apply argwhere_In in Hp. apply nth_error_Some. congruence.
Qed.

Lemma mapM_getitem_ok {A : Type} (l : list A) (d : A) (ps : list nat) :
  Forall (fun p => p < length l) ps ->
  mapM (getitem l) ps = Ok (map (fun p => nth p l d) ps).
Proof.
  induction 1 as [|p ps Hp Hps IH]; cbn [mapM map]; [reflexivity|].
  rewrite (getitem_ok l p d Hp), IH. reflexivity.
Qed.

Module RandomNegativeFacts.
Import CmapssRandomNegtiveSampler.

Section Sampler.
Context {X : Type}.
Variable self : t X.
Variable index : nat.
Hypothesis bound : length (data self) = length (labels self).
Hypothesis index_in_range : index < length (labels self).

Lemma candidates_ok :
  candidates self index = Ok (argwhere (map (far (thresh self) (anchor_label self index)) (labels self))).
Proof.
  unfold candidates. rewrite (getitem_ok _ index 0%float index_in_range). reflexivity.
Qed.

Lemma candidate_far (p : nat) :
  In p (argwhere (map (far (thresh self) (anchor_label self index)) (labels self))) ->
  p < length (labels self) /\
  far (thresh self) (anchor_label self index) (nth p (labels self) 0%float) = true.
Proof.
  intros Hp. pose proof (argwhere_lt _ _ Hp) as Hlt. rewrite length_map in Hlt.
  split; [exact Hlt|]. apply argwhere_In in Hp.
  rewrite nth_error_map, (nth_error_nth' _ 0%float Hlt) in Hp.
  cbn [option_map] in Hp. injection Hp as Hp. exact Hp.
Qed.

(** With no candidate, or with two or more candidates but fewer than
    [neg_num + 1], the call raises. *)
Lemma sample_too_few (draw : list nat) :
  length (argwhere (map (far (thresh self) (anchor_label self index)) (labels self))) <> 1 ->
  length (argwhere (map (far (thresh self) (anchor_label self index)) (labels self))) < neg_num self + 1 ->
  sample self index draw = Raise ValueError.
Proof.
  intros Hone Hfew. unfold sample. rewrite candidates_ok. cbn [bind].
  destruct (argwhere (map (far (thresh self) (anchor_label self index)) (labels self)))
    as [|c [|c' cands]] eqn:Hc; cbn [population bind].
  - reflexivity.
  - cbn in Hone. congruence.
  - destruct (Nat.ltb_spec (length (c :: c' :: cands)) (neg_num self + 1)); [reflexivity | lia].
Qed.

(** With two or more candidates, at least [neg_num + 1] of them, the call
    returns [neg_num + 1] entries: the anchor first, then negatives whose
    labels are all far from the anchor's. *)
Lemma sample_far (draw : list nat) (d : X) :
  2 <= length (argwhere (map (far (thresh self) (anchor_label self index)) (labels self))) ->
  neg_num self + 1 <= length (argwhere (map (far (thresh self) (anchor_label self index)) (labels self))) ->
  choice_without_replacement
    (argwhere (map (far (thresh self) (anchor_label self index)) (labels self))) (neg_num self + 1) draw ->
  exists samples labels_,
    sample self index draw = Ok (samples, labels_) /\
    length samples = neg_num self + 1 /\
    length labels_ = neg_num self + 1 /\
    nth_error samples 0 = nth_error (data self) index /\
    nth_error labels_ 0 = nth_error (labels self) index /\
    (forall p l, 1 <= p -> nth_error labels_ p = Some l ->
                 far (thresh self) (anchor_label self index) l = true).
Proof.
  intros Htwo Hmany (Hlen & Hnd & Hincl). unfold sample.
  rewrite candidates_ok. cbn [bind].
  destruct (argwhere (map (far (thresh self) (anchor_label self index)) (labels self)))
    as [|c [|c' cands]] eqn:Hc; cbn [length] in Htwo; try lia.
  cbn [population bind].
  destruct (Nat.ltb_spec (length (c :: c' :: cands)) (neg_num self + 1)); [lia|].
  cbn [bind].
  destruct draw as [|p0 rest]; [cbn in Hlen; lia|].
  cbn [setitem bind].
  assert (Hrest : Forall (fun p => p < length (labels self) /\
                                   far (thresh self) (anchor_label self index)
                                       (nth p (labels self) 0%float) = true) rest).
  { apply Forall_forall. intros p Hp. apply candidate_far. rewrite Hc.
    apply Hincl. right. exact Hp. }
  rewrite (mapM_getitem_ok (data self) d (index :: rest)).
  2:{ constructor; [rewrite bound; exact index_in_range|].
      eapply Forall_impl; [|exact Hrest]. cbn. intros p [Hp _]. rewrite bound. exact Hp. }
  rewrite (mapM_getitem_ok (labels self) 0%float (index :: rest)).
  2:{ constructor; [exact index_in_range|].
      eapply Forall_impl; [|exact Hrest]. cbn. intros p [Hp _]. exact Hp. }
  cbn [bind]. do 2 eexists. split; [reflexivity|].
  cbn [length] in Hlen. rewrite !length_map. cbn [length map nth_error].
  split; [exact Hlen|]. split; [exact Hlen|].
  split; [symmetry; apply nth_error_nth'; rewrite bound; exact index_in_range|].
  split; [symmetry; apply nth_error_nth'; exact index_in_range|].
  intros [|p] l Hp Hl; [lia|]. cbn [nth_error] in Hl.
  rewrite nth_error_map in Hl.
  destruct (nth_error rest p) as [q|] eqn:Hq; [|discriminate].
  cbn [option_map] in Hl. injection Hl as <-.
  rewrite Forall_forall in Hrest. apply (Hrest q), (nth_error_In _ _ Hq).
Qed.

End Sampler.
End RandomNegativeFacts.

(** C7, at four labels 0, 0, 0, 10 with index 0, one negative and
    threshold 0.5.  Index 3 is the only candidate, fewer than
    [neg_num + 1 = 2]; squeezed to a 0-dimensional array it is read by the
    draw as the population size 3, so the call does not raise: it returns
    the anchor and a negative drawn from indices 0..2, whose label is the
    anchor's own. *)
Theorem random_sampler_single_candidate :
  CmapssRandomNegtiveSampler.candidates
    (CmapssRandomNegtiveSampler.init example_dataset 1 0.5%float) 0 = Ok [3] /\
  choice_without_replacement (seq 0 3) 2 [2; 1] /\
  CmapssRandomNegtiveSampler.sample
    (CmapssRandomNegtiveSampler.init example_dataset 1 0.5%float) 0 [2; 1]
  = Ok ([100; 101], [0; 0]%float) /\
  CmapssRandomNegtiveSampler.far 0.5%float 0%float 0%float = false.
Proof.
  split; [reflexivity|]. split.
  { split; [reflexivity|]. split.
    - repeat constructor; simpl; lia.
    - intros p Hp. simpl in *. lia. }
  split; reflexivity.
Qed.

(** ** The engine/interval-stratified sampler *)

Lemma setitem_inv {A : Type} (l l' : list A) (i : nat) (v : A) :
  setitem l i v = Ok l' ->
  i < length l /\ length l' = length l /\
  forall q, nth_error l' q = if (q =? i)%nat then Some v else nth_error l q.
Proof.
  intros Hset. destruct (Nat.lt_ge_cases i (length l)) as [Hi|Hi].
  - assert (Heq : l' = firstn i l ++ v :: skipn (S i) l)
      by (rewrite (setitem_ok l i v Hi) in Hset; congruence).
    subst l'. clear Hset.
    split; [exact Hi|]. split.
    + rewrite length_app, length_firstn. cbn [length]. rewrite length_skipn. lia.
    + intros q. destruct (Nat.eqb_spec q i) as [->|Hne].
      * rewrite nth_error_app2 by (rewrite length_firstn; lia).
        rewrite length_firstn. replace (i - Nat.min i (length l)) with 0 by lia.
        reflexivity.
      * destruct (Nat.lt_ge_cases q i) as [Hlt|Hge].
        -- rewrite nth_error_app1 by (rewrite length_firstn; lia).
           rewrite nth_error_firstn.
           destruct (Nat.ltb_spec q i); [reflexivity | lia].
        -- rewrite nth_error_app2 by (rewrite length_firstn; lia).
           rewrite length_firstn.
           replace (q - Nat.min i (length l)) with (S (q - S i)) by lia.
           cbn [nth_error]. rewrite nth_error_skipn. f_equal. lia.
  - rewrite (setitem_raise l i v Hi) in Hset. discriminate.
Qed.

Lemma argwhere_from_sorted (mask : list bool) (start : nat) :
  StronglySorted lt (argwhere_from start mask).
Proof.
  revert start. induction mask as [|b mask IH]; intros start; cbn [argwhere_from].
  - constructor.
  - destruct b; [|apply IH]. constructor; [apply IH|].
    apply Forall_forall. intros p Hp. apply argwhere_from_In in Hp. lia.
Qed.

Lemma sorted_nth_gap (l : list nat) (k : nat) :
  StronglySorted lt l -> k < length l -> nth 0 l 0 + k <= nth k l 0.
Proof.
  intros Hs. revert k. induction Hs as [|x l Hs IH Hall]; intros k Hk.
  - cbn in Hk. lia.
  - destruct k as [|k]; cbn [nth]; [lia|].
    cbn [length] in Hk. specialize (IH k ltac:(lia)).
    destruct l as [|y l]; [cbn in Hk; lia|].
    inversion Hall; subst. change (nth 0 (y :: l) 0) with y in IH. lia.
Qed.

Lemma sorted_In_bounds (l : list nat) (p : nat) :
  StronglySorted lt l -> In p l ->
  nth 0 l 0 <= p <= nth (length l - 1) l 0.
Proof.
  intros Hs. induction Hs as [|x l Hs IH Hall]; intros Hin; [destruct Hin|].
  replace (length (x :: l) - 1) with (length l) by (cbn [length]; lia).
  change (nth 0 (x :: l) 0) with x.
  destruct l as [|y l].
  - destruct Hin as [<-|[]]. cbn. lia.
  - change (nth (length (y :: l)) (x :: y :: l) 0) with (nth (length l) (y :: l) 0).
    replace (length (y :: l) - 1) with (length l) in IH by (cbn [length]; lia).
    change (nth 0 (y :: l) 0) with y in IH.
    rewrite Forall_forall in Hall.
    assert (Hlast : In (nth (length l) (y :: l) 0) (y :: l))
      by (apply nth_In; cbn [length]; lia).
    pose proof (Hall _ Hlast) as Hx.
    destruct Hin as [<-|Hin]; [lia|].
    specialize (IH Hin). pose proof (Hall _ Hin). lia.
Qed.

Lemma combine_seq_In {A : Type} (l : list A) (start e : nat) (x : A) :
  In (e, x) (combine (seq start (length l)) l) ->
  start <= e /\ nth_error l (e - start) = Some x.
Proof.
  revert start. induction l as [|a l IH]; intros start; cbn [length seq combine].
  - intros [].
  - intros [Heq|Hin].
    + inversion Heq; subst. rewrite Nat.sub_diag. auto.
    + apply IH in Hin. destruct Hin as [Hle Hn]. split; [lia|].
      replace (e - start) with (S (e - S start)) by lia. exact Hn.
Qed.

Lemma combine_seq_snd {A : Type} (l : list A) (start : nat) :
  map snd (combine (seq start (length l)) l) = l.
Proof.
  revert start. induction l as [|a l IH]; intros start; cbn; [reflexivity|].
  rewrite IH. reflexivity.
Qed.

Lemma np_stack_filled {X : Type} (xs : list X) :
  CmapssNegativeSampler.np_stack (map Filled xs) = Ok xs.
Proof.
  induction xs as [|x xs IH]; cbn; [reflexivity|]. rewrite IH. reflexivity.
Qed.

Lemma all_filled {A : Type} (l : list (slot A)) :
  (forall q, q < length l -> exists a, nth_error l q = Some (Filled a)) ->
  exists xs, l = map Filled xs.
Proof.
  induction l as [|s l IH]; intros Hall.
  - exists []. reflexivity.
  - destruct (Hall 0) as (a & Ha); [cbn; lia|]. cbn in Ha. inversion Ha; subst.
    destruct IH as (xs & ->).
    + intros q Hq. apply (Hall (S q)). cbn. lia.
    + exists (a :: xs). reflexivity.
Qed.

Module NegativeSamplerFacts.
Import CmapssNegativeSampler.

Section Sampler.
Context {X : Type}.
Variable self : t X.
Variable index : nat.
Variable picks : nat -> nat -> nat.

Hypothesis data_bound : length (data self) = length (ids self).
Hypothesis labels_bound : length (labels self) = length (ids self).
Hypothesis index_in_range : index < length (ids self).
Hypothesis intervals_pos : 1 <= interval_nums self.

Lemma engine_positions_In (engine : Z) (p : nat) :
  In p (engine_positions self engine) <-> nth_error (ids self) p = Some engine.
Proof.
  unfold engine_positions. rewrite argwhere_In, nth_error_map.
  destruct (nth_error (ids self) p) as [id|]; cbn [option_map].
  - destruct (Z.eqb_spec id engine) as [->|Hne]; split; intros H; try congruence.
  - split; discriminate.
Qed.

Lemma engine_positions_lt (engine : Z) (p : nat) :
  In p (engine_positions self engine) -> p < length (ids self).
Proof.
  intros Hp. apply engine_positions_In in Hp. apply nth_error_Some. congruence.
Qed.

Lemma engine_positions_nonempty (engine : Z) :
  In engine (ids self) -> 0 < length (engine_positions self engine).
Proof.
  intros Hin. apply In_nth_error in Hin. destruct Hin as (p & Hp).
  apply engine_positions_In in Hp.
  destruct (engine_positions self engine); [destruct Hp | cbn; lia].
Qed.

Lemma engine_positions_sorted (engine : Z) :
  StronglySorted lt (engine_positions self engine).
Proof. apply argwhere_from_sorted. Qed.

Lemma anchor_engine_In : In (anchor_engine self index) (ids self).
Proof. apply nth_In, index_in_range. Qed.

Lemma anchor_position : In index (engine_positions self (anchor_engine self index)).
Proof.
  apply engine_positions_In. apply nth_error_nth', index_in_range.
Qed.

Lemma segment_ok (engine : Z) (i : nat) :
  In engine (ids self) ->
  segment (engine_positions self engine) (segment_gap self engine) (interval_nums self) i
  = Ok (segment_bounds self engine i).
Proof.
  intros Hin. pose proof (engine_positions_nonempty engine Hin) as Hpos.
  unfold segment, segment_bounds.
  rewrite (getitem_ok _ 0 0 Hpos). cbn [bind].
  destruct (i =? interval_nums self - 1); cbn [negb bind]; [|reflexivity].
  rewrite (getitem_ok _ (length (engine_positions self engine) - 1) 0) by lia.
  reflexivity.
Qed.

Lemma segment_bounds_end (engine : Z) (i : nat) :
  In engine (ids self) -> i < interval_nums self ->
  snd (segment_bounds self engine i) <= length (ids self).
Proof.
  intros Hin Hi. pose proof (engine_positions_nonempty engine Hin) as Hpos.
  assert (Hlast : nth (length (engine_positions self engine) - 1)
                      (engine_positions self engine) 0 < length (ids self)).
  { apply (engine_positions_lt engine), nth_In. lia. }
  unfold segment_bounds. cbn [snd].
  destruct (Nat.eqb_spec i (interval_nums self - 1)) as [Heq|Hne]; [lia|].
  pose proof (sorted_nth_gap _ (length (engine_positions self engine) - 1)
                (engine_positions_sorted engine) ltac:(lia)) as Hgap.
  pose proof (Nat.Div0.mul_div_le (length (engine_positions self engine))
                                  (interval_nums self)) as Hdiv.
  fold (segment_gap self engine) in Hdiv.
  assert ((i + 1) * segment_gap self engine
          <= interval_nums self * segment_gap self engine)
    by (apply Nat.mul_le_mono_r; lia).
  lia.
Qed.

(** Among the first [k] segments of the anchor's engine, the one holding
    [index], if any. *)
Lemma anchor_early_segments (k : nat) :
  k <= interval_nums self - 1 ->
  length (filter (segment_skipped self index (anchor_engine self index)) (seq 0 k))
  = if index <? nth 0 (engine_positions self (anchor_engine self index)) 0
                + k * segment_gap self (anchor_engine self index)
    then 1 else 0.
Proof.
  pose proof (sorted_In_bounds _ index
                (engine_positions_sorted (anchor_engine self index)) anchor_position)
    as [Hfirst _].
  induction k as [|k IH]; intros Hk.
  - cbn [seq filter length]. rewrite Nat.mul_0_l, Nat.add_0_r.
    destruct (Nat.ltb_spec index
                (nth 0 (engine_positions self (anchor_engine self index)) 0));
      [lia | reflexivity].
  - rewrite seq_S, filter_app, length_app, IH by lia. cbn [Nat.add filter].
    unfold segment_skipped at 1, skipped, segment_bounds. cbn [fst snd].
    destruct (Nat.eqb_spec k (interval_nums self - 1)) as [Heq|_]; [lia|].
    rewrite Z.eqb_refl, Bool.andb_true_r.
    rewrite Nat.mul_succ_l.
    set (a := nth 0 (engine_positions self (anchor_engine self index)) 0
              + k * segment_gap self (anchor_engine self index)).
    replace (nth 0 (engine_positions self (anchor_engine self index)) 0
             + (k * segment_gap self (anchor_engine self index)
                + segment_gap self (anchor_engine self index)))
      with (a + segment_gap self (anchor_engine self index)) by (unfold a; lia).
    destruct (Nat.ltb_spec index a), (Nat.leb_spec a index),
      (Nat.ltb_spec index (a + segment_gap self (anchor_engine self index)));
      cbn [andb length]; lia.
Qed.

(** Exactly one segment of the anchor's engine is skipped. *)
Lemma anchor_skipped_once :
  length (filter (segment_skipped self index (anchor_engine self index))
                 (seq 0 (interval_nums self))) = 1.
Proof.
  pose proof (sorted_In_bounds _ index
                (engine_positions_sorted (anchor_engine self index)) anchor_position)
    as [Hfirst Hlast].
  replace (interval_nums self) with (S (interval_nums self - 1)) at 1 by lia.
  rewrite seq_S, filter_app, length_app, anchor_early_segments by lia.
  cbn [Nat.add filter].
  unfold segment_skipped at 1, skipped, segment_bounds. cbn [fst snd].
  rewrite Nat.eqb_refl, Z.eqb_refl, Bool.andb_true_r.
  set (a := nth 0 (engine_positions self (anchor_engine self index)) 0
            + (interval_nums self - 1) * segment_gap self (anchor_engine self index)).
  destruct (Nat.ltb_spec index a), (Nat.leb_spec a index),
    (Nat.ltb_spec index
       (nth (length (engine_positions self (anchor_engine self index)) - 1)
            (engine_positions self (anchor_engine self index)) 0 + 1));
    cbn [andb length]; lia.
Qed.

Lemma other_never_skipped (engine : Z) (i : nat) :
  engine <> anchor_engine self index -> segment_skipped self index engine i = false.
Proof.
  intros Hne. unfold segment_skipped, skipped.
  destruct (Z.eqb_spec engine (anchor_engine self index)); [contradiction|].
  apply Bool.andb_false_r.
Qed.

(** The number of segments of an engine that are drawn from. *)
Lemma drawn_segments (engine : Z) :
  length (filter (fun i => negb (segment_skipped self index engine i))
                 (seq 0 (interval_nums self)))
  = interval_nums self - (if (engine =? anchor_engine self index)%Z then 1 else 0).
Proof.
  pose proof (filter_length (segment_skipped self index engine)
                            (seq 0 (interval_nums self))) as Hsum.
  rewrite length_seq in Hsum.
  destruct (Z.eqb_spec engine (anchor_engine self index)) as [->|Hne].
  - rewrite anchor_skipped_once in Hsum. lia.
  - assert (Hnil : filter (segment_skipped self index engine)
                          (seq 0 (interval_nums self)) = []).
    { generalize (seq 0 (interval_nums self)). intros l.
      induction l as [|i l IH]; cbn [filter]; [reflexivity|].
      rewrite (other_never_skipped engine i Hne). exact IH. }
    rewrite Hnil in Hsum. cbn [length] in Hsum. lia.
Qed.


Lemma getitem_some {A : Type} (l : list A) (p : nat) :
  p < length l -> exists x, getitem l p = Ok x /\ nth_error l p = Some x.
Proof.
  intros Hp. unfold getitem. destruct (nth_error l p) as [x|] eqn:Hx.
  - exists x. auto.
  - apply nth_error_None in Hx. lia.
Qed.

Lemma segment_step_skip (e : nat) (engine : Z) (i : nat) (st : state X) :
  In engine (ids self) ->
  segment_skipped self index engine i = true ->
  segment_step self index (anchor_engine self index) picks e engine
               (engine_positions self engine) (segment_gap self engine) i st = Ok st.
Proof.
  intros Hin Hskip. unfold segment_step. rewrite (segment_ok engine i Hin). cbn [bind].
  change (skipped index engine (anchor_engine self index) (segment_bounds self engine i))
    with (segment_skipped self index engine i).
  rewrite Hskip. reflexivity.
Qed.

Lemma segment_step_fill (e : nat) (engine : Z) (i : nat) (st : state X) :
  In engine (ids self) ->
  i < interval_nums self ->
  segment_skipped self index engine i = false ->
  fst (segment_bounds self engine i) <= picks e i < snd (segment_bounds self engine i) ->
  slots_invariant self st ->
  j st < interval_nums self * engine_num self ->
  exists st',
    segment_step self index (anchor_engine self index) picks e engine
                 (engine_positions self engine) (segment_gap self engine) i st = Ok st' /\
    slots_invariant self st' /\ j st' = S (j st).
Proof.
  intros Hin Hi Hskip Hpick Hinv Hroom.
  unfold slots_invariant in Hinv. cbv zeta in Hinv.
  destruct Hinv as (Hs & Hl & Hd & Hj & Hfilled).
  pose proof (segment_bounds_end engine i Hin Hi) as Hend.
  unfold segment_step. rewrite (segment_ok engine i Hin). cbn [bind].
  change (skipped index engine (anchor_engine self index) (segment_bounds self engine i))
    with (segment_skipped self index engine i).
  rewrite Hskip.
  destruct (Nat.leb_spec (snd (segment_bounds self engine i))
                         (fst (segment_bounds self engine i))); [lia|].
  destruct (getitem_some (data self) (picks e i)) as (x & -> & Hx); [lia|].
  destruct (getitem_some (labels self) (picks e i)) as (l & -> & Hlab); [lia|].
  destruct (getitem_some (ids self) (picks e i)) as (id & -> & Hid); [lia|].
  cbn [bind].
  rewrite (setitem_ok (neg_samples st) (j st) (Filled x)) by lia.
  rewrite (setitem_ok (neg_labels st) (j st) (Filled l)) by lia.
  rewrite (setitem_ok (neg_ids st) (j st) (Filled id)) by lia.
  cbn [bind]. eexists. split; [reflexivity|]. split; [|reflexivity].
  assert (Hjs : j st < length (neg_samples st)) by lia.
  assert (Hjl : j st < length (neg_labels st)) by lia.
  assert (Hjd : j st < length (neg_ids st)) by lia.
  destruct (setitem_inv _ _ _ _ (setitem_ok (neg_samples st) (j st) (Filled x) Hjs))
    as (_ & Hs' & Hns).
  destruct (setitem_inv _ _ _ _ (setitem_ok (neg_labels st) (j st) (Filled l) Hjl))
    as (_ & Hl' & Hnl).
  destruct (setitem_inv _ _ _ _ (setitem_ok (neg_ids st) (j st) (Filled id) Hjd))
    as (_ & Hd' & _).
  unfold slots_invariant. cbn [neg_samples neg_labels neg_ids j].
  split; [lia|]. split; [lia|]. split; [lia|]. split; [lia|].
  intros q Hq. unfold holds_dataset_sample. rewrite Hns, Hnl.
  destruct (Nat.eqb_spec q (j st)) as [->|Hne].
  - exists (picks e i), x, l. auto.
  - apply Hfilled. lia.
Qed.

Lemma segments_loop (e : nat) (engine : Z) (segs : list nat) :
  In engine (ids self) ->
  (forall i, In i segs -> i < interval_nums self) ->
  (forall i, In i segs -> segment_skipped self index engine i = false ->
             fst (segment_bounds self engine i) <= picks e i
             < snd (segment_bounds self engine i)) ->
  forall st : state X,
    slots_invariant self st ->
    j st + length (filter (fun i => negb (segment_skipped self index engine i)) segs)
    <= interval_nums self * engine_num self ->
    exists st',
      foldM (segment_step self index (anchor_engine self index) picks e engine
                          (engine_positions self engine) (segment_gap self engine))
            segs st = Ok st' /\
      slots_invariant self st' /\
      j st' = j st + length (filter (fun i => negb (segment_skipped self index engine i))
                                    segs).
Proof.
  intros Hin. induction segs as [|i segs IH]; intros Hlt Hpicks st Hinv Hroom.
  - exists st. cbn. split; [reflexivity|]. split; [exact Hinv | lia].
  - cbn [foldM filter] in *.
    destruct (segment_skipped self index engine i) eqn:Hskip; cbn [negb length] in *.
    + rewrite (segment_step_skip e engine i st Hin Hskip). cbn [bind].
      apply (IH (fun x Hx => Hlt x (or_intror Hx))
                (fun x Hx => Hpicks x (or_intror Hx)) st Hinv Hroom).
    + assert (Hfree : j st < interval_nums self * engine_num self) by lia.
      destruct (segment_step_fill e engine i st Hin (Hlt i (or_introl eq_refl)) Hskip
                  (Hpicks i (or_introl eq_refl) Hskip) Hinv Hfree)
        as (st1 & -> & Hinv1 & Hj1).
      cbn [bind].
      destruct (IH (fun x Hx => Hlt x (or_intror Hx))
                   (fun x Hx => Hpicks x (or_intror Hx)) st1 Hinv1) as (st' & Hrun & Hinv' & Hj');
        [lia|].
      exists st'. split; [exact Hrun|]. split; [exact Hinv' | lia].
Qed.

Lemma engine_step_ok (e : nat) (engine : Z) (st : state X) :
  In engine (ids self) ->
  (forall i, i < interval_nums self -> segment_skipped self index engine i = false ->
             fst (segment_bounds self engine i) <= picks e i
             < snd (segment_bounds self engine i)) ->
  slots_invariant self st ->
  j st + (interval_nums self - (if (engine =? anchor_engine self index)%Z then 1 else 0))
  <= interval_nums self * engine_num self ->
  exists st',
    engine_step self index (anchor_engine self index) picks (e, engine) st = Ok st' /\
    slots_invariant self st' /\
    j st' = j st + (interval_nums self
                    - (if (engine =? anchor_engine self index)%Z then 1 else 0)).
Proof.
  intros Hin Hpicks Hinv Hroom. unfold engine_step.
  destruct (Nat.eqb_spec (interval_nums self) 0) as [H0|_]; [lia|].
  fold (engine_positions self engine). fold (segment_gap self engine).
  rewrite <- (drawn_segments engine) in Hroom |- *.
  apply segments_loop; auto.
  - intros i Hi. apply in_seq in Hi. lia.
  - intros i Hi. apply in_seq in Hi. apply Hpicks. lia.
Qed.


Lemma engines_loop (es : list (nat * Z)) :
  NoDup (map snd es) ->
  (forall e engine, In (e, engine) es ->
     In engine (ids self) /\
     forall i, i < interval_nums self -> segment_skipped self index engine i = false ->
               fst (segment_bounds self engine i) <= picks e i
               < snd (segment_bounds self engine i)) ->
  forall st : state X,
    slots_invariant self st ->
    j st + interval_nums self * length es
    - (if Z_mem (anchor_engine self index) (map snd es) then 1 else 0)
    <= interval_nums self * engine_num self ->
    exists st',
      foldM (engine_step self index (anchor_engine self index) picks) es st = Ok st' /\
      slots_invariant self st' /\
      j st' = j st + interval_nums self * length es
              - (if Z_mem (anchor_engine self index) (map snd es) then 1 else 0).
Proof.
  induction es as [|[e engine] es IH]; intros Hnd Hes st Hinv Hroom.
  - exists st. cbn. split; [reflexivity|]. split; [exact Hinv | lia].
  - cbn [map snd] in Hnd. inversion Hnd as [|? ? Hnotin Hnd']; subst.
    destruct (Hes e engine (or_introl eq_refl)) as [Hin Hpicks].
    assert (Hmem : Z_mem (anchor_engine self index) (map snd es) = true ->
                   1 <= length es).
    { intros Hm. apply Z_mem_In in Hm. destruct es; [destruct Hm | cbn; lia]. }
    assert (Hsame : engine = anchor_engine self index ->
                    Z_mem (anchor_engine self index) (map snd es) = false).
    { intros ->. destruct (Z_mem (anchor_engine self index) (map snd es)) eqn:Hm;
        [|reflexivity]. apply Z_mem_In in Hm. contradiction. }
    cbn [foldM map snd length] in *. unfold Z_mem in Hroom |- *.
    cbn [existsb] in Hroom |- *. fold (Z_mem (anchor_engine self index) (map snd es)) in *.
    rewrite Nat.mul_succ_r in Hroom |- *.
    rewrite (Z.eqb_sym (anchor_engine self index) engine) in Hroom |- *.
    assert (Hgap : interval_nums self <= interval_nums self * length es \/ length es = 0)
      by (destruct (length es); [right; reflexivity | left; nia]).
    destruct (engine_step_ok e engine st Hin Hpicks Hinv) as (st1 & -> & Hinv1 & Hj1).
    { destruct (Z.eqb_spec engine (anchor_engine self index)) as [Heq|Hne];
        cbn [orb] in Hroom.
      - lia.
      - destruct (Z_mem (anchor_engine self index) (map snd es)) eqn:Hm;
          [specialize (Hmem eq_refl)|]; lia. }
    cbn [bind].
    destruct (IH Hnd' (fun e' g Hg => Hes e' g (or_intror Hg)) st1 Hinv1)
      as (st' & Hrun & Hinv' & Hj').
    { rewrite Hj1.
      destruct (Z.eqb_spec engine (anchor_engine self index)) as [Heq|Hne];
        cbn [orb] in Hroom.
      - rewrite (Hsame Heq). lia.
      - destruct (Z_mem (anchor_engine self index) (map snd es)) eqn:Hm;
          [specialize (Hmem eq_refl)|]; lia. }
    exists st'. split; [exact Hrun|]. split; [exact Hinv'|].
    rewrite Hj', Hj1.
    destruct (Z.eqb_spec engine (anchor_engine self index)) as [Heq|Hne]; cbn [orb].
    + rewrite (Hsame Heq). lia.
    + destruct (Z_mem (anchor_engine self index) (map snd es)) eqn:Hm;
        [specialize (Hmem eq_refl)|]; lia.
Qed.

Lemma drawn_engines_props (drawn engine_ids : list Z) :
  1 <= engine_num self ->
  choice_without_replacement (unique (ids self)) (engine_num self) drawn ->
  drawn_engines (anchor_engine self index) drawn = Ok engine_ids ->
  length engine_ids = engine_num self /\
  NoDup engine_ids /\
  (forall g, In g engine_ids -> In g (ids self)) /\
  In (anchor_engine self index) engine_ids.
Proof.
  intros Hm (Hlen & Hnd & Hincl) Hforce. unfold drawn_engines in Hforce.
  destruct (Z_mem (anchor_engine self index) drawn) eqn:Hmem.
  - injection Hforce as <-. apply Z_mem_In in Hmem.
    repeat split; auto. intros g Hg. apply unique_In, Hincl, Hg.
  - destruct drawn as [|d0 rest]; [cbn in Hlen; lia|].
    cbn [setitem] in Hforce. injection Hforce as <-.
    assert (Hnot : ~ In (anchor_engine self index) (d0 :: rest)).
    { intros Hin. apply Z_mem_In in Hin. congruence. }
    inversion Hnd; subst.
    split; [exact Hlen|]. split.
    + constructor; [|assumption]. intros Hin. apply Hnot. right. exact Hin.
    + split; [|left; reflexivity].
      intros g [<-|Hg]; [apply anchor_engine_In|].
      apply unique_In, Hincl. right. exact Hg.
Qed.


Lemma nth_error_map_Filled {A : Type} (xs : list A) (q : nat) (a : A) :
  nth_error (map Filled xs) q = Some (Filled a) -> nth_error xs q = Some a.
Proof.
  rewrite nth_error_map. destruct (nth_error xs q); cbn; congruence.
Qed.

(** C8, amended.  On a bound dataset, with at least one engine to draw and
    at least one segment per engine, and for draws the generator can
    produce: the loop skips a segment of the anchor's engine (the one
    holding [index]) without advancing the write position, the remaining
    [interval_nums * engine_num - 1] draws fill the slots 1.. one after the
    other, and the call returns [interval_nums * engine_num] entries with no
    placeholder among them: position 0 holds the anchor's own sample and
    label, every other position a sample of the dataset and its label. *)
Theorem negative_sampler_fills_every_slot (drawn engine_ids : list Z) :
  1 <= engine_num self ->
  choice_without_replacement (unique (ids self)) (engine_num self) drawn ->
  drawn_engines (anchor_engine self index) drawn = Ok engine_ids ->
  valid_picks self index (anchor_engine self index) engine_ids picks ->
  exists samples labels_,
    sample_slots self index drawn picks = Ok (map Filled samples, map Filled labels_) /\
    sample self index drawn picks = Ok (samples, labels_) /\
    length samples = interval_nums self * engine_num self /\
    length labels_ = interval_nums self * engine_num self /\
    nth_error samples 0 = nth_error (data self) index /\
    nth_error labels_ 0 = nth_error (labels self) index /\
    (exists e i,
        nth_error engine_ids e = Some (anchor_engine self index) /\
        i < interval_nums self /\
        segment_skipped self index (anchor_engine self index) i = true) /\
    (forall q, 1 <= q < interval_nums self * engine_num self ->
               exists p, p < length (ids self) /\
                         nth_error samples q = nth_error (data self) p /\
                         nth_error labels_ q = nth_error (labels self) p).
Proof.
  intros Hm Hdraw Hforce Hpicks.
  destruct (drawn_engines_props drawn engine_ids Hm Hdraw Hforce)
    as (Hlen & Hnd & Hids & Hanchor).
  assert (Hsize : 1 <= interval_nums self * engine_num self) by nia.
  (* the loop over the drawn engines *)
  destruct (engines_loop (combine (seq 0 (length engine_ids)) engine_ids))
    with (st := mkState (repeat (@Placeholder X) (interval_nums self * engine_num self))
                        (repeat (@Placeholder float) (interval_nums self * engine_num self))
                        (repeat (@Placeholder Z) (interval_nums self * engine_num self)) 1)
    as (st & Hloop & Hinv & Hj).
  { rewrite combine_seq_snd. exact Hnd. }
  { intros e g Hg. apply combine_seq_In in Hg. destruct Hg as [_ Hg].
    rewrite Nat.sub_0_r in Hg.
    assert (Hin : In g (ids self)) by (apply Hids; eapply nth_error_In; exact Hg).
    split; [exact Hin|]. intros i Hi Hskip.
    apply (Hpicks e g i (segment_bounds self g i) Hg Hi).
    - apply (segment_ok g i Hin).
    - exact Hskip. }
  { unfold slots_invariant. cbn [neg_samples neg_labels neg_ids j].
    rewrite !repeat_length. repeat split; try reflexivity. intros q Hq. lia. }
  { cbn [j]. rewrite combine_seq_snd, length_combine, length_seq, Nat.min_id, Hlen.
    rewrite (proj2 (Z_mem_In _ _) Hanchor). lia. }
  rewrite combine_seq_snd, length_combine, length_seq, Nat.min_id, Hlen in Hj.
  rewrite (proj2 (Z_mem_In _ _) Hanchor) in Hj. cbn [j] in Hj.
  unfold slots_invariant in Hinv. cbv zeta in Hinv.
  destruct Hinv as (Hs & Hl & Hd & _ & Hfilled).
  (* the anchor goes to position 0 *)
  destruct (getitem_some (data self) index) as (x0 & Hx0 & Hnx0); [lia|].
  destruct (getitem_some (labels self) index) as (l0 & Hl0 & Hnl0); [lia|].
  assert (H0s : 0 < length (neg_samples st)) by lia.
  assert (H0l : 0 < length (neg_labels st)) by lia.
  assert (H0d : 0 < length (neg_ids st)) by lia.
  destruct (setitem_inv _ _ _ _ (setitem_ok (neg_samples st) 0 (Filled x0) H0s))
    as (_ & Hs' & Hns).
  destruct (setitem_inv _ _ _ _ (setitem_ok (neg_labels st) 0 (Filled l0) H0l))
    as (_ & Hl' & Hnl).
  destruct (all_filled (firstn 0 (neg_samples st) ++ Filled x0 :: skipn 1 (neg_samples st)))
    as (samples & Hsamples).
  { intros q Hq. rewrite Hns. destruct (Nat.eqb_spec q 0) as [->|Hne]; [eauto|].
    destruct (Hfilled q) as (p & x & l & _ & _ & Hq1 & _); [lia | eauto]. }
  destruct (all_filled (firstn 0 (neg_labels st) ++ Filled l0 :: skipn 1 (neg_labels st)))
    as (labels_ & Hlabels).
  { intros q Hq. rewrite Hnl. destruct (Nat.eqb_spec q 0) as [->|Hne]; [eauto|].
    destruct (Hfilled q) as (p & x & l & _ & _ & _ & Hq2); [lia | eauto]. }
  assert (Hslots : sample_slots self index drawn picks
                   = Ok (map Filled samples, map Filled labels_)).
  { unfold sample_slots.
    rewrite (getitem_ok (ids self) index 0%Z index_in_range).
    fold (anchor_engine self index). cbn [bind].
    destruct Hdraw as (Hdlen & Hdnd & Hdincl).
    pose proof (NoDup_incl_length Hdnd Hdincl) as Hle.
    destruct (Nat.ltb_spec (length (unique (ids self))) (engine_num self)); [lia|].
    cbn [bind]. rewrite Hforce. cbn [bind]. rewrite Hloop. cbn [bind].
    rewrite Hx0. cbn [bind]. rewrite (setitem_ok _ 0 (Filled x0) H0s). cbn [bind].
    rewrite Hl0. cbn [bind]. rewrite (setitem_ok _ 0 (Filled l0) H0l). cbn [bind].
    rewrite (setitem_ok _ 0 (Filled (anchor_engine self index)) H0d). cbn [bind].
    rewrite Hsamples, Hlabels. reflexivity. }
  assert (Hlens : length samples = interval_nums self * engine_num self).
  { rewrite <- (length_map Filled samples), <- Hsamples. lia. }
  assert (Hlenl : length labels_ = interval_nums self * engine_num self).
  { rewrite <- (length_map Filled labels_), <- Hlabels. lia. }
  exists samples, labels_.
  split; [exact Hslots|]. split.
  { unfold sample. rewrite Hslots. cbn [bind].
    destruct samples as [|x samples']; [cbn [length] in Hlens; lia|].
    rewrite np_stack_filled. cbn [map bind]. unfold np_array.
    rewrite map_map, map_id. reflexivity. }
  split; [exact Hlens|]. split; [exact Hlenl|].
  split.
  { rewrite Hnx0. apply nth_error_map_Filled. rewrite <- Hsamples, Hns. reflexivity. }
  split.
  { rewrite Hnl0. apply nth_error_map_Filled. rewrite <- Hlabels, Hnl. reflexivity. }
  split.
  { apply In_nth_error in Hanchor. destruct Hanchor as (e & He).
    pose proof anchor_skipped_once as Honce.
    destruct (filter (segment_skipped self index (anchor_engine self index))
                     (seq 0 (interval_nums self))) as [|i rest] eqn:Hf;
      [discriminate|].
    assert (Hi : In i (filter (segment_skipped self index (anchor_engine self index))
                              (seq 0 (interval_nums self))))
      by (rewrite Hf; left; reflexivity).
    apply filter_In in Hi. destruct Hi as [Hi Hskip]. apply in_seq in Hi.
    exists e, i. repeat split; [exact He | lia | exact Hskip]. }
  intros q Hq.
  destruct (Hfilled q) as (p & x & l & Hdp & Hlp & Hq1 & Hq2); [lia|].
  exists p. split.
  { assert (p < length (data self)) by (apply nth_error_Some; congruence). lia. }
  split.
  - rewrite Hdp. apply nth_error_map_Filled. rewrite <- Hsamples, Hns.
    destruct (Nat.eqb_spec q 0); [lia | exact Hq1].
  - rewrite Hlp. apply nth_error_map_Filled. rewrite <- Hlabels, Hnl.
    destruct (Nat.eqb_spec q 0); [lia | exact Hq2].
Qed.

End Sampler.
End NegativeSamplerFacts.

Lemma example_picks_valid :
  valid_picks example_sampler 0 (anchor_engine example_sampler 0) [2; 1]%Z example_picks.
Proof.
  intros e engine i bounds He Hi Hseg Hskip.
  destruct e as [|[|e]]; cbn in He; try (destruct e; discriminate);
    injection He as <-;
    (destruct i as [|[|i]]; [| |cbn in Hi; lia]);
    vm_compute in Hseg; injection Hseg as <-;
    try (vm_compute in Hskip; discriminate);
    cbn; lia.
Qed.

Lemma negative_sampler_fills_every_slot_witness :
  length (CmapssNegativeSampler.data example_sampler)
  = length (CmapssNegativeSampler.ids example_sampler) /\
  length (CmapssNegativeSampler.labels example_sampler)
  = length (CmapssNegativeSampler.ids example_sampler) /\
  0 < length (CmapssNegativeSampler.ids example_sampler) /\
  1 <= CmapssNegativeSampler.interval_nums example_sampler /\
  1 <= CmapssNegativeSampler.engine_num example_sampler /\
  choice_without_replacement (unique (CmapssNegativeSampler.ids example_sampler))
    (CmapssNegativeSampler.engine_num example_sampler) [2; 1]%Z /\
  CmapssNegativeSampler.drawn_engines (anchor_engine example_sampler 0) [2; 1]%Z
  = Ok [2; 1]%Z /\
  valid_picks example_sampler 0 (anchor_engine example_sampler 0) [2; 1]%Z example_picks /\
  exists samples labels_,
    CmapssNegativeSampler.sample_slots example_sampler 0 [2; 1]%Z example_picks
    = Ok (map Filled samples, map Filled labels_) /\
    CmapssNegativeSampler.sample example_sampler 0 [2; 1]%Z example_picks
    = Ok (samples, labels_) /\
    length samples = CmapssNegativeSampler.interval_nums example_sampler
                     * CmapssNegativeSampler.engine_num example_sampler /\
    length labels_ = CmapssNegativeSampler.interval_nums example_sampler
                     * CmapssNegativeSampler.engine_num example_sampler /\
    nth_error samples 0 = nth_error (CmapssNegativeSampler.data example_sampler) 0 /\
    nth_error labels_ 0 = nth_error (CmapssNegativeSampler.labels example_sampler) 0 /\
    (exists e i,
        nth_error [2; 1]%Z e = Some (anchor_engine example_sampler 0) /\
        i < CmapssNegativeSampler.interval_nums example_sampler /\
        segment_skipped example_sampler 0 (anchor_engine example_sampler 0) i = true) /\
    (forall q, 1 <= q < CmapssNegativeSampler.interval_nums example_sampler
                        * CmapssNegativeSampler.engine_num example_sampler ->
               exists p, p < length (CmapssNegativeSampler.ids example_sampler) /\
                         nth_error samples q
                         = nth_error (CmapssNegativeSampler.data example_sampler) p /\
                         nth_error labels_ q
                         = nth_error (CmapssNegativeSampler.labels example_sampler) p).
Proof.
  assert (Hdraw : choice_without_replacement
                    (unique (CmapssNegativeSampler.ids example_sampler))
                    (CmapssNegativeSampler.engine_num example_sampler) [2; 1]%Z).
  { split; [reflexivity|]. split.
    - repeat constructor; simpl; lia.
    - intros g Hg. simpl in *. lia. }
  split; [reflexivity|]. split; [reflexivity|]. split; [simpl; lia|].
  split; [simpl; lia|]. split; [simpl; lia|]. split; [exact Hdraw|].
  split; [reflexivity|]. split; [exact example_picks_valid|].
  apply (NegativeSamplerFacts.negative_sampler_fills_every_slot
           example_sampler 0 example_picks eq_refl eq_refl
           (Nat.lt_0_succ 7) (Nat.le_succ_diag_r 1) [2; 1]%Z [2; 1]%Z
           (Nat.le_succ_diag_r 1) Hdraw eq_refl example_picks_valid).
Defined.

(** C8 as stated fails on two engines of four samples with two segments
    each and index 0: segment 0 of engine 1 holds the index and is skipped,
    and the lists that [sample] stacks hold four filled slots, the anchor
    and three drawn samples, with no placeholder. *)
Lemma negative_sampler_placeholder_counterexample :
  segment_skipped example_sampler 0 1 0 = true /\
  CmapssNegativeSampler.sample_slots example_sampler 0 [2; 1]%Z example_picks
  = Ok ([Filled 10; Filled 21; Filled 22; Filled 13],
        [Filled 1%float; Filled 6%float; Filled 7%float; Filled 4%float]) /\
  CmapssNegativeSampler.sample example_sampler 0 [2; 1]%Z example_picks
  = Ok ([10; 21; 22; 13], [1; 6; 7; 4]%float).
Proof. repeat split; reflexivity. Qed.

(** ** The hand-written recurrent cell *)

Module LSTMFacts.
Import LSTM.

Section Cell.
Context {T : Type} `{Tensor T}.
Variables (input_size hidden : nat) (rate : Q).
Variables (w_f w_i w_c w_o : T -> T) (mask : nat -> T -> T).
Variable x : input T.

Let self : t T :=
  mk (mkLinear (input_size + hidden) hidden w_f)
     (mkLinear (input_size + hidden) hidden w_i)
     (mkLinear (input_size + hidden) hidden w_c)
     (mkLinear (input_size + hidden) hidden w_o)
     (if Qgtb rate 0 then Some (mkDropout rate mask) else None)
     hidden.
Let state_at : nat -> T * T :=
  lstm_recurrence hidden rate w_f w_i w_c w_o mask (b x) (slices x).
Let outputs_to (k : nat) : list T := map (fun t_ => fst (state_at (S t_))) (seq 0 k).

Lemma init_ok :
  (rate <= 1)%Q -> init input_size hidden rate w_f w_i w_c w_o mask = Ok self.
Proof.
  intros Hle. unfold init, self.
  assert (Hone : Qgtb rate 1 = false).
  { unfold Qgtb. apply Bool.negb_false_iff, Qle_bool_iff, Hle. }
  rewrite Hone. destruct (Qgtb rate 0); reflexivity.
Qed.

Lemma step_recurrence (pre rest : list T) (a : T) :
  slices x = pre ++ a :: rest ->
  step self (length pre, a)
       (fst (state_at (length pre)), snd (state_at (length pre)), outputs_to (length pre))
  = (fst (state_at (S (length pre))), snd (state_at (S (length pre))),
     outputs_to (S (length pre))).
Proof.
  intros Hx. unfold outputs_to. rewrite seq_S, map_app. cbn [Nat.add map].
  unfold state_at at 4 5 7. cbn [lstm_recurrence].
  fold (state_at (length pre)).
  assert (Hnth : nth (length pre) (slices x) (zeros (b x) 0) = a).
  { rewrite Hx, app_nth2, Nat.sub_diag by lia. reflexivity. }
  rewrite Hnth.
  destruct (state_at (length pre)) as [h c].
  unfold step, self. cbn [fst snd wf wi wc wo apply dropout].
  destruct (Qgtb rate 0); cbn [drop]; reflexivity.
Qed.

Lemma forward_loop (rest pre : list T) :
  slices x = pre ++ rest ->
  fold_left (fun st i_x => step self i_x st)
            (combine (seq (length pre) (length rest)) rest)
            (fst (state_at (length pre)), snd (state_at (length pre)),
             outputs_to (length pre))
  = (fst (state_at (length (slices x))), snd (state_at (length (slices x))),
     outputs_to (length (slices x))).
Proof.
  revert pre. induction rest as [|a rest IH]; intros pre Hx.
  - rewrite app_nil_r in Hx. rewrite Hx. reflexivity.
  - cbn [length seq combine fold_left].
    rewrite (step_recurrence pre rest a Hx).
    specialize (IH (pre ++ [a])). rewrite length_app, Nat.add_1_r in IH.
    apply IH. rewrite <- app_assoc. exact Hx.
Qed.

(** C9, amended to sequences of at least one timestep.  For a dropout rate
    of at most 1, [__init__] builds a cell of four linear layers from
    [input_size + hidden_size] to [hidden_size], each with parameters of
    its own, and a dropout layer only when the rate is positive; the
    forward pass of that cell returns the hidden states [h_1 .. h_l] of the
    recurrence, in time order, together with the final pair [(h_l, c_l)]. *)
Theorem forward_recurrence :
  slices x <> [] ->
  (rate <= 1)%Q ->
  exists cell,
    init input_size hidden rate w_f w_i w_c w_o mask = Ok cell /\
    Forall (fun w => in_features w = input_size + hidden /\ out_features w = hidden)
           [wf cell; wi cell; wc cell; wo cell] /\
    apply (wf cell) = w_f /\ apply (wi cell) = w_i /\
    apply (wc cell) = w_c /\ apply (wo cell) = w_o /\
    (dropout cell <> None <-> (0 < rate)%Q) /\
    forward cell x
    = Ok (map (fun t_ => fst (state_at (S t_))) (seq 0 (length (slices x))),
          state_at (length (slices x))).
Proof.
  intros Hne Hrate. exists self. split; [exact (init_ok Hrate)|].
  split; [repeat constructor|].
  do 4 (split; [reflexivity|]). split.
  { unfold self, Qgtb. cbn [dropout].
    destruct (Qle_bool rate 0) eqn:Hle; cbn [negb].
    - apply Qle_bool_iff in Hle. split; [congruence|].
      intros Hlt. exfalso. apply (Qlt_not_le _ _ Hlt Hle).
    - split; [|discriminate]. intros _. apply Qnot_le_lt. intros Hq.
      apply Qle_bool_iff in Hq. congruence. }
  unfold forward.
  pose proof (forward_loop (slices x) [] eq_refl) as Hloop.
  cbn [length] in Hloop.
  change (zeros (b x) (hidden_size self), zeros (b x) (hidden_size self), @nil T)
    with (fst (state_at 0), snd (state_at 0), outputs_to 0).
  rewrite Hloop. fold (outputs_to (length (slices x))).
  destruct (state_at (length (slices x))) as [h c]. cbn [fst snd].
  unfold torch_stack.
  destruct (outputs_to (length (slices x))) as [|o outs] eqn:Hout.
  - apply (f_equal (@length _)) in Hout. unfold outputs_to in Hout.
    rewrite length_map, length_seq in Hout.
    destruct (slices x); [contradiction | discriminate].
  - reflexivity.
Qed.

End Cell.
End LSTMFacts.

Lemma forward_recurrence_witness :
  LSTM.slices (LSTM.mkInput 1 [3; 5]%Z) <> [] /\
  (2 # 5 <= 1)%Q /\
  exists cell,
    LSTM.init 1 1 (2 # 5) Z.succ Z.succ Z.succ Z.succ (fun _ u => u) = Ok cell /\
    Forall (fun w => LSTM.in_features w = 1 + 1 /\ LSTM.out_features w = 1)
           [LSTM.wf cell; LSTM.wi cell; LSTM.wc cell; LSTM.wo cell] /\
    LSTM.apply (LSTM.wf cell) = Z.succ /\ LSTM.apply (LSTM.wi cell) = Z.succ /\
    LSTM.apply (LSTM.wc cell) = Z.succ /\ LSTM.apply (LSTM.wo cell) = Z.succ /\
    (LSTM.dropout cell <> None <-> (0 < 2 # 5)%Q) /\
    LSTM.forward cell (LSTM.mkInput 1 [3; 5]%Z)
    = Ok (map (fun t_ =>
                 fst (LSTM.lstm_recurrence 1 (2 # 5) Z.succ Z.succ Z.succ Z.succ
                                           (fun _ u => u) 1 [3; 5]%Z (S t_)))
              (seq 0 2),
          LSTM.lstm_recurrence 1 (2 # 5) Z.succ Z.succ Z.succ Z.succ
                               (fun _ u => u) 1 [3; 5]%Z 2).
Proof.
  assert (Hrate : (2 # 5 <= 1)%Q) by (unfold Qle; simpl; lia).
  split; [discriminate|]. split; [exact Hrate|].
  apply (LSTMFacts.forward_recurrence 1 1 (2 # 5) Z.succ Z.succ Z.succ Z.succ
           (fun _ u => u) (LSTM.mkInput 1 [3; 5]%Z)).
  - discriminate.
  - exact Hrate.
Defined.

(** C9 as stated fails on a sequence of no timestep: nothing is appended
    to [outputs] and [torch.stack] raises on the empty list. *)
Lemma forward_empty_sequence_counterexample :
  exists cell,
    LSTM.init 1 1 (2 # 5) Z.succ Z.succ Z.succ Z.succ (fun _ u => u) = Ok cell /\
    LSTM.forward cell (LSTM.mkInput 1 (@nil Z)) = Raise RuntimeError.
Proof. eexists. split; reflexivity. Qed.

(** * Further properties of the code *)

(** ** [generate_rul]: clipping, normalised plateau, edge cases *)

Lemma finish_row_clipped (df : list RawRecord) (y_test : option (list Z))
      (threshold : Z) (r : RawRecord) :
  (0 < threshold)%Z ->
  finish_row false threshold (label_row df y_test r)
  = mkLabeled r
      (if (total_life df y_test r >? threshold)%Z
       then (threshold + 1)%Z else total_life df y_test r)
      (inject_Z (Z.min (total_life df y_test r - time_cycles r) threshold)).
Proof.
  intros Hth. unfold finish_row, label_row, clip_row, total_life. cbn [rul max_cycles raw].
  destruct (Z.gtb_spec threshold 0) as [_|Hle]; [|lia].
  rewrite Qgtb_inject_Z.
  destruct (Z.gtb_spec (observed_max df (unit_nr r)
                        + remaining_life df y_test (unit_nr r) - time_cycles r)
                       threshold) as [Hc|Hc]; cbn [rul max_cycles raw];
    destruct (Z.gtb_spec (observed_max df (unit_nr r)
                          + remaining_life df y_test (unit_nr r)) threshold);
    f_equal; f_equal; lia.
Qed.

(** X1.  With a positive threshold T and no normalisation, [generate_rul]
    returns the rows of the frame in order, each with
    [rul = min(life - time_cycles, T)] and with [max_cycles] set to [T + 1]
    when the engine's total life exceeds T and left at the total life
    otherwise; so no [rul] exceeds T. *)
Theorem generate_rul_clipped (df : list RawRecord) (y_test : option (list Z))
        (threshold : Z) :
  y_test_fits df y_test ->
  (0 < threshold)%Z ->
  exists out,
    generate_rul df y_test false threshold = Ok out /\
    map raw out = df /\
    Forall (fun r =>
              rul r = inject_Z (Z.min (total_life df y_test (raw r)
                                       - time_cycles (raw r)) threshold) /\
              (rul r <= inject_Z threshold)%Q /\
              max_cycles r = (if (total_life df y_test (raw r) >? threshold)%Z
                              then (threshold + 1)%Z
                              else total_life df y_test (raw r))) out.
Proof.
  intros Hfit Hth. rewrite (generate_rul_rows df y_test false threshold Hfit).
  eexists. split; [reflexivity|]. split.
  - rewrite map_map. rewrite <- (map_id df) at 2. apply map_ext. intros r.
    rewrite (finish_row_clipped df y_test threshold r Hth). reflexivity.
  - apply Forall_forall. intros r Hr. apply in_map_iff in Hr.
    destruct Hr as (x & <- & _).
    rewrite (finish_row_clipped df y_test threshold x Hth). cbn [rul max_cycles raw].
    split; [reflexivity|]. split; [|reflexivity].
    rewrite <- Zle_Qle. lia.
Qed.

Lemma generate_rul_clipped_witness :
  y_test_fits example_raw example_y_test /\
  (0 < 100)%Z /\
  exists out,
    generate_rul example_raw example_y_test false 100 = Ok out /\
    map raw out = example_raw /\
    Forall (fun r =>
              rul r = inject_Z (Z.min (total_life example_raw example_y_test (raw r)
                                       - time_cycles (raw r)) 100) /\
              (rul r <= inject_Z 100)%Q /\
              max_cycles r = (if (total_life example_raw example_y_test (raw r) >? 100)%Z
                              then (100 + 1)%Z
                              else total_life example_raw example_y_test (raw r))) out.
Proof.
  split; [reflexivity|]. split; [lia|].
  apply (generate_rul_clipped example_raw example_y_test 100); [reflexivity | lia].
Defined.





Lemma fold_max_In_or (l : list Z) (a : Z) :
  fold_left Z.max l a = a \/ In (fold_left Z.max l a) l.
Proof.
  revert a. induction l as [|x l IH]; intros a; cbn [fold_left]; [left; reflexivity|].
  destruct (IH (Z.max a x)) as [Heq|Hin].
  - rewrite Heq. destruct (Z.max_spec a x) as [[_ ->]|[_ ->]]; [right; left|left]; reflexivity.
  - right. right. exact Hin.
Qed.

Lemma Zmax_list_In (l : list Z) : l <> [] -> In (Zmax_list l) l.
Proof.
  destruct l as [|x l]; [contradiction|]. intros _. cbn [Zmax_list].
  destruct (fold_max_In_or l x) as [->|Hin]; [left; reflexivity | right; exact Hin].
Qed.

Lemma observed_max_attained (df : list RawRecord) (e : Z) :
  In e (map unit_nr df) ->
  exists r, In r df /\ unit_nr r = e /\ time_cycles r = observed_max df e.
Proof.
  intros He. apply in_map_iff in He. destruct He as (r0 & Hr0 & Hin0).
  assert (Hne : map time_cycles (filter (fun r => (unit_nr r =? e)%Z) df) <> []).
  { intros Hnil. apply map_eq_nil in Hnil.
    assert (Hf : In r0 (filter (fun r => (unit_nr r =? e)%Z) df))
      by (apply filter_In; split; [exact Hin0 | apply Z.eqb_eq, Hr0]).
    rewrite Hnil in Hf. exact Hf. }
  apply Zmax_list_In in Hne. fold (observed_max df e) in Hne.
  apply in_map_iff in Hne. destruct Hne as (r & Ht & Hr).
  apply filter_In in Hr. destruct Hr as [Hr He]. apply Z.eqb_eq in He.
  exists r. auto.
Qed.

(** X4.  In training mode (no RUL frame), without clipping or
    normalisation, every label is a non-negative whole number of cycles, it
    is 0 exactly on the rows at the engine's largest cycle index, and every
    engine of the frame has such a row: run-to-failure labelling. *)
Theorem generate_rul_training_labels (df : list RawRecord) :
  exists out,
    generate_rul df None false 0 = Ok out /\
    map raw out = df /\
    Forall (fun r =>
              rul r = inject_Z (observed_max df (unit_nr (raw r)) - time_cycles (raw r)) /\
              (0 <= rul r)%Q /\
              ((rul r == 0)%Q <->
               time_cycles (raw r) = observed_max df (unit_nr (raw r)))) out /\
    (forall e, In e (map unit_nr df) ->
               exists r, In r out /\ unit_nr (raw r) = e /\ (rul r == 0)%Q).
Proof.
  rewrite (generate_rul_rows df None false 0 I).
  assert (Hrow : forall r, finish_row false 0 (label_row df None r)
                           = mkLabeled r (observed_max df (unit_nr r))
                                       (inject_Z (observed_max df (unit_nr r) - time_cycles r))).
  { intros r. unfold finish_row, label_row, remaining_life. cbn.
    rewrite Z.add_0_r. reflexivity. }
  eexists. split; [reflexivity|]. split.
  { rewrite map_map. rewrite <- (map_id df) at 2. apply map_ext. intros r.
    rewrite Hrow. reflexivity. }
  split.
  - apply Forall_forall. intros r Hr. apply in_map_iff in Hr.
    destruct Hr as (x & <- & Hx). rewrite Hrow. cbn [rul raw].
    pose proof (observed_max_ge df x Hx) as Hge.
    split; [reflexivity|]. split.
    + change 0%Q with (inject_Z 0). rewrite <- Zle_Qle. lia.
    + change 0%Q with (inject_Z 0). rewrite inject_Z_injective. lia.
  - intros e He. destruct (observed_max_attained df e He) as (x & Hx & Hu & Ht).
    exists (finish_row false 0 (label_row df None x)). split.
    + apply in_map_iff. exists x. auto.
    + rewrite Hrow. cbn [rul raw]. split; [exact Hu|].
      change 0%Q with (inject_Z 0). rewrite inject_Z_injective, Hu. lia.
Qed.

(** ** [generate_window_sample]: what a returning call holds *)

Lemma values_row_length (sensors : list string) (rows : list LabeledRecord) :
  Forall (fun row => length row = length sensors) (values sensors rows).
Proof.
  unfold values. apply Forall_forall. intros row Hrow. apply in_map_iff in Hrow.
  destruct Hrow as (r & <- & _). apply length_map.
Qed.

(** Position [p] of three parallel concatenations lies in one block. *)
Lemma parallel_concat_nth {G A B C : Type} (f1 : G -> list A) (f2 : G -> list B)
      (f3 : G -> list C) (gs : list G) (p : nat) (a : A) :
  (forall g, In g gs -> length (f2 g) = length (f1 g) /\ length (f3 g) = length (f1 g)) ->
  nth_error (concat (map f1 gs)) p = Some a ->
  exists g j,
    In g gs /\ nth_error (f1 g) j = Some a /\
    nth_error (concat (map f2 gs)) p = nth_error (f2 g) j /\
    nth_error (concat (map f3 gs)) p = nth_error (f3 g) j.
Proof.
  revert p. induction gs as [|g gs IH]; intros p Hlen Hp; cbn [map concat] in *.
  - destruct p; discriminate.
  - destruct (Hlen g (or_introl eq_refl)) as [H2 H3].
    destruct (Nat.lt_ge_cases p (length (f1 g))) as [Hlt|Hge].
    + rewrite nth_error_app1 in Hp by exact Hlt.
      exists g, p. split; [left; reflexivity|]. split; [exact Hp|].
      rewrite !nth_error_app1 by lia. auto.
    + rewrite nth_error_app2 in Hp by exact Hge.
      destruct (IH (p - length (f1 g)) (fun g' Hg' => Hlen g' (or_intror Hg')) Hp)
        as (g' & j & Hg' & Hj & Hj2 & Hj3).
      exists g', j. split; [right; exact Hg'|]. split; [exact Hj|].
      rewrite !nth_error_app2 by lia. rewrite H2, H3. auto.
Qed.

Lemma kept_In (W : nat) (gs : list (Z * list LabeledRecord)) (g : Z * list LabeledRecord) :
  In g (kept W gs) <-> In g gs /\ W <= length (snd g).
Proof.
  unfold kept. rewrite filter_In.
  destruct (Nat.ltb_spec (length (snd g)) W); cbn [negb]; intuition (try lia; discriminate).
Qed.

(** X5.  Whenever [generate_window_sample] returns (slide step not 0), its
    three arrays have one leading length, the sum over the engine
    trajectories of [max(0, floor((L - W) / slide_step))], and every window
    has exactly [window_size] rows of one value per selected column. *)
Theorem window_sample_counts (df : list LabeledRecord) (W s : nat)
        (sensors : list string) (ws : list warning)
        (data : list window) (ids : list Z) (labels : list Q) :
  s <> 0 ->
  generate_window_sample df W s sensors = (ws, Ok (data, ids, labels)) ->
  length ids = length data /\
  length labels = length data /\
  Z.of_nat (length data) = window_total W s (trajectories df) /\
  Forall (fun w => length w = W /\ Forall (fun row => length row = length sensors) w) data.
Proof.
  intros Hs Hrun.
  destruct (generate_window_sample_ok_inv df W s sensors ws data ids labels Hs Hrun)
    as (_ & -> & -> & ->).
  destruct (blocks_lengths W s sensors (kept W (trajectories df))) as [H1 H2].
  rewrite <- H1, <- H2. do 2 (split; [reflexivity|]).
  split; [apply blocks_total, Hs|].
  apply Forall_forall. intros w Hw. apply in_concat in Hw.
  destruct Hw as (block & Hblock & Hw). apply in_map_iff in Hblock.
  destruct Hblock as (g & <- & Hg). unfold engine_block in Hw. cbn [fst] in Hw.
  apply in_map_iff in Hw. destruct Hw as (j & <- & Hj). apply in_seq in Hj.
  pose proof (window_count_bound (length (snd g)) W s j Hs ltac:(lia)) as Hbound.
  split.
  - rewrite slice_length by (rewrite values_length; lia). lia.
  - replace (slice (values sensors (snd g)) j (j + W))
      with (values sensors (slice (snd g) j (j + W)))
      by (unfold values, slice; rewrite skipn_map, firstn_map; reflexivity).
    apply values_row_length.
Qed.

Lemma window_sample_counts_witness :
  1 <> 0 /\
  generate_window_sample example_engine 2 1 example_sensors
  = ([], Ok (fst (fst (engine_block 2 1 example_sensors example_engine)),
             snd (fst (engine_block 2 1 example_sensors example_engine)),
             snd (engine_block 2 1 example_sensors example_engine))) /\
  length (snd (fst (engine_block 2 1 example_sensors example_engine)))
  = length (fst (fst (engine_block 2 1 example_sensors example_engine))) /\
  length (snd (engine_block 2 1 example_sensors example_engine))
  = length (fst (fst (engine_block 2 1 example_sensors example_engine))) /\
  Z.of_nat (length (fst (fst (engine_block 2 1 example_sensors example_engine))))
  = window_total 2 1 (trajectories example_engine) /\
  Forall (fun w => length w = 2 /\
                   Forall (fun row => length row = length example_sensors) w)
         (fst (fst (engine_block 2 1 example_sensors example_engine))).
Proof.
  assert (Hrun : generate_window_sample example_engine 2 1 example_sensors
                 = ([], Ok (fst (fst (engine_block 2 1 example_sensors example_engine)),
                            snd (fst (engine_block 2 1 example_sensors example_engine)),
                            snd (engine_block 2 1 example_sensors example_engine))))
    by (vm_compute; reflexivity).
  split; [discriminate|]. split; [exact Hrun|].
  apply (window_sample_counts example_engine 2 1 example_sensors []
           _ _ _ (Nat.neq_succ_0 0) Hrun).
Defined.

(** X6.  Every entry of a returned result is a window of one engine: at
    each position the window holds the rows at offsets [j, j + W) of some
    engine trajectory (selected columns), the id is that engine's id and
    the label is the [rul] of the row at offset [j + W].  That row exists,
    so no window reaches the last row of its trajectory. *)
Theorem window_sample_entries (df : list LabeledRecord) (W s : nat)
        (sensors : list string) (ws : list warning)
        (data : list window) (ids : list Z) (labels : list Q)
        (p : nat) (w : window) :
  s <> 0 ->
  generate_window_sample df W s sensors = (ws, Ok (data, ids, labels)) ->
  nth_error data p = Some w ->
  exists id engine j,
    In (id, engine) (trajectories df) /\
    j + W < length engine /\
    w = values sensors (slice engine j (j + W)) /\
    nth_error ids p = Some id /\
    nth_error labels p = option_map rul (nth_error engine (j + W)).
Proof.
  intros Hs Hrun Hp.
  destruct (generate_window_sample_ok_inv df W s sensors ws data ids labels Hs Hrun)
    as (_ & -> & -> & ->).
  destruct (parallel_concat_nth
              (fun g => fst (fst (engine_block W s sensors (snd g))))
              (fun g => snd (fst (engine_block W s sensors (snd g))))
              (fun g => snd (engine_block W s sensors (snd g)))
              (kept W (trajectories df)) p w)
    as ([id engine] & j & Hg & Hj & -> & ->); [|exact Hp|].
  { intros g _. destruct (engine_block_lengths W s sensors (snd g)) as (-> & -> & ->).
    auto. }
  apply kept_In in Hg. destruct Hg as [Hg HW]. cbn [snd] in *.
  destruct (trajectory_rows df id engine Hg) as [Hne Hid].
  assert (Hjn : j < (length engine - W) / s).
  { destruct (engine_block_lengths W s sensors engine) as (Hl & _).
    rewrite <- Hl. apply nth_error_Some. congruence. }
  pose proof (window_count_bound (length engine) W s j Hs Hjn) as Hbound.
  rewrite (engine_block_window_offsets W s sensors engine j Hs Hjn) in Hj.
  injection Hj as <-.
  exists id, engine, j. split; [exact Hg|]. split; [exact Hbound|].
  split; [reflexivity|].
  unfold engine_block. cbn [fst snd].
  rewrite !nth_error_map_seq by exact Hjn.
  rewrite (nth_error_nth' engine default_row Hbound). cbn [option_map].
  split; [|reflexivity]. f_equal.
  destruct engine as [|r0 rest]; [contradiction|]. inversion Hid; subst. reflexivity.
Qed.

Lemma window_sample_entries_witness :
  2 <> 0 /\
  generate_window_sample example_engine 2 2 example_sensors
  = ([], Ok (fst (fst (engine_block 2 2 example_sensors example_engine)),
             snd (fst (engine_block 2 2 example_sensors example_engine)),
             snd (engine_block 2 2 example_sensors example_engine))) /\
  nth_error (fst (fst (engine_block 2 2 example_sensors example_engine))) 1
  = Some (values example_sensors (slice example_engine 1 3)) /\
  exists id engine j,
    In (id, engine) (trajectories example_engine) /\
    j + 2 < length engine /\
    values example_sensors (slice example_engine 1 3)
    = values example_sensors (slice engine j (j + 2)) /\
    nth_error (snd (fst (engine_block 2 2 example_sensors example_engine))) 1 = Some id /\
    nth_error (snd (engine_block 2 2 example_sensors example_engine)) 1
    = option_map rul (nth_error engine (j + 2)).
Proof.
  assert (Hrun : generate_window_sample example_engine 2 2 example_sensors
                 = ([], Ok (fst (fst (engine_block 2 2 example_sensors example_engine)),
                            snd (fst (engine_block 2 2 example_sensors example_engine)),
                            snd (engine_block 2 2 example_sensors example_engine))))
    by (vm_compute; reflexivity).
  assert (Hp : nth_error (fst (fst (engine_block 2 2 example_sensors example_engine))) 1
               = Some (values example_sensors (slice example_engine 1 3)))
    by reflexivity.
  split; [discriminate|]. split; [exact Hrun|]. split; [exact Hp|].
  apply (window_sample_entries example_engine 2 2 example_sensors []
           _ _ _ 1 _ (Nat.neq_succ_0 1) Hrun Hp).
Defined.

(** ** [generate_window_sample]: when the call returns *)

Lemma np_concatenate_cases {A : Type} (d : nat) (arrays : list (slot (list A))) :
  np_concatenate d arrays = Ok (concat (map slot_items arrays)) \/
  np_concatenate d arrays = Raise ValueError.
Proof.
  unfold np_concatenate. destruct arrays as [|a rest]; [auto|].
  destruct (ndim d a =? 0); [auto|]. destruct (forallb _ rest); auto.
Qed.

(** Blocks of a positive element rank concatenate exactly when there is a
    block and the blocks are all empty or all non-empty. *)
Lemma np_concatenate_blocks_iff {A G : Type} (d : nat) (f : G -> list A) (l : list G) :
  (exists x, np_concatenate (S d) (map (fun g => Filled (f g)) l) = Ok x) <->
  l <> [] /\ ((forall g, In g l -> f g = []) \/ (forall g, In g l -> f g <> [])).
Proof.
  split.
  - intros (x & Hx). unfold np_concatenate in Hx.
    destruct l as [|g rest]; [discriminate|]. cbn [map] in Hx.
    split; [discriminate|].
    destruct (ndim (S d) (Filled (f g)) =? 0); [discriminate|].
    destruct (forallb _ (map _ rest)) eqn:Hall; [|discriminate].
    rewrite forallb_forall in Hall.
    assert (Hsame : forall g', In g' rest ->
                               ndim (S d) (Filled (f g')) = ndim (S d) (Filled (f g))).
    { intros g' Hg'. apply Nat.eqb_eq, Hall, in_map_iff. exists g'. auto. }
    destruct (f g) as [|a0 l0] eqn:Hg.
    + left. intros g' [<-|Hg']; [exact Hg|].
      specialize (Hsame g' Hg'). cbn [ndim] in Hsame.
      destruct (f g'); [reflexivity | discriminate].
    + right. intros g' [<-|Hg']; [rewrite Hg; discriminate|].
      specialize (Hsame g' Hg'). cbn [ndim] in Hsame.
      destruct (f g'); [discriminate | discriminate].
  - intros (Hne & Hall).
    destruct l as [|g rest]; [contradiction|]. eexists.
    unfold np_concatenate. cbn [map].
    assert (Hdim : forall g', In g' (g :: rest) ->
                              ndim (S d) (Filled (f g')) = ndim (S d) (Filled (f g))).
    { intros g' Hg'. destruct Hall as [Hall|Hall].
      - rewrite (Hall g' Hg'), (Hall g (or_introl eq_refl)). reflexivity.
      - pose proof (Hall g' Hg') as H1. pose proof (Hall g (or_introl eq_refl)) as H2.
        cbn [ndim]. destruct (f g'), (f g); congruence. }
    replace (ndim (S d) (Filled (f g)) =? 0) with false
      by (cbn [ndim]; destruct (f g); reflexivity).
    replace (forallb _ (map (fun g0 => Filled (f g0)) rest)) with true; [reflexivity|].
    symmetry. apply forallb_forall. intros a' Ha'. apply in_map_iff in Ha'.
    destruct Ha' as (g' & <- & Hg'). apply Nat.eqb_eq, Hdim. right. exact Hg'.
Qed.

(** X7.  For a slide step other than 0, [generate_window_sample] returns
    exactly when some engine passes the length guard and the engines that
    pass it either all have a window or all have none (in which case the
    three arrays are empty); in every other case the concatenation raises
    [ValueError]. *)
Theorem window_sample_returns_iff (df : list LabeledRecord) (W s : nat)
        (sensors : list string) :
  s <> 0 ->
  ((exists data ids labels,
       snd (generate_window_sample df W s sensors) = Ok (data, ids, labels)) <->
   kept W (trajectories df) <> [] /\
   ((forall g, In g (kept W (trajectories df)) -> (length (snd g) - W) / s = 0) \/
    (forall g, In g (kept W (trajectories df)) -> (length (snd g) - W) / s <> 0))) /\
  ((forall out, snd (generate_window_sample df W s sensors) <> Ok out) ->
   snd (generate_window_sample df W s sensors) = Raise ValueError).
Proof.
  intros Hs. rewrite (generate_window_sample_eq df W s sensors Hs). cbn [snd].
  set (gs := kept W (trajectories df)).
  assert (Hlen : forall g : Z * list LabeledRecord,
             fst (fst (engine_block W s sensors (snd g))) = []
                           <-> (length (snd g) - W) / s = 0).
  { intros g. rewrite <- length_zero_iff_nil.
    destruct (engine_block_lengths W s sensors (snd g)) as (-> & _). reflexivity. }
  pose proof (np_concatenate_blocks_iff 1
                (fun g => fst (fst (engine_block W s sensors (snd g)))) gs) as Hiff.
  split; [split|].
  - intros (data & ids & labels & Hrun).
    destruct (np_concatenate 2 _) as [x|e] eqn:Hdata; [|discriminate].
    destruct (proj1 Hiff (ex_intro _ x eq_refl)) as (Hne & Hall).
    split; [exact Hne|]. destruct Hall as [Hall|Hall].
    + left. intros g Hg. apply Hlen, Hall, Hg.
    + right. intros g Hg Hz. apply (Hall g Hg), Hlen, Hz.
  - intros (Hne & Hall).
    destruct (proj2 Hiff) as (x & ->).
    { split; [exact Hne|]. destruct Hall as [Hall|Hall].
      - left. intros g Hg. apply Hlen, Hall, Hg.
      - right. intros g Hg Hz. apply (Hall g Hg), Hlen, Hz. }
    rewrite !np_concatenate_flat by exact Hne. cbn [bind]. eauto.
  - intros Hno.
    destruct (np_concatenate_cases 2
                (map (fun g => Filled (fst (fst (engine_block W s sensors (snd g))))) gs))
      as [Hd|Hd]; rewrite Hd in *; [|reflexivity].
    destruct (np_concatenate_cases 0
                (map (fun g => Filled (snd (fst (engine_block W s sensors (snd g))))) gs))
      as [Hi|Hi]; rewrite Hi in *; [|reflexivity].
    destruct (np_concatenate_cases 0
                (map (fun g => Filled (snd (engine_block W s sensors (snd g)))) gs))
      as [Hl|Hl]; rewrite Hl in *; [|reflexivity].
    cbn [bind] in Hno. exfalso. eapply Hno. reflexivity.
Qed.

Lemma window_sample_returns_iff_witness :
  1 <> 0 /\
  snd (generate_window_sample example_two_engines 2 1 example_sensors)
  = Raise ValueError.
Proof.
  split; [discriminate|].
  apply (proj2 (window_sample_returns_iff example_two_engines 2 1 example_sensors
                  (Nat.neq_succ_0 0))).
  intros out Hout. vm_compute in Hout. discriminate Hout.
Defined.

(** ** [generate_window_sample]: no engine left, slide step 0 *)

Lemma window_loop_all_dropped (W s : nat) (sensors : list string)
      (gs : list (Z * list LabeledRecord)) (st : window_state) :
  kept W gs = [] ->
  window_loop W s sensors gs st = (dropped_warnings W gs, Ok st).
Proof.
  unfold kept, dropped_warnings.
  induction gs as [|[id engine] gs IH]; intros Hkept; [reflexivity|].
  cbn [window_loop filter map fst snd] in *. rewrite values_length.
  destruct (Nat.ltb_spec (length engine) W) as [Hshort|Hlong]; cbn [negb] in Hkept.
  - rewrite (IH Hkept). reflexivity.
  - discriminate.
Qed.

Lemma window_loop_zero_step (W : nat) (sensors : list string)
      (gs : list (Z * list LabeledRecord)) (st : window_state) :
  kept W gs <> [] ->
  snd (window_loop W 0 sensors gs st) = Raise ZeroDivisionError.
Proof.
  unfold kept.
  induction gs as [|[id engine] gs IH]; intros Hkept; [contradiction|].
  cbn [window_loop filter fst snd] in *. rewrite values_length.
  destruct (Nat.ltb_spec (length engine) W) as [Hshort|Hlong]; cbn [negb] in Hkept.
  - specialize (IH Hkept).
    destruct (window_loop W 0 sensors gs st) as [ws r]. exact IH.
  - reflexivity.
Qed.

(** X8.  When no engine passes the length guard (an empty frame included)
    [generate_window_sample] raises [ValueError] for every slide step, after
    one warning per engine; when some engine passes it and the slide step is
    0, the floor division raises [ZeroDivisionError]. *)
Theorem window_sample_no_window_errors (df : list LabeledRecord) (W : nat)
        (sensors : list string) :
  (kept W (trajectories df) = [] ->
   forall s, generate_window_sample df W s sensors
             = (dropped_warnings W (trajectories df), Raise ValueError)) /\
  (kept W (trajectories df) = [] ->
   length (dropped_warnings W (trajectories df)) = length (trajectories df)) /\
  (kept W (trajectories df) <> [] ->
   snd (generate_window_sample df W 0 sensors) = Raise ZeroDivisionError).
Proof.
  split; [|split].
  - intros Hkept s. unfold generate_window_sample. fold (trajectories df).
    rewrite (window_loop_all_dropped W s sensors (trajectories df) _ Hkept).
    reflexivity.
  - unfold kept, dropped_warnings. rewrite length_map.
    generalize (trajectories df). intros gs.
    induction gs as [|g gs IH]; intros Hkept; [reflexivity|].
    cbn [filter] in *. destruct (length (snd g) <? W); cbn [negb] in Hkept.
    + cbn [length]. f_equal. apply IH, Hkept.
    + discriminate.
  - intros Hkept. unfold generate_window_sample. fold (trajectories df).
    pose proof (window_loop_zero_step W sensors (trajectories df)
                  (mkWindowState (repeat Placeholder (length (trajectories df)))
                                 (repeat Placeholder (length (trajectories df)))
                                 (repeat Placeholder (length (trajectories df))) 0)
                  Hkept) as Hloop.
    destruct (window_loop W 0 sensors (trajectories df) _) as [ws r].
    cbn [snd] in *. rewrite Hloop. reflexivity.
Qed.

(** ** [generate_window_sample]: the order of the returned entries *)

Lemma sorted_blocks {G : Type} (key : G -> Z) (count : G -> nat) (keep : G -> bool)
      (gs : list G) :
  StronglySorted Z.lt (map key gs) ->
  StronglySorted Z.le
    (concat (map (fun g => repeat (key g) (count g)) (filter keep gs))) /\
  Forall (fun k => In k (map key gs))
    (concat (map (fun g => repeat (key g) (count g)) (filter keep gs))).
Proof.
  induction gs as [|g gs IH]; intros Hsorted; cbn [map filter concat].
  - split; constructor.
  - inversion Hsorted as [|k ks Hrest Hlt]; subst.
    destruct (IH Hrest) as [IHs IHin].
    assert (Hin' : Forall (fun k => In k (map key (g :: gs)))
                     (concat (map (fun g0 => repeat (key g0) (count g0))
                                  (filter keep gs)))).
    { eapply Forall_impl; [|exact IHin]. intros k Hk. right. exact Hk. }
    destruct (keep g); cbn [map concat]; [|split; assumption].
    split.
    + induction (count g) as [|n IHn]; cbn [repeat app]; [exact IHs|].
      constructor; [exact IHn|].
      apply Forall_app. split.
      * apply Forall_forall. intros k Hk. apply repeat_spec in Hk. subst. lia.
      * rewrite Forall_forall in IHin, Hlt. apply Forall_forall. intros k Hk.
        specialize (Hlt k (IHin k Hk)). lia.
    + apply Forall_app. split; [|exact Hin'].
      apply Forall_forall. intros k Hk. apply repeat_spec in Hk. subst. left. reflexivity.
Qed.

Lemma engine_block_ids (df : list LabeledRecord) (W s : nat) (sensors : list string)
      (g : Z * list LabeledRecord) :
  In g (trajectories df) ->
  snd (fst (engine_block W s sensors (snd g)))
  = repeat (fst g) ((length (snd g) - W) / s).
Proof.
  destruct g as [id engine]. intros Hg. cbn [fst snd].
  destruct (trajectory_rows df id engine Hg) as [Hne Hid].
  unfold engine_block. cbn [fst snd]. rewrite map_const_repeat, length_seq.
  destruct engine as [|r0 rest]; [contradiction|]. inversion Hid; subst. reflexivity.
Qed.

(** X9.  The engine ids returned by [generate_window_sample] are in
    ascending order: the entries of one engine stand side by side, engine
    after engine by ascending id, and every returned id is the id of an
    engine of the frame. *)
Theorem window_sample_ids_sorted (df : list LabeledRecord) (W s : nat)
        (sensors : list string) (ws : list warning)
        (data : list window) (ids : list Z) (labels : list Q) :
  s <> 0 ->
  generate_window_sample df W s sensors = (ws, Ok (data, ids, labels)) ->
  StronglySorted Z.le ids /\
  Forall (fun id => In id (map (fun r => unit_nr (raw r)) df)) ids.
Proof.
  intros Hs Hrun.
  destruct (generate_window_sample_ok_inv df W s sensors ws data ids labels Hs Hrun)
    as (_ & _ & -> & _).
  assert (Hblocks :
            map (fun g => snd (fst (engine_block W s sensors (snd g))))
                (kept W (trajectories df))
            = map (fun g => repeat (fst g) ((length (snd g) - W) / s))
                  (kept W (trajectories df))).
  { apply map_ext_in. intros g Hg. apply kept_In in Hg.
    apply (engine_block_ids df), Hg. }
  rewrite Hblocks. unfold kept.
  assert (Hkeys : StronglySorted Z.lt (map fst (trajectories df))).
  { unfold trajectories. rewrite groupby_keys. apply unique_sorted. }
  destruct (sorted_blocks fst (fun g => (length (snd g) - W) / s)
              (fun g => negb (length (snd g) <? W)) (trajectories df) Hkeys)
    as [Hsorted Hin].
  split; [exact Hsorted|].
  eapply Forall_impl; [|exact Hin]. intros id Hid. cbv beta in Hid.
  unfold trajectories in Hid. rewrite groupby_keys in Hid.
  apply -> unique_In in Hid. exact Hid.
Qed.

Lemma window_sample_ids_sorted_witness :
  1 <> 0 /\
  StronglySorted Z.le
    (snd (fst (engine_block 2 1 example_sensors example_engine))) /\
  Forall (fun id => In id (map (fun r => unit_nr (raw r)) example_engine))
    (snd (fst (engine_block 2 1 example_sensors example_engine))).
Proof.
  split; [discriminate|].
  apply (window_sample_ids_sorted example_engine 2 1 example_sensors []
           (fst (fst (engine_block 2 1 example_sensors example_engine)))
           _
           (snd (engine_block 2 1 example_sensors example_engine))
           (Nat.neq_succ_0 0)).
  vm_compute. reflexivity.
Defined.

(** ** [split_val_set]: frames whose engine ids are not 1..N *)

Lemma pd_concat_ok_inv {R : Type} (frames : list (list R)) (x : list R) :
  pd_concat frames = Ok x -> x = concat frames /\ frames <> [].
Proof.
  destruct frames; [discriminate|]. cbn [pd_concat]. intros Heq.
  inversion Heq. split; [reflexivity | discriminate].
Qed.

Lemma split_val_set_ok_inv (df : list LabeledRecord) (val_size : float)
      (val_index : list Z) (train val : list LabeledRecord) :
  split_val_set df val_size val_index = Ok (train, val) ->
  train = concat (map (engine_rows df)
                      (filter (fun i => negb (Z_mem i val_index))
                              (range_from_1 (length (trajectories df))))) /\
  val = concat (map (engine_rows df)
                    (filter (fun i => Z_mem i val_index)
                            (range_from_1 (length (trajectories df))))).
Proof.
  unfold split_val_set. fold (trajectories df). intros Hrun.
  destruct (py_int _) as [size|e]; [|discriminate]. cbn [bind] in Hrun.
  destruct ((size <? 0)%Z || (Z.of_nat (length (trajectories df)) <? size)%Z)%bool;
    [discriminate|].
  cbn [bind] in Hrun. rewrite split_loop_eq in Hrun.
  destruct (pd_concat (map (engine_rows df) (filter (fun i => negb _) _)))
    as [t|e] eqn:Ht; [|discriminate].
  cbn [bind] in Hrun.
  destruct (pd_concat (map (engine_rows df) (filter (fun i => Z_mem _ _) _)))
    as [v|e] eqn:Hv; [|discriminate].
  cbn [bind] in Hrun. inversion Hrun; subst.
  split; [apply (pd_concat_ok_inv _ _ Ht) | apply (pd_concat_ok_inv _ _ Hv)].
Qed.

Lemma engine_rows_filter (p : LabeledRecord -> bool) (df : list LabeledRecord) (i : Z) :
  (forall r, unit_nr (raw r) = i -> p r = true) ->
  engine_rows (filter p df) i = engine_rows df i.
Proof.
  intros Hp. unfold engine_rows.
  induction df as [|r df IH]; cbn [filter]; [reflexivity|].
  destruct (Z.eqb_spec (unit_nr (raw r)) i) as [Heq|Hne].
  - rewrite (Hp r Heq). cbn [filter]. rewrite Heq, Z.eqb_refl, <- IH. reflexivity.
  - destruct (p r); cbn [filter]; [|exact IH].
    destruct (Z.eqb_spec (unit_nr (raw r)) i); [contradiction | exact IH].
Qed.

Lemma numbered_rows_In (n : nat) (df : list LabeledRecord) (r : LabeledRecord) :
  In r (numbered_rows n df) <-> In r df /\ (1 <= unit_nr (raw r) <= Z.of_nat n)%Z.
Proof.
  unfold numbered_rows. rewrite filter_In, andb_true_iff, Z.leb_le, Z.leb_le. tauto.
Qed.

(** X10.  Whatever the engine ids of the frame and whatever the draw, a
    call of [split_val_set] that returns hands back, in its two frames
    together, exactly the rows whose engine id lies in 1..N, N being the
    number of distinct engines, each once: the rows of an engine with
    another id are in neither frame.  A row in range goes to the validation
    frame when its id is in the draw and to the train frame otherwise. *)
Theorem split_val_set_numbered_rows (df : list LabeledRecord) (val_size : float)
        (val_index : list Z) (train val : list LabeledRecord) :
  split_val_set df val_size val_index = Ok (train, val) ->
  Permutation (train ++ val) (numbered_rows (engine_count df) df) /\
  (forall r, In r val <->
             In r (numbered_rows (engine_count df) df) /\ In (unit_nr (raw r)) val_index) /\
  (forall r, In r train <->
             In r (numbered_rows (engine_count df) df) /\ ~ In (unit_nr (raw r)) val_index).
Proof.
  intros Hrun.
  destruct (split_val_set_ok_inv df val_size val_index train val Hrun) as [-> ->].
  assert (Hn : length (trajectories df) = engine_count df)
    by (unfold trajectories, engine_count; apply groupby_length).
  rewrite Hn. set (n := engine_count df).
  split; [|split].
  - eapply Permutation_trans; [apply partition_concat|].
    rewrite <- (map_ext_in (engine_rows (numbered_rows n df)) (engine_rows df)).
    + apply concat_engine_rows; [apply range_from_1_NoDup|].
      intros r Hr. apply numbered_rows_In in Hr. apply range_from_1_In, Hr.
    + intros i Hi. apply range_from_1_In in Hi. apply engine_rows_filter.
      intros r <-. apply andb_true_iff. rewrite !Z.leb_le. exact Hi.
  - intros r. rewrite In_concat_engine_rows, filter_In, Z_mem_In, range_from_1_In,
      numbered_rows_In. tauto.
  - intros r. rewrite In_concat_engine_rows, filter_In, negb_true_iff, range_from_1_In,
      numbered_rows_In, <- not_true_iff_false, Z_mem_In. tauto.
Qed.

Lemma split_val_set_numbered_rows_witness :
  split_val_set example_gapped_set 0.5 [1%Z] = Ok ([], [labeled_row 1 1 1]) /\
  Permutation ([] ++ [labeled_row 1 1 1])
              (numbered_rows (engine_count example_gapped_set) example_gapped_set) /\
  (forall r, In r [labeled_row 1 1 1] <->
             In r (numbered_rows (engine_count example_gapped_set) example_gapped_set) /\
             In (unit_nr (raw r)) [1%Z]) /\
  (forall r, In r [] <->
             In r (numbered_rows (engine_count example_gapped_set) example_gapped_set) /\
             ~ In (unit_nr (raw r)) [1%Z]).
Proof.
  assert (Hrun : split_val_set example_gapped_set 0.5 [1%Z]
                 = Ok ([], [labeled_row 1 1 1])) by (vm_compute; reflexivity).
  split; [exact Hrun|].
  apply (split_val_set_numbered_rows example_gapped_set 0.5 [1%Z] []
           [labeled_row 1 1 1] Hrun).
Defined.

(** ** [split_val_set]: the empty frame and the ratio [nan] *)

(** X11.  [split_val_set] raises [ValueError] on the empty frame, whatever
    the ratio (the size of the draw is [int(0 * val_size)], which is 0 or
    raises on [nan], and there is no frame to concatenate), and on every
    frame when the ratio is [nan]. *)
Theorem split_val_set_empty_frame_or_nan (val_index : list Z) :
  (forall val_size, split_val_set [] val_size val_index = Raise ValueError) /\
  (forall df, split_val_set df nan val_index = Raise ValueError).
Proof.
  split.
  - intros val_size. unfold split_val_set. cbn [groupby map unique fold_right length].
    change (float_of_Z (Z.of_nat 0)) with zero.
    unfold py_int. rewrite mul_spec.
    change (Prim2SF zero) with (S754_zero false).
    destruct (Prim2SF val_size) as [sg| sg | |sg m e]; reflexivity.
  - intros df. unfold split_val_set, py_int. rewrite mul_spec.
    change (Prim2SF nan) with S754_nan.
    destruct (Prim2SF (float_of_Z _)); reflexivity.
Qed.

(** ** The dataset container: [Cmapss] *)


Section WindowDataset.

(** The conversion of a label to [np.float64], as [np.concatenate] with
    [dtype=np.float64] performs it. *)
Variable as_float : Q -> float.

(** X13.  The three arrays of a returning [generate_window_sample] always
    pass the assertion of [Cmapss.__init__]: [get_data] builds its datasets
    from them without an [AssertionError], and the dataset has one item per
    window, the sum over the engines of [max(0, floor((L - W) / slide_step))]. *)
Theorem window_sample_dataset (df : list LabeledRecord) (W s : nat)
        (sensors : list string) (ws : list warning)
        (data : list window) (ids : list Z) (labels : list Q) :
  s <> 0 ->
  generate_window_sample df W s sensors = (ws, Ok (data, ids, labels)) ->
  Cmapss.init data ids (map as_float labels)
  = Ok (Cmapss.mk data ids (map as_float labels)) /\
  Z.of_nat (Cmapss.len (Cmapss.mk data ids (map as_float labels)))
  = window_total W s (trajectories df).
Proof.
  intros Hs Hrun.
  destruct (generate_window_sample_ok_inv df W s sensors ws data ids labels Hs Hrun)
    as (_ & -> & -> & ->).
  destruct (blocks_lengths W s sensors (kept W (trajectories df))) as [H1 H2].
  unfold Cmapss.init, Cmapss.len. cbn [Cmapss.data]. rewrite length_map, <- H2, <- H1.
  rewrite !Nat.eqb_refl. split; [reflexivity|]. apply blocks_total, Hs.
Qed.

End WindowDataset.

Lemma window_sample_dataset_witness :
  1 <> 0 /\
  Cmapss.init (fst (fst (engine_block 2 1 example_sensors example_engine)))
              (snd (fst (engine_block 2 1 example_sensors example_engine)))
              (map (fun _ => 0%float)
                   (snd (engine_block 2 1 example_sensors example_engine)))
  = Ok (Cmapss.mk (fst (fst (engine_block 2 1 example_sensors example_engine)))
                  (snd (fst (engine_block 2 1 example_sensors example_engine)))
                  (map (fun _ => 0%float)
                       (snd (engine_block 2 1 example_sensors example_engine)))) /\
  Z.of_nat (Cmapss.len
              (Cmapss.mk (fst (fst (engine_block 2 1 example_sensors example_engine)))
                         (snd (fst (engine_block 2 1 example_sensors example_engine)))
                         (map (fun _ => 0%float)
                              (snd (engine_block 2 1 example_sensors example_engine)))))
  = window_total 2 1 (trajectories example_engine).
Proof.
  split; [discriminate|].
  apply (window_sample_dataset (fun _ => 0%float) example_engine 2 1 example_sensors []
           _ _ _ (Nat.neq_succ_0 0)).
  vm_compute. reflexivity.
Defined.

(** ** [CmapssRandomNegtiveSampler.sample]: the three regimes *)

Module RandomNegativeRegimes.
Import CmapssRandomNegtiveSampler.

Section Sampler.
Context {X : Type}.
Variable self : t X.
Variable index : nat.
Hypothesis bound : length (data self) = length (labels self).
Hypothesis index_in_range : index < length (labels self).

Lemma mask_false (q : nat) :
  q < length (labels self) ->
  ~ In q (argwhere (map (far (thresh self) (anchor_label self index)) (labels self))) ->
  far (thresh self) (anchor_label self index) (nth q (labels self) 0%float) = false.
Proof.
  intros Hq Hnot. rewrite argwhere_In, nth_error_map in Hnot.
  rewrite (nth_error_nth' _ 0%float Hq) in Hnot. cbn [option_map] in Hnot.
  destruct (far _ _ _); [exfalso; apply Hnot; reflexivity | reflexivity].
Qed.

Lemma sample_run (pop draw : list nat) (d : X) :
  population (argwhere (map (far (thresh self) (anchor_label self index)) (labels self)))
  = Ok pop ->
  neg_num self + 1 <= length pop ->
  length draw = neg_num self + 1 ->
  Forall (fun p => p < length (labels self)) (tl draw) ->
  sample self index draw
  = Ok (map (fun p => nth p (data self) d) (index :: tl draw),
        map (fun p => nth p (labels self) 0%float) (index :: tl draw)).
Proof.
  intros Hpop Hmany Hlen Hin. unfold sample.
  rewrite (RandomNegativeFacts.candidates_ok self index index_in_range). cbn [bind].
  rewrite Hpop. cbn [bind].
  destruct (Nat.ltb_spec (length pop) (neg_num self + 1)); [lia|]. cbn [bind].
  destruct draw as [|p0 rest]; [cbn in Hlen; lia|]. cbn [setitem bind tl] in *.
  rewrite (mapM_getitem_ok (data self) d (index :: rest)).
  2:{ constructor; [rewrite bound; exact index_in_range|].
      eapply Forall_impl; [|exact Hin]. cbn. intros p Hp. rewrite bound. exact Hp. }
  rewrite (mapM_getitem_ok (labels self) 0%float (index :: rest)).
  2:{ constructor; [exact index_in_range | exact Hin]. }
  reflexivity.
Qed.

End Sampler.
End RandomNegativeRegimes.

(** X14.  [CmapssRandomNegtiveSampler.sample] on a bound dataset when the
    number c of candidates (indices whose label is farther than the
    threshold from the anchor's) is not 1.  With c < neg_num + 1 the call
    raises [ValueError].  Otherwise, for a draw of neg_num + 1 distinct
    candidates, it returns the samples and the labels at the positions
    [index, draw[1], ..., draw[neg_num]], sample and label paired position
    by position: the first drawn candidate is overwritten by the anchor,
    and the neg_num negatives are distinct candidates, each farther than
    the threshold from the anchor. *)
Theorem random_sampler_regular {X : Type} (self : CmapssRandomNegtiveSampler.t X)
        (index : nat) (d : X) :
  length (CmapssRandomNegtiveSampler.data self)
  = length (CmapssRandomNegtiveSampler.labels self) ->
  index < length (CmapssRandomNegtiveSampler.labels self) ->
  forall cands,
    CmapssRandomNegtiveSampler.candidates self index = Ok cands ->
    length cands <> 1 ->
    (length cands < CmapssRandomNegtiveSampler.neg_num self + 1 ->
     forall draw, CmapssRandomNegtiveSampler.sample self index draw = Raise ValueError) /\
    (CmapssRandomNegtiveSampler.neg_num self + 1 <= length cands ->
     forall draw,
       choice_without_replacement cands (CmapssRandomNegtiveSampler.neg_num self + 1) draw ->
       CmapssRandomNegtiveSampler.sample self index draw
       = Ok (map (fun p => nth p (CmapssRandomNegtiveSampler.data self) d)
                 (index :: tl draw),
             map (fun p => nth p (CmapssRandomNegtiveSampler.labels self) 0%float)
                 (index :: tl draw)) /\
       length (tl draw) = CmapssRandomNegtiveSampler.neg_num self /\
       NoDup (tl draw) /\
       Forall (fun p =>
                 p < length (CmapssRandomNegtiveSampler.labels self) /\
                 CmapssRandomNegtiveSampler.far
                   (CmapssRandomNegtiveSampler.thresh self) (anchor_label self index)
                   (nth p (CmapssRandomNegtiveSampler.labels self) 0%float) = true)
              (tl draw)).
Proof.
  intros Hbound Hindex cands Hcands Hone.
  rewrite (RandomNegativeFacts.candidates_ok self index Hindex) in Hcands.
  injection Hcands as <-. split.
  - intros Hfew draw.
    apply (RandomNegativeFacts.sample_too_few self index Hbound Hindex draw Hone Hfew).
  - intros Hmany draw (Hlen & Hnd & Hincl).
    assert (Hfar : Forall (fun p =>
                     p < length (CmapssRandomNegtiveSampler.labels self) /\
                     CmapssRandomNegtiveSampler.far
                       (CmapssRandomNegtiveSampler.thresh self) (anchor_label self index)
                       (nth p (CmapssRandomNegtiveSampler.labels self) 0%float) = true)
                   (tl draw)).
    { apply Forall_forall. intros p Hp.
      apply (RandomNegativeFacts.candidate_far self index).
      apply Hincl. destruct draw; [destruct Hp | right; exact Hp]. }
    split; [|split; [|split]].
    + apply (RandomNegativeRegimes.sample_run self index Hbound Hindex
               (argwhere (map (CmapssRandomNegtiveSampler.far
                                 (CmapssRandomNegtiveSampler.thresh self)
                                 (anchor_label self index))
                              (CmapssRandomNegtiveSampler.labels self)))
               draw d).
      * destruct (argwhere _) as [|c [|c' rest]]; cbn [length] in *; try lia.
        reflexivity.
      * exact Hmany.
      * exact Hlen.
      * eapply Forall_impl; [|exact Hfar]. cbn. intros p [Hp _]. exact Hp.
    + destruct draw; cbn [length tl] in *; lia.
    + destruct draw as [|p0 rest]; [constructor|]. inversion Hnd; assumption.
    + exact Hfar.
Qed.

Lemma random_sampler_regular_witness :
  CmapssRandomNegtiveSampler.sample
    (CmapssRandomNegtiveSampler.init example_dataset 1 0.5%float) 3 [2; 1]
  = Ok ([103; 101], [10; 0]%float).
Proof.
  assert (Hdraw : choice_without_replacement [0; 1; 2] 2 [2; 1]).
  { split; [reflexivity|]. split.
    - repeat constructor; simpl; lia.
    - intros p Hp. simpl in *. lia. }
  assert (Hone : length [0; 1; 2] <> 1) by discriminate.
  assert (Hmany : 1 + 1 <= length [0; 1; 2]) by (cbn; lia).
  apply (proj2 (random_sampler_regular
                  (CmapssRandomNegtiveSampler.init example_dataset 1 0.5%float) 3 0
                  eq_refl (Nat.lt_succ_diag_r 3) [0; 1; 2] eq_refl Hone)
               Hmany [2; 1] Hdraw).
Defined.

(** X15.  [CmapssRandomNegtiveSampler.sample] on a bound dataset with
    exactly one candidate, at position c.  The squeezed candidate array is
    0-dimensional and the draw is made from the positions 0..c-1: with
    c < neg_num + 1 the call raises [ValueError]; otherwise it returns
    neg_num + 1 entries, and no returned negative is farther than the
    threshold from the anchor, the one candidate never being drawn. *)
Theorem random_sampler_lone_candidate {X : Type} (self : CmapssRandomNegtiveSampler.t X)
        (index c : nat) (d : X) :
  length (CmapssRandomNegtiveSampler.data self)
  = length (CmapssRandomNegtiveSampler.labels self) ->
  index < length (CmapssRandomNegtiveSampler.labels self) ->
  CmapssRandomNegtiveSampler.candidates self index = Ok [c] ->
  (c < CmapssRandomNegtiveSampler.neg_num self + 1 ->
   forall draw, CmapssRandomNegtiveSampler.sample self index draw = Raise ValueError) /\
  (CmapssRandomNegtiveSampler.neg_num self + 1 <= c ->
   forall draw,
     choice_without_replacement (seq 0 c) (CmapssRandomNegtiveSampler.neg_num self + 1) draw ->
     CmapssRandomNegtiveSampler.sample self index draw
     = Ok (map (fun p => nth p (CmapssRandomNegtiveSampler.data self) d)
               (index :: tl draw),
           map (fun p => nth p (CmapssRandomNegtiveSampler.labels self) 0%float)
               (index :: tl draw)) /\
     length (tl draw) = CmapssRandomNegtiveSampler.neg_num self /\
     Forall (fun p =>
               p < c /\
               CmapssRandomNegtiveSampler.far
                 (CmapssRandomNegtiveSampler.thresh self) (anchor_label self index)
                 (nth p (CmapssRandomNegtiveSampler.labels self) 0%float) = false)
            (tl draw)).
Proof.
  intros Hbound Hindex Hcands.
  rewrite (RandomNegativeFacts.candidates_ok self index Hindex) in Hcands.
  injection Hcands as Hcands.
  assert (Hc : c < length (CmapssRandomNegtiveSampler.labels self)).
  { apply (RandomNegativeFacts.candidate_far self index). rewrite Hcands.
    left. reflexivity. }
  split.
  - intros Hfew draw. unfold CmapssRandomNegtiveSampler.sample.
    rewrite (RandomNegativeFacts.candidates_ok self index Hindex), Hcands.
    cbn [bind CmapssRandomNegtiveSampler.population].
    destruct (Nat.eqb_spec c 0); [reflexivity|]. cbn [bind]. rewrite length_seq.
    destruct (Nat.ltb_spec c (CmapssRandomNegtiveSampler.neg_num self + 1));
      [reflexivity | lia].
  - intros Hmany draw (Hlen & Hnd & Hincl).
    assert (Hlow : Forall (fun p => p < c) (tl draw)).
    { apply Forall_forall. intros p Hp.
      assert (Hin : In p (seq 0 c))
        by (apply Hincl; destruct draw; [destruct Hp | right; exact Hp]).
      apply in_seq in Hin. lia. }
    split; [|split].
    + apply (RandomNegativeRegimes.sample_run self index Hbound Hindex (seq 0 c) draw d).
      * rewrite Hcands. cbn [CmapssRandomNegtiveSampler.population].
        destruct (Nat.eqb_spec c 0); [lia | reflexivity].
      * rewrite length_seq. exact Hmany.
      * exact Hlen.
      * eapply Forall_impl; [|exact Hlow]. cbn. intros p Hp. lia.
    + destruct draw; cbn [length tl] in *; lia.
    + eapply Forall_impl; [|exact Hlow]. cbn. intros p Hp. split; [exact Hp|].
      apply (RandomNegativeRegimes.mask_false self index); [lia|].
      rewrite Hcands. intros [Heq|[]]. lia.
Qed.

Lemma random_sampler_lone_candidate_witness :
  CmapssRandomNegtiveSampler.sample
    (CmapssRandomNegtiveSampler.init example_dataset 1 0.5%float) 0 [1; 2]
  = Ok ([100; 102], [0; 0]%float).
Proof.
  assert (Hdraw : choice_without_replacement (seq 0 3) 2 [1; 2]).
  { split; [reflexivity|]. split.
    - repeat constructor; simpl; lia.
    - intros p Hp. simpl in *. lia. }
  apply (proj2 (random_sampler_lone_candidate
                  (CmapssRandomNegtiveSampler.init example_dataset 1 0.5%float) 0 3 0
                  eq_refl (Nat.lt_0_succ 3) eq_refl)
               (Nat.le_succ_diag_r 2) [1; 2] Hdraw).
Defined.

(** ** [LSTM.forward]: the stacked outputs *)

Module LSTMOutputs.
Import LSTM.

Section Cell.
Context {T : Type} `{Tensor T}.
Variable self : t T.

(** The loop of [forward] from step [k] on, over the slices [l]. *)
Let run (k : nat) (l : list T) (st : T * T * list T) : T * T * list T :=
  fold_left (fun st i_x => step self i_x st) (combine (seq k (length l)) l) st.

Lemma run_app (l1 l2 : list T) (k : nat) (st : T * T * list T) :
  run k (l1 ++ l2) st = run (k + length l1) l2 (run k l1 st).
Proof.
  unfold run. revert k st. induction l1 as [|a l1 IH]; intros k st.
  - cbn [app length seq combine fold_left]. rewrite Nat.add_0_r. reflexivity.
  - cbn [app length seq combine fold_left]. rewrite IH.
    replace (S k + length l1) with (k + S (length l1)) by lia. reflexivity.
Qed.

(** Every step appends one tensor, the hidden state it leaves. *)
Lemma run_outputs (l : list T) :
  forall (k : nat) (h c : T) (outs : list T),
  exists h' c' news,
    run k l (h, c, outs) = (h', c', outs ++ news) /\
    length news = length l /\
    (l = [] -> h' = h /\ c' = c) /\
    (l <> [] -> exists front, news = front ++ [h']).
Proof.
  unfold run. induction l as [|a l IH]; intros k h c outs.
  - exists h, c, []. cbn. rewrite app_nil_r. repeat split; auto. congruence.
  - cbn [length seq combine fold_left].
    destruct (step self (k, a) (h, c, outs)) as [[h1 c1] outs1] eqn:Hstep.
    assert (Houts : outs1 = outs ++ [h1]).
    { unfold step in Hstep. inversion Hstep; subst. reflexivity. }
    subst outs1.
    destruct (IH (S k) h1 c1 (outs ++ [h1])) as (h' & c' & news & Hrun & Hlen & Hnil & Hlast).
    exists h', c', (h1 :: news). rewrite Hrun, <- app_assoc. cbn [app length].
    split; [reflexivity|]. split; [lia|]. split; [discriminate|].
    intros _. destruct l as [|a' l'].
    + destruct (Hnil eq_refl) as [-> _].
      destruct news; [|discriminate]. exists []. reflexivity.
    + destruct Hlast as (front & ->); [discriminate|].
      exists (h1 :: front). reflexivity.
Qed.

Lemma forward_run (x : input T) :
  forward self x
  = (let '(h, c, outputs) :=
       run 0 (slices x) (zeros (b x) (hidden_size self),
                         zeros (b x) (hidden_size self), []) in
     stacked <- torch_stack outputs ;; Ok (stacked, (h, c)))%result.
Proof. reflexivity. Qed.

End Cell.
End LSTMOutputs.

(** X16.  For every cell and every input, [LSTM.forward] raises
    [RuntimeError] on a sequence of no timestep and otherwise returns one
    output per timestep, the last of which is the returned final hidden
    state [h]. *)
Theorem lstm_forward_outputs {T : Type} `{LSTM.Tensor T} (self : LSTM.t T)
        (x : LSTM.input T) :
  (LSTM.slices x = [] -> LSTM.forward self x = Raise RuntimeError) /\
  (LSTM.slices x <> [] ->
   exists front h c,
     LSTM.forward self x = Ok (front ++ [h], (h, c)) /\
     length (front ++ [h]) = length (LSTM.slices x)).
Proof.
  rewrite LSTMOutputs.forward_run.
  destruct (LSTMOutputs.run_outputs self (LSTM.slices x) 0
              (LSTM.zeros (LSTM.b x) (LSTM.hidden_size self))
              (LSTM.zeros (LSTM.b x) (LSTM.hidden_size self)) [])
    as (h & c & news & Hrun & Hlen & Hnil & Hlast).
  cbv zeta. rewrite Hrun. cbn [app]. split.
  - intros Hx. rewrite Hx in Hlen. destruct news; [reflexivity | discriminate].
  - intros Hx. destruct (Hlast Hx) as (front & ->).
    exists front, h, c. split; [|exact Hlen].
    unfold LSTM.torch_stack. destruct front; reflexivity.
Qed.

(** X17.  [LSTM.forward] is causal: the outputs for the first timesteps
    of a sequence are the outputs of the forward pass on those timesteps
    alone (same batch size, same dropout masks), so an output never depends
    on a later timestep. *)
Theorem lstm_forward_causal {T : Type} `{LSTM.Tensor T} (self : LSTM.t T)
        (b : nat) (pre rest outs : list T) (h c : T) :
  pre <> [] ->
  LSTM.forward self (LSTM.mkInput b (pre ++ rest)) = Ok (outs, (h, c)) ->
  exists h' c',
    LSTM.forward self (LSTM.mkInput b pre) = Ok (firstn (length pre) outs, (h', c')).
Proof.
  intros Hpre Hrun. rewrite LSTMOutputs.forward_run in Hrun |- *.
  cbn [LSTM.slices LSTM.b] in *. rewrite LSTMOutputs.run_app in Hrun.
  destruct (LSTMOutputs.run_outputs self pre 0
              (LSTM.zeros b (LSTM.hidden_size self))
              (LSTM.zeros b (LSTM.hidden_size self)) [])
    as (h1 & c1 & news1 & Hrun1 & Hlen1 & _ & Hlast1).
  cbv zeta in *. rewrite Hrun1 in Hrun |- *. cbn [app] in *.
  destruct (LSTMOutputs.run_outputs self rest (0 + length pre) h1 c1 news1)
    as (h2 & c2 & news2 & Hrun2 & _).
  rewrite Hrun2 in Hrun.
  destruct (Hlast1 Hpre) as (front & ->).
  assert (Houts : outs = (front ++ [h1]) ++ news2).
  { unfold LSTM.torch_stack in Hrun.
    destruct ((front ++ [h1]) ++ news2) eqn:Heq;
      [destruct front; discriminate|].
    cbn [bind] in Hrun. inversion Hrun. reflexivity. }
  exists h1, c1. rewrite Houts, <- Hlen1, firstn_app, Nat.sub_diag, firstn_all.
  cbn [firstn]. rewrite app_nil_r.
  unfold LSTM.torch_stack. destruct front; reflexivity.
Qed.

Lemma lstm_forward_causal_witness :
  exists h' c',
    LSTM.forward (LSTM.mk (LSTM.mkLinear 2 1 Z.succ) (LSTM.mkLinear 2 1 Z.succ)
                          (LSTM.mkLinear 2 1 Z.succ) (LSTM.mkLinear 2 1 Z.succ)
                          None 1)
                 (LSTM.mkInput 1 [3%Z])
    = Ok (firstn (length [3%Z]) [64; 421400]%Z, (h', c')).
Proof.
  apply (lstm_forward_causal
           (LSTM.mk (LSTM.mkLinear 2 1 Z.succ) (LSTM.mkLinear 2 1 Z.succ)
                    (LSTM.mkLinear 2 1 Z.succ) (LSTM.mkLinear 2 1 Z.succ)
                    None 1)
           1 [3%Z] [5%Z] [64; 421400]%Z 421400%Z 6020%Z).
  - discriminate.
  - vm_compute. reflexivity.
Defined.

(** ** The samplers on arguments they cannot serve *)

Lemma getitem_raise {A : Type} (l : list A) (i : nat) :
  length l <= i -> getitem l i = Raise IndexError.
Proof.
  intros Hi. unfold getitem. rewrite (proj2 (nth_error_None l i) Hi). reflexivity.
Qed.

(** X18.  [CmapssNegativeSampler.sample] raises [IndexError] for an index
    past the dataset; for an index of the dataset it raises [ValueError]
    when [engine_num] exceeds the number of engines, [IndexError] when
    [engine_num] is 0 (the empty draw has no position 0 for the anchor's
    engine) and [ZeroDivisionError] when [interval_nums] is 0 and an engine
    is drawn.  [CmapssRandomNegtiveSampler.sample] raises [IndexError] for
    an index past the labels. *)
Theorem samplers_bad_arguments {X : Type} (self : CmapssNegativeSampler.t X)
        (other : CmapssRandomNegtiveSampler.t X)
        (index : nat) (drawn : list Z) (picks : nat -> nat -> nat) (draw : list nat) :
  (length (CmapssNegativeSampler.ids self) <= index ->
   CmapssNegativeSampler.sample self index drawn picks = Raise IndexError) /\
  (index < length (CmapssNegativeSampler.ids self) ->
   length (unique (CmapssNegativeSampler.ids self)) < CmapssNegativeSampler.engine_num self ->
   CmapssNegativeSampler.sample self index drawn picks = Raise ValueError) /\
  (index < length (CmapssNegativeSampler.ids self) ->
   CmapssNegativeSampler.engine_num self = 0 ->
   CmapssNegativeSampler.sample self index [] picks = Raise IndexError) /\
  (index < length (CmapssNegativeSampler.ids self) ->
   CmapssNegativeSampler.interval_nums self = 0 ->
   1 <= CmapssNegativeSampler.engine_num self
   <= length (unique (CmapssNegativeSampler.ids self)) ->
   length drawn = CmapssNegativeSampler.engine_num self ->
   CmapssNegativeSampler.sample self index drawn picks = Raise ZeroDivisionError) /\
  (length (CmapssRandomNegtiveSampler.labels other) <= index ->
   CmapssRandomNegtiveSampler.sample other index draw = Raise IndexError).
Proof.
  unfold CmapssNegativeSampler.sample, CmapssNegativeSampler.sample_slots.
  split; [|split; [|split; [|split]]].
  - intros Hout. rewrite (getitem_raise _ _ Hout). reflexivity.
  - intros Hin Hmany. rewrite (getitem_ok _ index 0%Z Hin). cbn [bind].
    destruct (Nat.ltb_spec (length (unique (CmapssNegativeSampler.ids self)))
                           (CmapssNegativeSampler.engine_num self)); [reflexivity | lia].
  - intros Hin Hzero. rewrite (getitem_ok _ index 0%Z Hin), Hzero. cbn [bind].
    destruct (Nat.ltb_spec (length (unique (CmapssNegativeSampler.ids self))) 0); [lia|].
    reflexivity.
  - intros Hin Hzero Hnum Hlen. rewrite (getitem_ok _ index 0%Z Hin). cbn [bind].
    destruct (Nat.ltb_spec (length (unique (CmapssNegativeSampler.ids self)))
                           (CmapssNegativeSampler.engine_num self)); [lia|].
    cbn [bind].
    assert (Hids : exists g engine_ids,
               CmapssNegativeSampler.drawn_engines
                 (nth index (CmapssNegativeSampler.ids self) 0%Z) drawn
               = Ok (g :: engine_ids)).
    { unfold CmapssNegativeSampler.drawn_engines.
      destruct drawn as [|g rest]; [cbn [length] in Hlen; lia|].
      destruct (Z_mem _ (g :: rest)); cbn [setitem]; eauto. }
    destruct Hids as (g & engine_ids & ->). cbn [bind length seq combine foldM].
    unfold CmapssNegativeSampler.engine_step at 1. rewrite Hzero. reflexivity.
  - intros Hout. unfold CmapssRandomNegtiveSampler.sample,
      CmapssRandomNegtiveSampler.candidates.
    rewrite (getitem_raise _ _ Hout). reflexivity.
Qed.

(** ** [CmapssNegativeSampler.sample]: what the returned arrays hold *)

Lemma getitem_ok_inv {A : Type} (l : list A) (i : nat) (x d : A) :
  getitem l i = Ok x -> i < length l /\ x = nth i l d.
Proof.
  unfold getitem. destruct (nth_error l i) as [a|] eqn:Ha; [|discriminate].
  intros Heq. injection Heq as <-. split.
  - apply nth_error_Some. congruence.
  - symmetry. apply nth_error_nth, Ha.
Qed.

Lemma setitem_at_end {A : Type} (front : list A) (n : nat) (pad v : A) (k : nat) :
  k = length front ->
  setitem (front ++ repeat pad (S n)) k v = Ok ((front ++ [v]) ++ repeat pad n).
Proof.
  intros ->.
  induction front as [|a front IH]; cbn [app length setitem repeat]; [reflexivity|].
  cbn [repeat] in IH. rewrite IH. reflexivity.
Qed.

Lemma np_stack_padded {X : Type} (xs : list X) (n : nat) (stacked : list X) :
  CmapssNegativeSampler.np_stack (map Filled xs ++ repeat Placeholder n) = Ok stacked ->
  n = 0 /\ stacked = xs.
Proof.
  revert stacked. induction xs as [|x xs IH]; intros stacked Hrun.
  - destruct n as [|n]; cbn in Hrun; [|discriminate].
    injection Hrun as <-. auto.
  - cbn [map app CmapssNegativeSampler.np_stack] in Hrun.
    apply bind_ok_inv in Hrun. destruct Hrun as (r & Hr & Hrun).
    destruct (IH r Hr) as [-> ->]. injection Hrun as <-. auto.
Qed.

Module NegativeSamplerOutput.
Import CmapssNegativeSampler.

Section Sampler.
Context {X : Type}.
Variable self : t X.
Variable index : nat.
Variable picks : nat -> nat -> nat.
Variable d : X.

Lemma segment_ok_inv (engine : Z) (i : nat) (bounds : nat * nat) :
  segment (engine_positions self engine) (segment_gap self engine) (interval_nums self) i
  = Ok bounds ->
  bounds = segment_bounds self engine i.
Proof.
  unfold segment, segment_bounds. intros Hrun.
  apply bind_ok_inv in Hrun. destruct Hrun as (first & Hfirst & Hrun).
  apply (getitem_ok_inv _ _ _ 0) in Hfirst. destruct Hfirst as [_ ->].
  destruct (i =? interval_nums self - 1); cbn [negb] in Hrun.
  - apply bind_ok_inv in Hrun. destruct Hrun as (stop & Hstop & Hrun).
    apply bind_ok_inv in Hstop. destruct Hstop as (last_ & Hlast & Hstop).
    apply (getitem_ok_inv _ _ _ 0) in Hlast. destruct Hlast as [_ ->].
    injection Hstop as <-. injection Hrun as <-. reflexivity.
  - cbn [bind] in Hrun. injection Hrun as <-. reflexivity.
Qed.

Lemma segment_step_content (e : nat) (engine : Z) (i : nat) (st st' : state X)
      (ps : list nat) :
  segment_step self index (anchor_engine self index) picks e engine
               (engine_positions self engine) (segment_gap self engine) i st = Ok st' ->
  slots_content self d st ps ->
  slots_content self d st'
    (ps ++ (if segment_skipped self index engine i then [] else [picks e i])).
Proof.
  intros Hrun Hc. unfold segment_step in Hrun.
  apply bind_ok_inv in Hrun. destruct Hrun as (bounds & Hseg & Hrun).
  apply segment_ok_inv in Hseg. subst bounds.
  change (skipped index engine (anchor_engine self index) (segment_bounds self engine i))
    with (segment_skipped self index engine i) in Hrun.
  destruct (segment_skipped self index engine i).
  { injection Hrun as <-. rewrite app_nil_r. exact Hc. }
  destruct (snd (segment_bounds self engine i) <=? fst (segment_bounds self engine i));
    [discriminate|].
  apply bind_ok_inv in Hrun. destruct Hrun as (x & Hx & Hrun).
  apply bind_ok_inv in Hrun. destruct Hrun as (samples & Hs & Hrun).
  apply bind_ok_inv in Hrun. destruct Hrun as (l & Hl & Hrun).
  apply bind_ok_inv in Hrun. destruct Hrun as (labels_ & Hls & Hrun).
  apply bind_ok_inv in Hrun. destruct Hrun as (id & Hid & Hrun).
  apply bind_ok_inv in Hrun. destruct Hrun as (ids_ & Hids & Hrun).
  injection Hrun as <-.
  apply (getitem_ok_inv _ _ _ d) in Hx. destruct Hx as [Hpx ->].
  apply (getitem_ok_inv _ _ _ 0%float) in Hl. destruct Hl as [Hpl ->].
  apply (getitem_ok_inv _ _ _ 0%Z) in Hid. destruct Hid as [Hpi _].
  unfold slots_content in Hc. cbv zeta in Hc.
  destruct Hc as (Hlens & Hlenl & Hleni & Hj & Hall & Hfull).
  destruct (setitem_inv _ _ _ _ Hs) as (Hroom & Hlens' & _).
  destruct (setitem_inv _ _ _ _ Hls) as (_ & Hlenl' & _).
  destruct (setitem_inv _ _ _ _ Hids) as (_ & Hleni' & _).
  destruct Hfull as (Hle & Hsamples & Hlabels); [lia|].
  set (size := interval_nums self * engine_num self) in *.
  assert (Hpad : size - j st = S (size - S (j st))) by lia.
  rewrite Hsamples, Hpad, Hj in Hs. rewrite Hlabels, Hpad, Hj in Hls.
  change (Placeholder :: map (fun p => Filled (nth p (data self) d)) ps
          ++ repeat Placeholder (S (size - S (S (length ps)))))
    with ((Placeholder :: map (fun p => Filled (nth p (data self) d)) ps)
          ++ repeat Placeholder (S (size - S (S (length ps))))) in Hs.
  change (Placeholder :: map (fun p => Filled (nth p (labels self) 0%float)) ps
          ++ repeat Placeholder (S (size - S (S (length ps)))))
    with ((Placeholder :: map (fun p => Filled (nth p (labels self) 0%float)) ps)
          ++ repeat Placeholder (S (size - S (S (length ps))))) in Hls.
  rewrite setitem_at_end in Hs by (cbn [length]; rewrite length_map; reflexivity).
  rewrite setitem_at_end in Hls by (cbn [length]; rewrite length_map; reflexivity).
  injection Hs as <-. injection Hls as <-.
  unfold slots_content. cbv zeta. fold size.
  cbn [neg_samples neg_labels neg_ids j].
  split; [exact (eq_trans Hlens' Hlens)|].
  split; [exact (eq_trans Hlenl' Hlenl)|].
  split; [exact (eq_trans Hleni' Hleni)|].
  split; [rewrite length_app, Hj; cbn [length]; lia|].
  split; [apply Forall_app; split; [exact Hall | constructor; [auto | constructor]]|].
  intros _. split; [lia|].
  rewrite !map_app, Hj. cbn [map app]. rewrite <- !app_assoc. cbn [app]. auto.
Qed.

Lemma segments_content (e : nat) (engine : Z) (segs : list nat) :
  forall (st st' : state X) (ps : list nat),
    foldM (segment_step self index (anchor_engine self index) picks e engine
                        (engine_positions self engine) (segment_gap self engine))
          segs st = Ok st' ->
    slots_content self d st ps ->
    slots_content self d st'
      (ps ++ map (picks e)
                 (filter (fun i => negb (segment_skipped self index engine i)) segs)).
Proof.
  induction segs as [|i segs IH]; intros st st' ps Hrun Hc; cbn [foldM filter] in *.
  - injection Hrun as <-. cbn [map]. rewrite app_nil_r. exact Hc.
  - apply bind_ok_inv in Hrun. destruct Hrun as (st1 & Hstep & Hrun).
    pose proof (segment_step_content e engine i st st1 ps Hstep Hc) as Hc1.
    pose proof (IH st1 st' _ Hrun Hc1) as Hc'.
    destruct (segment_skipped self index engine i); cbn [negb map] in *.
    + rewrite app_nil_r in Hc'. exact Hc'.
    + rewrite <- app_assoc in Hc'. exact Hc'.
Qed.

Lemma engines_content (es : list (nat * Z)) :
  forall (st st' : state X) (ps : list nat),
    foldM (engine_step self index (anchor_engine self index) picks) es st = Ok st' ->
    slots_content self d st ps ->
    slots_content self d st'
      (ps ++ flat_map
               (fun e_engine : nat * Z =>
                  map (picks (fst e_engine))
                      (filter (fun i => negb (segment_skipped self index (snd e_engine) i))
                              (seq 0 (interval_nums self))))
               es).
Proof.
  induction es as [|[e engine] es IH]; intros st st' ps Hrun Hc;
    cbn [foldM flat_map fst snd] in *.
  - injection Hrun as <-. rewrite app_nil_r. exact Hc.
  - apply bind_ok_inv in Hrun. destruct Hrun as (st1 & Hstep & Hrun).
    unfold engine_step in Hstep.
    destruct (interval_nums self =? 0); [discriminate|].
    fold (engine_positions self engine) in Hstep.
    fold (segment_gap self engine) in Hstep.
    pose proof (segments_content e engine _ st st1 ps Hstep Hc) as Hc1.
    pose proof (IH st1 st' _ Hrun Hc1) as Hc'.
    rewrite <- app_assoc in Hc'. exact Hc'.
Qed.

End Sampler.
End NegativeSamplerOutput.

(** X19.  Whenever [CmapssNegativeSampler.sample] returns, the two arrays
    hold, position by position, the sample and the label at the dataset
    positions [index, p_1, p_2, ...], where the [p] are the picks of the
    segments that were not skipped, in loop order (engine after engine of
    the forced draw, segment after segment); there are exactly
    [interval_nums * engine_num - 1] of them and every one is a position of
    the dataset. *)
Theorem negative_sampler_output {X : Type} (self : CmapssNegativeSampler.t X)
        (index : nat) (drawn : list Z) (picks : nat -> nat -> nat) (d : X)
        (samples : list X) (labels_ : list float) :
  CmapssNegativeSampler.sample self index drawn picks = Ok (samples, labels_) ->
  exists engine_ids,
    CmapssNegativeSampler.drawn_engines (anchor_engine self index) drawn = Ok engine_ids /\
    samples = map (fun p => nth p (CmapssNegativeSampler.data self) d)
                  (index :: planned_picks self index engine_ids picks) /\
    labels_ = map (fun p => nth p (CmapssNegativeSampler.labels self) 0%float)
                  (index :: planned_picks self index engine_ids picks) /\
    S (length (planned_picks self index engine_ids picks))
    = CmapssNegativeSampler.interval_nums self * CmapssNegativeSampler.engine_num self /\
    Forall (fun p => p < length (CmapssNegativeSampler.ids self))
           (index :: planned_picks self index engine_ids picks).
Proof.
  intros Hrun. unfold CmapssNegativeSampler.sample in Hrun.
  apply bind_ok_inv in Hrun. destruct Hrun as ([ss ls] & Hslots & Hrun).
  apply bind_ok_inv in Hrun. destruct Hrun as (stacked & Hstack & Hrun).
  injection Hrun as <- <-.
  unfold CmapssNegativeSampler.sample_slots in Hslots.
  apply bind_ok_inv in Hslots. destruct Hslots as (engine_id & Hid & Hslots).
  apply (getitem_ok_inv _ _ _ 0%Z) in Hid. destruct Hid as [Hindex ->].
  fold (anchor_engine self index) in Hslots.
  apply bind_ok_inv in Hslots. destruct Hslots as (_ & _ & Hslots).
  apply bind_ok_inv in Hslots. destruct Hslots as (engine_ids & Hforce & Hslots).
  cbv zeta in Hslots.
  apply bind_ok_inv in Hslots. destruct Hslots as (st & Hloop & Hslots).
  apply bind_ok_inv in Hslots. destruct Hslots as (x0 & Hx0 & Hslots).
  apply bind_ok_inv in Hslots. destruct Hslots as (ss' & Hss & Hslots).
  apply bind_ok_inv in Hslots. destruct Hslots as (l0 & Hl0 & Hslots).
  apply bind_ok_inv in Hslots. destruct Hslots as (ls' & Hls & Hslots).
  apply bind_ok_inv in Hslots. destruct Hslots as (_ & _ & Hslots).
  injection Hslots as <- <-.
  apply (getitem_ok_inv _ _ _ d) in Hx0. destruct Hx0 as [_ ->].
  apply (getitem_ok_inv _ _ _ 0%float) in Hl0. destruct Hl0 as [_ ->].
  set (size := CmapssNegativeSampler.interval_nums self
               * CmapssNegativeSampler.engine_num self) in *.
  assert (Hc0 : slots_content self d
                  (CmapssNegativeSampler.mkState
                     (repeat Placeholder size) (repeat Placeholder size)
                     (repeat Placeholder size) 1) []).
  { unfold slots_content. cbv zeta. fold size.
    cbn [CmapssNegativeSampler.neg_samples CmapssNegativeSampler.neg_labels
         CmapssNegativeSampler.neg_ids CmapssNegativeSampler.j length map app].
    rewrite !repeat_length. do 4 (split; [reflexivity|]). split; [constructor|].
    intros Hsize. split; [exact Hsize|].
    destruct size as [|n]; [lia|]. cbn [repeat].
    replace (S n - 1) with n by lia. split; reflexivity. }
  pose proof (NegativeSamplerOutput.engines_content self index picks d _ _ _ _ Hloop Hc0)
    as Hc.
  cbn [app] in Hc. fold (planned_picks self index engine_ids picks) in Hc.
  unfold slots_content in Hc. cbv zeta in Hc. fold size in Hc.
  destruct Hc as (Hlens & _ & _ & Hj & Hall & Hfull).
  destruct (setitem_inv _ _ _ _ Hss) as (Hroom & _ & _).
  destruct Hfull as (Hle & Hsamples & Hlabels); [lia|].
  rewrite Hsamples in Hss. rewrite Hlabels in Hls.
  cbn [setitem] in Hss, Hls. injection Hss as <-. injection Hls as <-.
  rewrite <- (map_map (fun p => nth p (CmapssNegativeSampler.data self) d) Filled)
    in Hstack.
  change (CmapssNegativeSampler.np_stack
            (map Filled
                 (map (fun p => nth p (CmapssNegativeSampler.data self) d)
                      (index :: planned_picks self index engine_ids picks))
             ++ repeat Placeholder (size - CmapssNegativeSampler.j st)) = Ok stacked)
    in Hstack.
  apply np_stack_padded in Hstack. destruct Hstack as [Hfull ->].
  exists engine_ids. split; [exact Hforce|]. split; [reflexivity|]. split.
  { rewrite Hfull. cbn [repeat]. rewrite app_nil_r. unfold CmapssNegativeSampler.np_array.
    cbn [map]. rewrite map_map. reflexivity. }
  split; [lia|].
  constructor; [exact Hindex|].
  eapply Forall_impl; [|exact Hall]. cbn. intros p Hp. apply Hp.
Qed.

Lemma negative_sampler_output_witness :
  exists engine_ids,
    CmapssNegativeSampler.drawn_engines (anchor_engine example_sampler 0) [2; 1]%Z
    = Ok engine_ids /\
    [10; 21; 22; 13]
    = map (fun p => nth p (CmapssNegativeSampler.data example_sampler) 0)
          (0 :: planned_picks example_sampler 0 engine_ids example_picks) /\
    [1; 6; 7; 4]%float
    = map (fun p => nth p (CmapssNegativeSampler.labels example_sampler) 0%float)
          (0 :: planned_picks example_sampler 0 engine_ids example_picks) /\
    S (length (planned_picks example_sampler 0 engine_ids example_picks))
    = CmapssNegativeSampler.interval_nums example_sampler
      * CmapssNegativeSampler.engine_num example_sampler /\
    Forall (fun p => p < length (CmapssNegativeSampler.ids example_sampler))
           (0 :: planned_picks example_sampler 0 engine_ids example_picks).
Proof.
  apply (negative_sampler_output example_sampler 0 [2; 1]%Z example_picks 0
           [10; 21; 22; 13] [1; 6; 7; 4]%float).
  vm_compute. reflexivity.
Defined.

(** ** [CmapssNegativeSampler.sample] on a dataset sorted by engine *)

Lemma sorted_nth_le (l : list Z) (a b : nat) :
  StronglySorted Z.le l -> a <= b -> b < length l ->
  (nth a l 0 <= nth b l 0)%Z.
Proof.
  intros Hs. revert a b. induction Hs as [|x l Hs IH Hall]; intros a b Hab Hb.
  - cbn in Hb. lia.
  - destruct b as [|b]; [replace a with 0 by lia; lia|].
    cbn [length] in Hb. destruct a as [|a]; cbn [nth].
    + rewrite Forall_forall in Hall. apply Hall, nth_In. lia.
    + apply IH; lia.
Qed.

(** X20.  On a bound dataset whose samples are sorted by engine id (as
    [generate_window_sample] returns them), with at least one segment per
    engine and picks the generator can produce, every negative that
    [CmapssNegativeSampler.sample] reads is a sample of the engine whose
    segment it was drawn for, hence of a drawn engine, and none is the
    anchor itself. *)
Theorem negative_sampler_stratified {X : Type} (self : CmapssNegativeSampler.t X)
        (index : nat) (engine_ids : list Z) (picks : nat -> nat -> nat) :
  length (CmapssNegativeSampler.data self) = length (CmapssNegativeSampler.ids self) ->
  length (CmapssNegativeSampler.labels self) = length (CmapssNegativeSampler.ids self) ->
  index < length (CmapssNegativeSampler.ids self) ->
  1 <= CmapssNegativeSampler.interval_nums self ->
  StronglySorted Z.le (CmapssNegativeSampler.ids self) ->
  (forall g, In g engine_ids -> In g (CmapssNegativeSampler.ids self)) ->
  valid_picks self index (anchor_engine self index) engine_ids picks ->
  (forall e engine i,
      nth_error engine_ids e = Some engine ->
      i < CmapssNegativeSampler.interval_nums self ->
      segment_skipped self index engine i = false ->
      nth (picks e i) (CmapssNegativeSampler.ids self) 0%Z = engine /\
      picks e i <> index) /\
  Forall (fun p => p <> index /\
                   In (nth p (CmapssNegativeSampler.ids self) 0%Z) engine_ids)
         (planned_picks self index engine_ids picks).
Proof.
  intros Hdata Hlabels Hindex Hint Hsorted Hids Hpicks.
  assert (Hone : forall e engine i,
             nth_error engine_ids e = Some engine ->
             i < CmapssNegativeSampler.interval_nums self ->
             segment_skipped self index engine i = false ->
             nth (picks e i) (CmapssNegativeSampler.ids self) 0%Z = engine /\
             picks e i <> index).
  { intros e engine i He Hi Hskip.
    assert (Hin : In engine (CmapssNegativeSampler.ids self))
      by (apply Hids; eapply nth_error_In; exact He).
    pose proof (Hpicks e engine i (segment_bounds self engine i) He Hi
                  (NegativeSamplerFacts.segment_ok self index Hdata Hlabels Hindex Hint
                     engine i Hin) Hskip) as Hrange.
    pose proof (NegativeSamplerFacts.engine_positions_nonempty self index Hdata Hlabels
                  Hindex Hint engine Hin) as Hpos.
    pose proof (NegativeSamplerFacts.engine_positions_sorted self engine) as Hps.
    set (positions := engine_positions self engine) in *.
    set (first := nth 0 positions 0).
    set (last_ := nth (length positions - 1) positions 0).
    assert (Hfirst : nth_error (CmapssNegativeSampler.ids self) first = Some engine).
    { apply NegativeSamplerFacts.engine_positions_In. apply nth_In. exact Hpos. }
    assert (Hlast : nth_error (CmapssNegativeSampler.ids self) last_ = Some engine).
    { apply NegativeSamplerFacts.engine_positions_In. apply nth_In.
      unfold positions in *. lia. }
    assert (Hlast_lt : last_ < length (CmapssNegativeSampler.ids self))
      by (apply nth_error_Some; congruence).
    pose proof (sorted_nth_gap positions (length positions - 1) Hps ltac:(lia)) as Hgap.
    fold first last_ in Hgap.
    assert (Hbounds : first <= fst (segment_bounds self engine i) /\
                      snd (segment_bounds self engine i) <= last_ + 1).
    { unfold segment_bounds. cbn [fst snd]. fold positions first last_.
      split; [lia|].
      destruct (Nat.eqb_spec i (CmapssNegativeSampler.interval_nums self - 1));
        [lia|].
      pose proof (Nat.Div0.mul_div_le (length positions)
                    (CmapssNegativeSampler.interval_nums self)) as Hdiv.
      change (length positions / CmapssNegativeSampler.interval_nums self)
        with (segment_gap self engine) in Hdiv.
      assert ((i + 1) * segment_gap self engine
              <= CmapssNegativeSampler.interval_nums self * segment_gap self engine)
        by (apply Nat.mul_le_mono_r; lia).
      lia. }
    assert (Hengine : nth (picks e i) (CmapssNegativeSampler.ids self) 0%Z = engine).
    { pose proof (sorted_nth_le _ first (picks e i) Hsorted ltac:(lia) ltac:(lia)) as H1.
      pose proof (sorted_nth_le _ (picks e i) last_ Hsorted ltac:(lia) Hlast_lt) as H2.
      rewrite (nth_error_nth _ _ 0%Z Hfirst) in H1.
      rewrite (nth_error_nth _ _ 0%Z Hlast) in H2. lia. }
    split; [exact Hengine|].
    intros Heq. unfold segment_skipped, CmapssNegativeSampler.skipped in Hskip.
    rewrite Heq in Hengine, Hrange. unfold anchor_engine in Hskip.
    rewrite Hengine, Z.eqb_refl, Bool.andb_true_r in Hskip.
    destruct (Nat.leb_spec (fst (segment_bounds self engine i)) index),
      (Nat.ltb_spec index (snd (segment_bounds self engine i)));
      cbn [andb] in Hskip; try discriminate; lia. }
  split; [exact Hone|].
  apply Forall_forall. intros p Hp. unfold planned_picks in Hp.
  apply in_flat_map in Hp. destruct Hp as ([e engine] & He & Hp). cbn [fst snd] in Hp.
  apply in_map_iff in Hp. destruct Hp as (i & <- & Hi).
  apply filter_In in Hi. destruct Hi as [Hi Hskip].
  apply in_seq in Hi. apply Bool.negb_true_iff in Hskip.
  apply combine_seq_In in He. destruct He as [_ He]. rewrite Nat.sub_0_r in He.
  destruct (Hone e engine i He ltac:(lia) Hskip) as [Hengine Hne].
  split; [exact Hne|]. rewrite Hengine. eapply nth_error_In. exact He.
Qed.

Lemma negative_sampler_stratified_witness :
  StronglySorted Z.le (CmapssNegativeSampler.ids example_sampler) /\
  valid_picks example_sampler 0 (anchor_engine example_sampler 0) [2; 1]%Z example_picks /\
  Forall (fun p => p <> 0 /\
                   In (nth p (CmapssNegativeSampler.ids example_sampler) 0%Z) [2; 1]%Z)
         (planned_picks example_sampler 0 [2; 1]%Z example_picks).
Proof.
  assert (Hsorted : StronglySorted Z.le (CmapssNegativeSampler.ids example_sampler)).
  { cbn. repeat (constructor; [|repeat (constructor; try lia)]). constructor. }
  assert (Hids : forall g, In g [2; 1]%Z ->
                           In g (CmapssNegativeSampler.ids example_sampler)).
  { intros g [<-|[<-|[]]]; cbn; auto 10. }
  split; [exact Hsorted|]. split; [exact example_picks_valid|].
  apply (proj2 (negative_sampler_stratified example_sampler 0 [2; 1]%Z example_picks
                  eq_refl eq_refl (Nat.lt_0_succ 7) (Nat.le_succ_diag_r 1)
                  Hsorted Hids example_picks_valid)).
Defined.
